(** * FlatLens: format detection, camera clamps, material pipeline, anaglyph shaders

    A shallow embedding of the parts of FlatLens (src/js/Utils.js,
    src/js/Detector.js, src/js/Render.js, src/js/Shaders.js and the earlier
    Dubois shader file) that the specification speaks about, followed by
    the properties proved about them.

    Numbers.  For the clamps and the geometry a JavaScript number is a
    real number extended with [NaN] and the two infinities ([jsnum]), and
    for the ratios of whole pixel counts a rational extended in the same
    way ([qnum]); neither rounds.  Where rounding decides (the numbers
    parsed out of an XMP packet, the round trip of the field-of-view
    conversions) a number is a binary64 value ([Double]). *)

From Stdlib Require Import Reals Lra Lia ZArith QArith Bool List.
From Stdlib Require Import Ascii String.
From Stdlib Require Floats.
From stdpp Require Import base option gmap strings.

(* ===================================================================== *)
(** * JavaScript numbers over the reals *)
(* ===================================================================== *)

Module JsNum.

Local Open Scope R_scope.

Inductive jsnum : Type :=
| NaN
| NegInf
| Num (x : R)
| PosInf.

Definition is_NaN (a : jsnum) : bool :=
  match a with NaN => true | _ => false end.

Definition is_finite (a : jsnum) : bool :=
  match a with Num _ => true | _ => false end.

(** Unary minus. *)
Definition neg (a : jsnum) : jsnum :=
  match a with
  | NaN => NaN
  | NegInf => PosInf
  | Num x => Num (- x)
  | PosInf => NegInf
  end.

(** [a + b]: opposite infinities cancel to NaN. *)
Definition add (a b : jsnum) : jsnum :=
  match a, b with
  | NaN, _ | _, NaN => NaN
  | PosInf, NegInf | NegInf, PosInf => NaN
  | PosInf, _ | _, PosInf => PosInf
  | NegInf, _ | _, NegInf => NegInf
  | Num x, Num y => Num (x + y)
  end.

Definition sub (a b : jsnum) : jsnum := add a (neg b).

(** The infinity carrying the sign of [x] times the sign of [i];
    [x = 0] gives NaN. *)
Definition scale_inf (x : R) (i : jsnum) : jsnum :=
  if Req_dec_T x 0 then NaN
  else if Rlt_dec 0 x then i else neg i.

Definition mul (a b : jsnum) : jsnum :=
  match a, b with
  | NaN, _ | _, NaN => NaN
  | Num x, Num y => Num (x * y)
  | Num x, i => scale_inf x i
  | i, Num y => scale_inf y i
  | PosInf, PosInf | NegInf, NegInf => PosInf
  | PosInf, NegInf | NegInf, PosInf => NegInf
  end.

(** [a / b]: a zero divisor is read as +0. *)
Definition div (a b : jsnum) : jsnum :=
  match a, b with
  | NaN, _ | _, NaN => NaN
  | Num x, Num y =>
      if Req_dec_T y 0 then
        (if Req_dec_T x 0 then NaN
         else if Rlt_dec 0 x then PosInf else NegInf)
      else Num (x / y)
  | Num _, _ => Num 0
  | i, Num y => if Rlt_dec y 0 then neg i else i
  | _, _ => NaN
  end.

(** Truncation towards zero, as used by the remainder operator. *)
Definition Rtrunc (r : R) : Z :=
  if Rle_dec 0 r then Int_part r else (- Int_part (- r))%Z.

(** [a % b]: the result takes the sign of the dividend. *)
Definition rem (a b : jsnum) : jsnum :=
  match a, b with
  | Num x, Num y =>
      if Req_dec_T y 0 then NaN else Num (x - y * IZR (Rtrunc (x / y)))
  | Num x, (PosInf | NegInf) => Num x
  | _, _ => NaN
  end.

(** [Math.min] and [Math.max]: NaN if either argument is NaN. *)
Definition Math_min (a b : jsnum) : jsnum :=
  match a, b with
  | NaN, _ | _, NaN => NaN
  | NegInf, _ | _, NegInf => NegInf
  | PosInf, c | c, PosInf => c
  | Num x, Num y => Num (Rmin x y)
  end.

Definition Math_max (a b : jsnum) : jsnum :=
  match a, b with
  | NaN, _ | _, NaN => NaN
  | PosInf, _ | _, PosInf => PosInf
  | NegInf, c | c, NegInf => c
  | Num x, Num y => Num (Rmax x y)
  end.

Definition Math_PI : jsnum := Num PI.

Definition Math_tan (a : jsnum) : jsnum :=
  match a with
  | Num x => Num (tan x)
  | _ => NaN
  end.

Definition Math_atan (a : jsnum) : jsnum :=
  match a with
  | NaN => NaN
  | NegInf => Num (- (PI / 2))
  | Num x => Num (atan x)
  | PosInf => Num (PI / 2)
  end.

(** [a === b] on numbers. *)
Definition strict_eq (a b : jsnum) : bool :=
  match a, b with
  | Num x, Num y => if Req_dec_T x y then true else false
  | PosInf, PosInf | NegInf, NegInf => true
  | _, _ => false
  end.

(** Truthiness of a number: 0 and NaN are falsy. *)
Definition truthy (a : jsnum) : bool :=
  match a with
  | NaN => false
  | Num x => if Req_dec_T x 0 then false else true
  | _ => true
  end.

Declare Scope js_scope.
Delimit Scope js_scope with js.
Bind Scope js_scope with jsnum.
Infix "+" := add : js_scope.
Infix "-" := sub : js_scope.
Infix "*" := mul : js_scope.
Infix "/" := div : js_scope.
Infix "%%" := rem (at level 40, left associativity) : js_scope.
Notation "- a" := (neg a) : js_scope.
Infix "===" := strict_eq (at level 70, no associativity) : js_scope.

End JsNum.

(* ===================================================================== *)
(** * src/js/Utils.js: field-of-view conversions and camera clamps *)
(* ===================================================================== *)

Module Utils.
Import JsNum.
Local Open Scope js_scope.

(** Projection identifiers as the store spells them. *)
Definition isVrProjection (projection : string) : bool :=
  bool_decide (projection = "vr180"%string) || bool_decide (projection = "vr360"%string).

(** [currentAspect]: client width and height are non-negative integers;
    a zero side falls back to 16/9. *)
Definition currentAspect (cw ch : N) : jsnum :=
  if (negb (cw =? 0)%N && negb (ch =? 0)%N)%bool
  then Num (IZR (Z.of_N cw)) / Num (IZR (Z.of_N ch))
  else Num 16 / Num 9.

Definition vFovDegToHFovDeg (vFovDeg aspect : jsnum) : jsnum :=
  Num 2 * (Num 180 / Math_PI)
  * Math_atan (Math_tan ((Math_PI / Num 180) * (vFovDeg / Num 2)) * aspect).

Definition hFovDegToVFovDeg (hFovDeg aspect : jsnum) : jsnum :=
  Num 2 * (Num 180 / Math_PI)
  * Math_atan (Math_tan ((Math_PI / Num 180) * (hFovDeg / Num 2)) / aspect).

(** The argument object of [clampFov].  A projection FOV that is still
    [null] is written [Num 0]: in every use below ([x - 1.0], [x && ...],
    [x === 180], [(x - y) / 2]) null and 0 behave alike. *)
Record FovArgs : Type := mkFovArgs {
  min : jsnum;
  max : jsnum;
  projVFovDeg : jsnum;
  projHFovDeg : jsnum;
  aspect : jsnum
}.

Definition clampFov (vFov : jsnum) (a : FovArgs) : jsnum :=
  let vMax := Math_min (max a) (projVFovDeg a - Num 1) in
  let clamped := vFov in
  let clamped :=
    if (truthy (projHFovDeg a) && (projHFovDeg a === Num 180))%bool then
      let vFromH :=
        hFovDegToVFovDeg (Math_max (Num 1) (projHFovDeg a - Num 1)) (aspect a) in
      Math_min clamped vFromH
    else clamped in
  Math_max (min a) (Math_min vMax clamped).

Record YawPitchArgs : Type := mkYawPitchArgs {
  yp_projHFovDeg : jsnum;
  yp_projVFovDeg : jsnum;
  currentVFovDeg : jsnum;
  currentHFovDeg : jsnum
}.

Record YawPitch : Type := mkYawPitch {
  yaw : jsnum;
  pitch : jsnum
}.

Definition clampYawPitch (yaw0 pitch0 : jsnum) (a : YawPitchArgs) : YawPitch :=
  let pitchLimit :=
    ((yp_projVFovDeg a - currentVFovDeg a) / Num 2) * (Math_PI / Num 180) in
  let newPitch := Math_max (- pitchLimit) (Math_min pitchLimit pitch0) in
  let newYaw :=
    if yp_projHFovDeg a === Num 180 then
      let yawLimit :=
        ((yp_projHFovDeg a - currentHFovDeg a) / Num 2) * (Math_PI / Num 180) in
      Math_max (- yawLimit) (Math_min yawLimit yaw0)
    else yaw0 %% (Num 2 * Math_PI) in
  {| yaw := newYaw; pitch := newPitch |}.

Definition zoomFromWheel (currentVFov wheelDeltaY sensitivity : jsnum) : jsnum :=
  currentVFov + wheelDeltaY * sensitivity.

Definition dragToYawPitch (yaw0 pitch0 dx dy sensitivity : jsnum) : YawPitch :=
  {| yaw := yaw0 + dx * sensitivity; pitch := pitch0 + dy * sensitivity |}.

End Utils.

(* ===================================================================== *)
(** * JavaScript strings (ASCII) and the detector's numbers *)
(* ===================================================================== *)

(** Strings are sequences of 8-bit code units.  Letter case is converted
    for the ASCII letters only, which is what [toUpperCase] and
    [toLowerCase] do on ASCII text; outside ASCII JavaScript also converts
    other letters (the sharp s becomes SS), and [isAscii] marks the strings
    on which the model and JavaScript agree. *)
Module JsString.
Local Open Scope string_scope.
Local Open Scope bool_scope.

Definition is_lower (c : ascii) : bool :=
  let n := nat_of_ascii c in (97 <=? n)%nat && (n <=? 122)%nat.

Definition is_upper (c : ascii) : bool :=
  let n := nat_of_ascii c in (65 <=? n)%nat && (n <=? 90)%nat.

Definition upper_char (c : ascii) : ascii :=
  if is_lower c then ascii_of_nat (nat_of_ascii c - 32) else c.

Definition lower_char (c : ascii) : ascii :=
  if is_upper c then ascii_of_nat (nat_of_ascii c + 32) else c.

Fixpoint map_string (f : ascii -> ascii) (s : string) : string :=
  match s with
  | EmptyString => EmptyString
  | String c t => String (f c) (map_string f t)
  end.

Definition toUpperCase : string -> string := map_string upper_char.
Definition toLowerCase : string -> string := map_string lower_char.

(** Every code unit is below 128. *)
Fixpoint isAscii (s : string) : bool :=
  match s with
  | EmptyString => true
  | String c t => (nat_of_ascii c <? 128)%nat && isAscii t
  end.

(** [hay.startsWith(needle)]. *)
Fixpoint startsWith (needle hay : string) : bool :=
  match needle, hay with
  | EmptyString, _ => true
  | String _ _, EmptyString => false
  | String a n, String b h => Ascii.eqb a b && startsWith n h
  end.

(** [hay.includes(needle)]. *)
Fixpoint includes (needle hay : string) : bool :=
  startsWith needle hay ||
  match hay with
  | EmptyString => false
  | String _ t => includes needle t
  end.

(** [arr.some(k => hay.includes(k))]. *)
Definition some_included (keys : list string) (hay : string) : bool :=
  existsb (fun k => includes k hay) keys.

(** White space removed by [trim] and skipped by [parseFloat]: tab, line
    feed, vertical tab, form feed, carriage return, space and no-break
    space. *)
Definition is_space (c : ascii) : bool :=
  let n := nat_of_ascii c in
  ((9 <=? n)%nat && (n <=? 13)%nat) || (n =? 32)%nat || (n =? 160)%nat.

Fixpoint trimStart (s : string) : string :=
  match s with
  | String c t => if is_space c then trimStart t else s
  | EmptyString => EmptyString
  end.

Fixpoint trimEnd (s : string) : string :=
  match s with
  | EmptyString => EmptyString
  | String c t =>
      match trimEnd t with
      | EmptyString => if is_space c then EmptyString else String c EmptyString
      | t' => String c t'
      end
  end.

Definition trim (s : string) : string := trimEnd (trimStart s).

(** Split at the first occurrence of [c]: the text before it and the text
    after it. *)
Fixpoint split_at (c : ascii) (s : string) : option (string * string) :=
  match s with
  | EmptyString => None
  | String d t =>
      if Ascii.eqb c d then Some (EmptyString, t)
      else match split_at c t with
           | Some (pre, post) => Some (String d pre, post)
           | None => None
           end
  end.

(** Truthiness of [string | null]: null and the empty string are falsy. *)
Definition truthy (v : option string) : bool :=
  match v with
  | None | Some EmptyString => false
  | Some _ => true
  end.

(** [a || b]. *)
Definition js_or (a b : option string) : option string :=
  if truthy a then a else b.

End JsString.

Module QNum.
Local Open Scope Q_scope.

Inductive qnum : Type :=
| QNaN
| QNegInf
| QNum (q : Q)
| QPosInf.

Definition isFinite (a : qnum) : bool :=
  match a with QNum _ => true | _ => false end.

(** [a / b] with a zero divisor read as +0. *)
Definition qdiv (a b : qnum) : qnum :=
  match a, b with
  | QNaN, _ | _, QNaN => QNaN
  | QNum x, QNum y =>
      if Qeq_bool y 0 then
        (if Qeq_bool x 0 then QNaN
         else if Qle_bool 0 x then QPosInf else QNegInf)
      else QNum (x / y)
  | QNum _, _ => QNum 0
  | i, QNum y =>
      if Qle_bool 0 y then i
      else match i with QPosInf => QNegInf | _ => QPosInf end
  | _, _ => QNaN
  end.

(** [a <= b]; every comparison with NaN is false. *)
Definition qle (a b : qnum) : bool :=
  match a, b with
  | QNaN, _ | _, QNaN => false
  | QNegInf, _ | _, QPosInf => true
  | QNum x, QNum y => Qle_bool x y
  | _, _ => false
  end.

Definition qge (a b : qnum) : bool := qle b a.

(** [a < b]. *)
Definition qlt (a b : qnum) : bool :=
  match a, b with
  | QNaN, _ | _, QNaN => false
  | QNum x, QNum y => negb (Qle_bool y x)
  | QPosInf, _ | _, QNegInf => false
  | _, _ => true
  end.

Definition qgt (a b : qnum) : bool := qlt b a.

Definition of_N (n : N) : qnum := QNum (inject_Z (Z.of_N n)).

End QNum.

(* ===================================================================== *)
(** * JavaScript numbers as binary64 values *)
(* ===================================================================== *)

(** Where a property depends on rounding, overflow or underflow, a number
    is a binary64 value and [+], [*], [/] and the comparisons are the
    IEEE 754 ones. *)

Module Double.
Import Floats.
Local Open Scope float_scope.

(** ** Decimal literals *)

(** [n / d], for [0 <= n] and [0 < d], rounded to the nearest binary64
    value, ties to even: the quotient is cut after at least 64 bits, a
    sticky bit stands for the remainder, and [binary_normalize] rounds. *)
Definition round_ratio (n d : Z) : float :=
  let k := Z.max 0 (64 + Z.log2 d - Z.log2 n) in
  let q := (n * 2 ^ k / d)%Z in
  let sticky := if ((n * 2 ^ k) mod d =? 0)%Z then 0%Z else 1%Z in
  SF2Prim (SpecFloat.binary_normalize prec emax (2 * q + sticky) (- k - 1) false).

(** The Number value of the decimal literal [m]e[e] with [0 <= m], negated
    when [negative].  An exponent beyond 400 gives an infinity (or zero for
    [m = 0]) and one below [-(digits of m + 400)] gives zero, so the
    exponent is cut there before the power of ten is computed. *)
Definition of_decimal (negative : bool) (m e : Z) : float :=
  let e := Z.max (- (Z.log2 m + 401)) (Z.min e 400) in
  let magnitude :=
    if (0 <=? e)%Z then round_ratio (m * 10 ^ e) 1
    else round_ratio m (10 ^ (- e)) in
  if negative then - magnitude else magnitude.

(** A non-negative integer as a Number. *)
Definition of_N (n : N) : float := round_ratio (Z.of_N n) 1.

Definition isFinite (x : float) : bool :=
  negb (is_nan x) && negb (is_infinity x).

Definition Math_PI : float := 0x1.921fb54442d18p+1.

(** ** Math.atan and Math.tan

    ECMAScript leaves the accuracy of the two functions to the engine.
    The definitions below are the routines V8 and SpiderMonkey run
    (fdlibm's s_atan.c, k_tan.c and the first case of e_rem_pio2.c), with
    each test on the high word of the argument written as the comparison
    of magnitudes it stands for. *)

(** The value with the low 32 bits of its significand cleared. *)
Definition clear_low_word (z : float) : float :=
  match Prim2SF z with
  | S754_finite s m e =>
      match (Z.pos m / 2 ^ 32 * 2 ^ 32)%Z with
      | Z.pos m' => SF2Prim (S754_finite s m' e)
      | _ => SF2Prim (S754_zero s)
      end
  | _ => z
  end.

Definition atanhi (id : Z) : float :=
  match id with
  | 0%Z => 0x1.dac670561bb4fp-2
  | 1%Z => 0x1.921fb54442d18p-1
  | 2%Z => 0x1.f730bd281f69bp-1
  | _ => 0x1.921fb54442d18p+0
  end.

Definition atanlo (id : Z) : float :=
  match id with
  | 0%Z => 0x1.a2b7f222f65e2p-56
  | 1%Z => 0x1.1a62633145c07p-55
  | 2%Z => 0x1.007887af0cbbdp-56
  | _ => 0x1.1a62633145c07p-54
  end.

Definition aT (i : Z) : float :=
  match i with
  | 0%Z => 0x1.555555555550dp-2
  | 1%Z => -0x1.999999998ebc4p-3
  | 2%Z => 0x1.24924920083ffp-3
  | 3%Z => -0x1.c71c6fe231671p-4
  | 4%Z => 0x1.745cdc54c206ep-4
  | 5%Z => -0x1.3b0f2af749a6dp-4
  | 6%Z => 0x1.10d66a0d03d51p-4
  | 7%Z => -0x1.dde2d52defd9ap-5
  | 8%Z => 0x1.97b4b24760debp-5
  | 9%Z => -0x1.2b4442c6a6c2fp-5
  | _ => 0x1.0ad3ae322da11p-6
  end.

Definition Math_atan (x : float) : float :=
  if is_nan x then x + x
  else
    let ax := abs x in
    if 0x1p+66 <=? ax then
      (if get_sign x then - atanhi 3 - atanlo 3 else atanhi 3 + atanlo 3)
    else
      let '(id, r) :=
        if ax <? 0x1.cp-2 then ((-1)%Z, x)
        else if ax <? 0x1.3p+0 then
          if ax <? 0x1.6p-1 then (0%Z, (2 * ax - 1) / (2 + ax))
          else (1%Z, (ax - 1) / (ax + 1))
        else if ax <? 0x1.38p+1 then (2%Z, (ax - 1.5) / (1 + 1.5 * ax))
        else (3%Z, -1 / ax) in
      if (id <? 0)%Z && (ax <? 0x1p-29) then x
      else
        let z := r * r in
        let w := z * z in
        let s1 :=
          z * (aT 0 + w * (aT 2 + w * (aT 4 + w * (aT 6 + w * (aT 8
               + w * aT 10))))) in
        let s2 :=
          w * (aT 1 + w * (aT 3 + w * (aT 5 + w * (aT 7 + w * aT 9)))) in
        if (id <? 0)%Z then r - r * (s1 + s2)
        else
          let z := atanhi id - ((r * (s1 + s2) - atanlo id) - r) in
          if get_sign x then - z else z.

Definition T (i : Z) : float :=
  match i with
  | 0%Z => 0x1.5555555555563p-2
  | 1%Z => 0x1.111111110fe7ap-3
  | 2%Z => 0x1.ba1ba1bb341fep-5
  | 3%Z => 0x1.664f48406d637p-6
  | 4%Z => 0x1.226e3e96e8493p-7
  | 5%Z => 0x1.d6d22c9560328p-9
  | 6%Z => 0x1.7dbc8fee08315p-10
  | 7%Z => 0x1.344d8f2f26501p-11
  | 8%Z => 0x1.026f71a8d1068p-12
  | 9%Z => 0x1.47e88a03792a6p-14
  | 10%Z => 0x1.2b80f32f0a7e9p-14
  | 11%Z => -0x1.375cbdb605373p-16
  | _ => 0x1.b2a7074bf7ad4p-16
  end.

Definition pio4 : float := 0x1.921fb54442d18p-1.
Definition pio4lo : float := 0x1.1a62633145c07p-55.

(** [-1 / (x + r)] to full accuracy, for [w = x + r]. *)
Definition minus_reciprocal (x r w : float) : float :=
  let z := clear_low_word w in
  let v := r - (z - x) in
  let a := -1 / w in
  let t := clear_low_word a in
  let s := 1 + t * z in
  t + a * (s + t * v).

(** [__kernel_tan (x, y, iy)]: the tangent of [x + y] for [iy = 1] and
    minus its reciprocal for [iy = -1], for [x] within about pi/4. *)
Definition kernel_tan (x y : float) (iy : Z) : float :=
  let ax := abs x in
  if ax <? 0x1p-28 then
    if is_zero x && (iy =? -1)%Z then 1 / ax
    else if (iy =? 1)%Z then x
    else minus_reciprocal x y (x + y)
  else
    let big := 0x1.59428p-1 <=? ax in
    let '(x1, y1) :=
      if big then
        let '(x0, y0) := if get_sign x then (- x, - y) else (x, y) in
        let z := pio4 - x0 in
        let w := pio4lo - y0 in
        (z + w, 0)
      else (x, y) in
    let z := x1 * x1 in
    let w := z * z in
    let r :=
      T 1 + w * (T 3 + w * (T 5 + w * (T 7 + w * (T 9 + w * T 11)))) in
    let v :=
      z * (T 2 + w * (T 4 + w * (T 6 + w * (T 8 + w * (T 10
           + w * T 12))))) in
    let s := z * x1 in
    let r := y1 + z * (s * (r + v) + y1) in
    let r := r + T 0 * s in
    let w := x1 + r in
    if big then
      let v := if (iy =? 1)%Z then 1 else -1 in
      (if get_sign x then -1 else 1)
      * (v - 2 * (x1 - (w * w / (w + v) - r)))
    else if (iy =? 1)%Z then w
    else minus_reciprocal x1 r w.

Definition pio2_1 : float := 0x1.921fb544p+0.
Definition pio2_1t : float := 0x1.0b4611a626331p-34.
Definition pio2_2 : float := 0x1.0b4611a6p-34.
Definition pio2_2t : float := 0x1.3198a2e037073p-69.

(** [Math.tan] for arguments below 3 pi / 4 in magnitude, where the
    reduction is one subtraction of pi/2 (all a half field of view of up
    to 135 degrees needs); beyond, the model gives no answer. *)
Definition Math_tan (x : float) : option float :=
  let ax := abs x in
  if is_nan x || is_infinity x then Some (x - x)
  else if ax <? 0x1.921fcp-1 then Some (kernel_tan x 0 1)
  else if ax <? 0x1.2d97cp+1 then
    let near := (0x1.921fbp+0 <=? ax) && (ax <? 0x1.921fcp+0) in
    if get_sign x then
      let z := x + pio2_1 in
      if near then
        let z := z + pio2_2 in
        let y0 := z + pio2_2t in
        Some (kernel_tan y0 ((z - y0) + pio2_2t) (-1))
      else
        let y0 := z + pio2_1t in
        Some (kernel_tan y0 ((z - y0) + pio2_1t) (-1))
    else
      let z := x - pio2_1 in
      if near then
        let z := z - pio2_2 in
        let y0 := z - pio2_2t in
        Some (kernel_tan y0 ((z - y0) - pio2_2t) (-1))
      else
        let y0 := z - pio2_1t in
        Some (kernel_tan y0 ((z - y0) - pio2_1t) (-1))
  else None.

End Double.

(* ===================================================================== *)
(** * src/js/Utils.js: the field-of-view conversions on binary64 values *)
(* ===================================================================== *)

Module UtilsDouble.
Import Floats ListNotations.
Local Open Scope float_scope.

(** [currentAspect] of a canvas, the 16/9 fallback included. *)
Definition currentAspect (cw ch : N) : float :=
  if (negb (cw =? 0)%N && negb (ch =? 0)%N)%bool
  then Double.of_N cw / Double.of_N ch
  else 16 / 9.

Definition vFovDegToHFovDeg (vFovDeg aspect : float) : option float :=
  match Double.Math_tan ((Double.Math_PI / 180) * (vFovDeg / 2)) with
  | Some t => Some (2 * (180 / Double.Math_PI) * Double.Math_atan (t * aspect))
  | None => None
  end.

Definition hFovDegToVFovDeg (hFovDeg aspect : float) : option float :=
  match Double.Math_tan ((Double.Math_PI / 180) * (hFovDeg / 2)) with
  | Some t => Some (2 * (180 / Double.Math_PI) * Double.Math_atan (t / aspect))
  | None => None
  end.


(** The round trip horizontal, vertical, horizontal. *)
Definition horizontal_round_trip (h aspect : float) : option float :=
  match hFovDegToVFovDeg h aspect with
  | Some v => vFovDegToHFovDeg v aspect
  | None => None
  end.

(** [|x - y| <= tolerance]; false when either is NaN. *)
Definition within (tolerance x y : float) : bool :=
  abs (x - y) <=? tolerance.

(** The inputs the round trips are run on: the fields of view from 0.5 to
    179.5 degrees in steps of half a degree, and the aspect ratios of
    common canvas sizes, landscape and portrait, with the empty canvas
    (the 16/9 fallback). *)
Definition half_degrees (k : N) : float := Double.of_N k / 2.

Definition canvas_sizes : list (N * N) :=
  [ (1280, 720); (1920, 1080); (2560, 1440); (3840, 2160); (1366, 768);
    (1024, 768); (800, 600); (1600, 1200); (1280, 800); (1920, 1200);
    (2560, 1080); (3440, 1440); (5120, 1440); (1080, 1080); (720, 1280);
    (1080, 1920); (768, 1024); (1440, 2560); (360, 640); (0, 0) ]%N.

Definition N_range (lo hi : N) : list N :=
  List.map N.of_nat (List.seq (N.to_nat lo) (N.to_nat hi + 1 - N.to_nat lo)).

(** 1e-12 degrees. *)
Definition tolerance : float := Double.of_decimal false 1 (-12).

(** [trip] returns its argument within [tolerance] on every listed
    input. *)
Definition round_trip_holds (trip : float -> float -> option float) : bool :=
  forallb
    (fun v =>
       forallb
         (fun a =>
            match trip v a with
            | Some r => within tolerance r v
            | None => false
            end)
         (List.map (fun s => currentAspect (fst s) (snd s)) canvas_sizes))
    (List.map half_degrees (N_range 1 359)).

End UtilsDouble.

(* ===================================================================== *)
(** * src/js/Detector.js *)
(* ===================================================================== *)

Module Detector.
Import JsString QNum.
Local Open Scope string_scope.
Local Open Scope bool_scope.

(** ** Detection methods and keyword tables *)

Definition METHOD_METADATA : string := "metadata".
Definition METHOD_FILENAME : string := "filename".
Definition METHOD_RESOLUTION : string := "resolution".
Definition METHOD_DEFAULT : string := "default".

Definition SBS_KEYWORDS : list string :=
  [ "SBS"; "HSBS"; "FSBS"; "Half-SBS"; "Side-by-Side";
    "3D.SBS"; "3D-SBS"; "sbs3d"; "SBS3D" ].

Definition OU_KEYWORDS : list string :=
  [ "OU"; "HOU"; "FOU"; "Half-OU"; "Over-Under";
    "TAB"; "HTAB"; "Top-Bottom"; "TopBottom"; "T-B" ].

Record Result : Type := mkResult {
  value : string;
  method : string
}.

(** The part of the store snapshot the layout and resolution steps read. *)
Record Track : Type := mkTrack {
  stereoMode : option string
}.

Record Video : Type := mkVideo {
  videoTracks : option (list Track);
  videoWidth : N;
  videoHeight : N
}.

Record Snapshot : Type := mkSnapshot {
  video : Video;
  name : string;
  layout : string
}.

(** ** Step 1: layout *)

(** [track.stereoMode?.toLowerCase() || ""]. *)
Definition track_mode (t : Track) : string :=
  match stereoMode t with
  | Some m => toLowerCase m
  | None => ""
  end.

(** The metadata loop: the first track whose mode names a layout decides. *)
Fixpoint layout_from_tracks (tracks : list Track) : option Result :=
  match tracks with
  | [] => None
  | t :: rest =>
      let mode := track_mode t in
      if includes "left_right" mode || includes "right_left" mode then
        Some {| value := "sbs"; method := METHOD_METADATA |}
      else if includes "top_bottom" mode || includes "bottom_top" mode then
        Some {| value := "ou"; method := METHOD_METADATA |}
      else layout_from_tracks rest
  end.

Definition aspectRatio (v : Video) : qnum :=
  qdiv (of_N (videoWidth v)) (of_N (videoHeight v)).

(** [s.video.videoTracks || []]. *)
Definition tracks_of (s : Snapshot) : list Track :=
  match videoTracks (video s) with Some l => l | None => [] end.

Definition detectLayout (s : Snapshot) : Result :=
  let tracks := tracks_of s in
  match layout_from_tracks tracks with
  | Some r => r
  | None =>
      let nameUpper := toUpperCase (name s) in
      if some_included SBS_KEYWORDS nameUpper then
        {| value := "sbs"; method := METHOD_FILENAME |}
      else if some_included OU_KEYWORDS nameUpper then
        {| value := "ou"; method := METHOD_FILENAME |}
      else
        let a := aspectRatio (video s) in
        if qge a (QNum (28 # 10)) then
          {| value := "sbs"; method := METHOD_RESOLUTION |}
        else if qle a (QNum (112 # 100)) then
          {| value := "ou"; method := METHOD_RESOLUTION |}
        else {| value := layout s; method := METHOD_DEFAULT |}
  end.

(** ** Step 2: resolution *)

Definition detectResolution (s : Snapshot) (layout0 : string) : Result :=
  let a := aspectRatio (video s) in
  if String.eqb layout0 "sbs" then
    let isFull := qge a (QNum (33 # 10)) in
    {| value := if isFull then "full" else "half"; method := METHOD_RESOLUTION |}
  else
    let isFull := qlt a (QNum 1) in
    {| value := if isFull then "full" else "half"; method := METHOD_RESOLUTION |}.

(** ** XMP classification *)

(** [parseFloat]: the longest decimal-literal prefix after leading white
    space, rounded to the nearest binary64 value (an infinity beyond the
    range, a zero below it). *)
Definition digit_val (c : ascii) : option Z :=
  let n := nat_of_ascii c in
  if (48 <=? n)%nat && (n <=? 57)%nat then Some (Z.of_nat (n - 48)) else None.

Fixpoint digits (s : string) (acc : Z) (count : nat) : Z * nat * string :=
  match s with
  | String c t =>
      match digit_val c with
      | Some d => digits t (10 * acc + d)%Z (S count)
      | None => (acc, count, s)
      end
  | EmptyString => (acc, count, s)
  end.

Definition read_sign (s : string) : bool * string :=
  match s with
  | String "-" t => (true, t)
  | String "+" t => (false, t)
  | _ => (false, s)
  end.

(** The optional exponent part; a malformed one is not consumed. *)
Definition read_exponent (s : string) : Z :=
  match s with
  | String c t =>
      if Ascii.eqb c "e" || Ascii.eqb c "E" then
        let '(negative, t') := read_sign t in
        let '(e, n, _) := digits t' 0%Z 0%nat in
        match n with
        | O => 0%Z
        | S _ => if negative then (- e)%Z else e
        end
      else 0%Z
  | EmptyString => 0%Z
  end.

Definition parseFloat (s : string) : PrimFloat.float :=
  let '(negative, s1) := read_sign (trimStart s) in
  if startsWith "Infinity" s1 then
    (if negative then PrimFloat.neg_infinity else PrimFloat.infinity)
  else
    let '(ip, ni, r1) := digits s1 0%Z 0%nat in
    match r1 with
    | String "." r2 =>
        let '(m, nf, r3) := digits r2 ip 0%nat in
        match (ni + nf)%nat with
        | O => PrimFloat.nan
        | S _ => Double.of_decimal negative m (read_exponent r3 - Z.of_nat nf)
        end
    | _ =>
        match ni with
        | O => PrimFloat.nan
        | S _ => Double.of_decimal negative ip (read_exponent r1)
        end
    end.

Definition includes_ci (needle hay : string) : bool :=
  includes (toUpperCase needle) (toUpperCase hay).

(** The expression [<[^>]*TAG[^>]*>([^<]+)<\/[^>]*TAG[^>]*>] (flag i),
    tried just after a [<].  Neither [[^>]*] nor the tag can cross a [>],
    so the opening tag ends at the first [>]; the group runs up to the
    next [<], which must be followed by [/] and a closing tag ending at
    the next [>]. *)
Definition match_element (tag rest : string) : option string :=
  match split_at ">" rest with
  | Some (opening, after) =>
      if includes_ci tag opening then
        match split_at "<" after with
        | Some (String c cap, String "/" after') =>
            match split_at ">" after' with
            | Some (closing, _) =>
                if includes_ci tag closing then Some (String c cap) else None
            | None => None
            end
        | _ => None
        end
      else None
  | None => None
  end.

(** Leftmost match of the element expression. *)
Fixpoint match_element_from (tag s : string) : option string :=
  match s with
  | EmptyString => None
  | String c rest =>
      match (if Ascii.eqb c "<" then match_element tag rest else None) with
      | Some cap => Some cap
      | None => match_element_from tag rest
      end
  end.

Definition get (xmp tag : string) : option string :=
  option_map trim (match_element_from tag xmp).

Definition dquote : ascii := "034"%char.

(** If [s] starts with [p] up to letter case, what follows. *)
Fixpoint strip_prefix_ci (p s : string) : option string :=
  match p, s with
  | EmptyString, _ => Some s
  | String _ _, EmptyString => None
  | String a p', String b s' =>
      if Ascii.eqb (upper_char a) (upper_char b) then strip_prefix_ci p' s'
      else None
  end.

(** The attribute expression (flag i) tried at the head of [s]: the
    attribute name, an equals sign, a double quote, one or more characters
    other than a double quote (the group), and a double quote. *)
Definition match_attr (attr s : string) : option string :=
  match strip_prefix_ci attr s with
  | Some (String "=" (String q rest)) =>
      if Ascii.eqb q dquote then
        match split_at dquote rest with
        | Some (String c v, _) => Some (String c v)
        | _ => None
        end
      else None
  | _ => None
  end.

Fixpoint match_attr_from (attr s : string) : option string :=
  match match_attr attr s with
  | Some v => Some v
  | None =>
      match s with
      | EmptyString => None
      | String _ rest => match_attr_from attr rest
      end
  end.

Definition getAttr (xmp attr : string) : option string :=
  option_map trim (match_attr_from attr xmp).

(** [toNum = v => (v ? parseFloat(v) : NaN)]. *)
Definition toNum (v : option string) : PrimFloat.float :=
  match v with
  | Some (String c t) => parseFloat (String c t)
  | _ => PrimFloat.nan
  end.

(** The four places a field is looked up in, in the order given. *)
Definition lookup_ProjectionType (xmp : string) : option string :=
  js_or (js_or (js_or (get xmp "GSpherical:ProjectionType")
                      (get xmp "GPano:ProjectionType"))
               (getAttr xmp "GPano:ProjectionType"))
        (getAttr xmp "GSpherical:ProjectionType").

Definition lookup_pano (xmp field : string) : option string :=
  js_or (js_or (js_or (get xmp ("GPano:" ++ field))
                      (get xmp ("GSpherical:" ++ field)))
               (getAttr xmp ("GPano:" ++ field)))
        (getAttr xmp ("GSpherical:" ++ field)).

(** The literals 0.49, 0.51, 0.95 and 1.05 of the source. *)
Definition hundredths (n : Z) : PrimFloat.float :=
  Double.of_decimal false n (-2).

Definition _classifyFromXmp (xmp : string) : option string :=
  let proj := lookup_ProjectionType xmp in
  if negb (truthy proj) then None
  else
    let proj := toLowerCase (match proj with Some p => p | None => "" end) in
    if negb (String.eqb proj "equirectangular") then None
    else
      let fullW := toNum (lookup_pano xmp "FullPanoWidthPixels") in
      let fullH := toNum (lookup_pano xmp "FullPanoHeightPixels") in
      let cropW := toNum (lookup_pano xmp "CroppedAreaImageWidthPixels") in
      let cropH := toNum (lookup_pano xmp "CroppedAreaImageHeightPixels") in
      if Double.isFinite fullW && Double.isFinite fullH
         && Double.isFinite cropW && Double.isFinite cropH
         && PrimFloat.ltb PrimFloat.zero fullW && PrimFloat.ltb PrimFloat.zero fullH
      then
        let wRatio := PrimFloat.div cropW fullW in
        let hRatio := PrimFloat.div cropH fullH in
        if PrimFloat.leb (hundredths 49) wRatio
           && PrimFloat.leb wRatio (hundredths 51)
           && PrimFloat.leb (hundredths 95) hRatio
           && PrimFloat.leb hRatio (hundredths 105)
        then Some "vr180"
        else Some "vr360"
      else Some "vr360".

(** ** Sample packets *)

(** A packet in element form: an equirectangular frame whose cropped area
    is [cw] by [ch] inside a full panorama of [fw] by [fh]. *)
Definition xmp_packet (fw fh cw ch : string) : string :=
  "<x:xmpmeta><rdf:Description>"
  ++ "<GSpherical:ProjectionType>equirectangular</GSpherical:ProjectionType>"
  ++ "<GPano:FullPanoWidthPixels>" ++ fw ++ "</GPano:FullPanoWidthPixels>"
  ++ "<GPano:FullPanoHeightPixels>" ++ fh ++ "</GPano:FullPanoHeightPixels>"
  ++ "<GPano:CroppedAreaImageWidthPixels>" ++ cw
  ++ "</GPano:CroppedAreaImageWidthPixels>"
  ++ "<GPano:CroppedAreaImageHeightPixels>" ++ ch
  ++ "</GPano:CroppedAreaImageHeightPixels>"
  ++ "</rdf:Description></x:xmpmeta>".

(** The same fields in attribute form, with mixed letter case. *)
Definition xmp_packet_attr (fw fh cw ch : string) : string :=
  let q := String dquote "" in
  "<x:xmpmeta><rdf:Description"
  ++ " GPano:ProjectionType=" ++ q ++ "Equirectangular" ++ q
  ++ " gpano:fullpanowidthpixels=" ++ q ++ fw ++ q
  ++ " GPano:FullPanoHeightPixels=" ++ q ++ fh ++ q
  ++ " GPano:CroppedAreaImageWidthPixels=" ++ q ++ cw ++ q
  ++ " GPano:CroppedAreaImageHeightPixels=" ++ q ++ ch ++ q
  ++ "/></x:xmpmeta>".


(** ** Packets as lists of fields

    The packets the classification is characterised on: a description
    element that carries some fields as attributes, each after the white
    space [space], and the others as child elements, each after the white
    space [indent], which also precedes the closing tag. *)

Record Field : Type := mkField {
  field_name : string;
  field_text : string
}.

Definition render_attribute (space : string) (f : Field) : string :=
  space ++ field_name f
    ++ String "=" (String dquote (field_text f ++ String dquote "")).

Definition render_element (indent : string) (f : Field) : string :=
  indent ++ String "<" (field_name f
    ++ String ">" (field_text f
    ++ String "<" (String "/" (field_name f ++ String ">" "")))).

Fixpoint render_all (render : Field -> string) (fields : list Field) : string :=
  match fields with
  | [] => ""
  | f :: rest => render f ++ render_all render rest
  end.

Definition xmp_document (space indent : string)
    (attributes elements : list Field) : string :=
  "<x:xmpmeta><rdf:Description"
  ++ render_all (render_attribute space) attributes
  ++ String ">" (render_all (render_element indent) elements
  ++ indent ++ "</rdf:Description></x:xmpmeta>").

















End Detector.

(* ===================================================================== *)
(** * src/js/Detector.js: the EBML reader inside [_readMkvProjectionType] *)
(* ===================================================================== *)

Module Mkv.
Local Open Scope Z_scope.
Local Open Scope bool_scope.

(** Bitwise operators work on signed 32-bit integers. *)
Definition toInt32 (z : Z) : Z := (z + 2 ^ 31) mod 2 ^ 32 - 2 ^ 31.

(** A call either returns or throws (a [RangeError] of the [DataView]). *)
Inductive outcome (A : Type) : Type :=
| Returned (a : A)
| Thrown.
Arguments Returned {A} a.
Arguments Thrown {A}.

Definition byteLength (dv : list Byte.byte) : Z := Z.of_nat (length dv).

Definition byte_value (b : Byte.byte) : Z := Z.of_N (Byte.to_N b).

(** [dv.getUint8(pos)]; [None] stands for the [RangeError]. *)
Definition getUint8 (dv : list Byte.byte) (pos : Z) : option Z :=
  if (0 <=? pos) && (pos <? byteLength dv) then
    option_map byte_value (nth_error dv (Z.to_nat pos))
  else None.

Record Vint : Type := mkVint {
  value : Z;
  width : Z
}.

(** [while (width <= 8 && (first & mask) === 0) { mask >>= 1; width++; }]
    The loop body runs at most eight times from [width = 1]. *)
Fixpoint scan_marker (fuel : nat) (first mask width : Z) : Z * Z :=
  match fuel with
  | O => (mask, width)
  | S fuel' =>
      if (width <=? 8) && (Z.land first mask =? 0) then
        scan_marker fuel' first (Z.shiftr mask 1) (width + 1)
      else (mask, width)
  end.

(** [for (let i = 1; i < width; i++) value = (value << 8) | dv.getUint8(pos + i)],
    with [n] iterations left. *)
Fixpoint read_tail (dv : list Byte.byte) (pos : Z) (n : nat) (i : Z) (value : Z)
  : option Z :=
  match n with
  | O => Some value
  | S n' =>
      match getUint8 dv (pos + i) with
      | Some b =>
          read_tail dv pos n' (i + 1)
            (toInt32 (Z.lor (toInt32 (Z.shiftl value 8)) b))
      | None => None
      end
  end.

Definition readVint (dv : list Byte.byte) (pos : Z) (forId : bool)
  : outcome (option Vint) :=
  let len := byteLength dv in
  if pos >=? len then Returned None
  else
    match getUint8 dv pos with
    | None => Thrown
    | Some first =>
        let '(mask, width) := scan_marker 8 first 128 1 in
        if (width >? 8) || (pos + width >? len) then Returned None
        else
          let value0 := if forId then first else Z.land first (Z.lnot mask) in
          match read_tail dv pos (Z.to_nat (width - 1)) 1 value0 with
          | Some v => Returned (Some {| value := v; width := width |})
          | None => Thrown
          end
    end.

(** The unsigned big-endian integer written by a list of bytes, continuing
    from [acc]. *)
Definition big_endian_from (acc : Z) (bytes : list Z) : Z :=
  fold_left (fun a b => a * 256 + b) bytes acc.

Definition big_endian (bytes : list Z) : Z := big_endian_from 0 bytes.

(** The leading byte as it enters the value: whole for an element ID,
    without its marker bit for a size. *)
Definition leading (first width0 : Z) (forId : bool) : Z :=
  if forId then first else first - 2 ^ (8 - width0).

(** The bytes that follow the leading byte of an integer of the given
    width at [pos]. *)
Definition continuation (dv : list Byte.byte) (pos width0 : Z) : list Z :=
  map byte_value (firstn (Z.to_nat (width0 - 1)) (skipn (Z.to_nat (pos + 1)) dv)).

(** The size field of a Matroska segment of 2 GiB: an eight-byte integer
    whose data bits spell 0x80000000. *)
Definition segment_size_2GiB : list Byte.byte :=
  [ Byte.x01; Byte.x00; Byte.x00; Byte.x00; Byte.x80; Byte.x00; Byte.x00; Byte.x00 ].

End Mkv.

(* ===================================================================== *)
(** * src/js/Shaders.js: the colour stage of the anaglyph fragment shaders *)
(* ===================================================================== *)

Module Shaders.
Local Open Scope R_scope.

(** GLSL floats are read as real numbers. *)
Record vec3 : Type := mkVec3 { r : R; g : R; b : R }.
Record vec4 : Type := mkVec4 { rgb : vec3; alpha : R }.

(** A [mat3] is given column by column, as its constructor takes them. *)
Record mat3 : Type := mkMat3 { col0 : vec3; col1 : vec3; col2 : vec3 }.

(** ** Built-in functions *)

Definition clamp (x lo hi : R) : R := Rmin (Rmax x lo) hi.
Definition mix (x y a : R) : R := x * (1 - a) + y * a.
Definition step (edge x : R) : R := if Rlt_dec x edge then 0 else 1.

(** [pow(x, y)] for [x >= 0] and [y > 0]. *)
Definition pow (x y : R) : R := if Req_dec_T x 0 then 0 else Rpower x y.

Definition map3 (f : R -> R) (v : vec3) : vec3 :=
  {| r := f (r v); g := f (g v); b := f (b v) |}.

Definition clamp3 (v : vec3) (lo hi : R) : vec3 :=
  map3 (fun x => clamp x lo hi) v.

Definition add3 (u v : vec3) : vec3 :=
  {| r := r u + r v; g := g u + g v; b := b u + b v |}.

Definition scale3 (v : vec3) (k : R) : vec3 := map3 (fun x => x * k) v.

(** Matrix times column vector. *)
Definition mul_mat3 (m : mat3) (v : vec3) : vec3 :=
  add3 (add3 (scale3 (col0 m) (r v)) (scale3 (col1 m) (g v)))
       (scale3 (col2 m) (b v)).

(** ** The calibrated red/cyan shader ([ANAGLYPH_FRAGMENT_SHADER]) *)

Record Calibration : Type := mkCalibration {
  uAntiRed : R;
  uAntiGreen : R;
  uAntiBlue : R;
  uGreenBalance : R
}.

Definition LUMA_R : R := 2126 / 10000.
Definition LUMA_G : R := 7152 / 10000.
Definition LUMA_B : R := 722 / 10000.

(** From the two sampled texels to [gl_FragColor]. *)
Definition anaglyph_color (u : Calibration) (leftRGB rightRGB : vec3) (fade : R)
  : vec4 :=
  let antiRed := clamp (uAntiRed u) 0 1 * (5 / 10) in
  let antiGreen := clamp (uAntiGreen u) 0 1 * (5 / 10) in
  let antiBlue := clamp (uAntiBlue u) 0 1 * (5 / 10) in
  let greenBalance := clamp (uGreenBalance u) 0 1 * (5 / 10) in
  let leftGreenShare := g leftRGB * greenBalance in
  let rightGreenShare := g rightRGB * (1 - greenBalance) in
  let redChannel := clamp (r leftRGB + leftGreenShare) 0 1 in
  let preservedRed := 1 - antiRed in
  let preservedGreen := 1 - antiGreen in
  let preservedBlue := 1 - antiBlue in
  let gainRed := 1 / Rmax (1 / 100) (1 - antiRed * LUMA_R) in
  let gainGreen := 1 / Rmax (1 / 100) (1 - antiGreen * LUMA_G) in
  let gainBlue := 1 / Rmax (1 / 100) (1 - antiBlue * LUMA_B) in
  let color :=
    {| r := redChannel * preservedRed * gainRed;
       g := rightGreenShare * preservedGreen * gainGreen;
       b := b rightRGB * preservedBlue * gainBlue |} in
  let color := clamp3 color 0 1 in
  {| rgb := scale3 color fade; alpha := 1 |}.

(** ** The Dubois shader of the earlier shader file *)

Definition sRGBToLinear1 (c : R) : R :=
  let lo := c / (1292 / 100) in
  let hi := pow ((c + 55 / 1000) / (1055 / 1000)) (24 / 10) in
  let cond := step (4045 / 100000) c in
  mix lo hi cond.

Definition linearToSRGB1 (c : R) : R :=
  let c := Rmax c 0 in
  let lo := (1292 / 100) * c in
  let hi := (1055 / 1000) * pow c (1 / (24 / 10)) - 55 / 1000 in
  let cond := step (31308 / 10000000) c in
  clamp (mix lo hi cond) 0 1.

Definition sRGBToLinear : vec3 -> vec3 := map3 sRGBToLinear1.
Definition linearToSRGB : vec3 -> vec3 := map3 linearToSRGB1.

Definition ML : mat3 :=
  {| col0 := {| r := 456100 / 1000000; g := - (400822 / 10000000);
                b := - (152161 / 10000000) |};
     col1 := {| r := 500484 / 1000000; g := - (378246 / 10000000);
                b := - (205971 / 10000000) |};
     col2 := {| r := 176381 / 1000000; g := - (157589 / 10000000);
                b := - (546856 / 100000000) |} |}.

Definition MR : mat3 :=
  {| col0 := {| r := - (434706 / 10000000); g := 378476 / 1000000;
                b := - (721527 / 10000000) |};
     col1 := {| r := - (879388 / 10000000); g := 733640 / 1000000;
                b := - (1129610 / 10000000) |};
     col2 := {| r := - (155529 / 100000000); g := - (184503 / 10000000);
                b := 12264000 / 10000000 |} |}.

(** From the two sampled texels to [gl_FragColor]. *)
Definition dubois_color (leftTexel rightTexel : vec3) : vec4 :=
  let leftRGB := sRGBToLinear leftTexel in
  let rightRGB := sRGBToLinear rightTexel in
  let colorLinear :=
    clamp3 (add3 (mul_mat3 ML leftRGB) (mul_mat3 MR rightRGB)) 0 1 in
  let colorSRGB := linearToSRGB colorLinear in
  {| rgb := colorSRGB; alpha := 1 |}.

(** ** Inputs used below *)

(** Every leak-suppression value 0 and greenBalance 0.5. *)
Definition neutral : Calibration :=
  {| uAntiRed := 0; uAntiGreen := 0; uAntiBlue := 0; uGreenBalance := 1 / 2 |}.

Definition black : vec3 := {| r := 0; g := 0; b := 0 |}.
Definition pure_red : vec3 := {| r := 1; g := 0; b := 0 |}.

End Shaders.

(* ===================================================================== *)
(** * src/js/Render.js: materials, uniforms and pointer/wheel handlers *)
(* ===================================================================== *)

Module Render.
Import JsNum.
Local Open Scope string_scope.
Local Open Scope bool_scope.

(** ** SETTINGS *)

Definition VR_VFOV_DEG : jsnum := Num 100.
Definition VR_VFOV_MIN_DEG : jsnum := Num 20.
Definition VR_VFOV_MAX_DEG : jsnum := Num 179.
Definition DRAG_SENSITIVITY : jsnum := Num (5 / 1000).
Definition ZOOM_SENSITIVITY : jsnum := Num (2 / 100).
Definition VR180_EDGE_FEATHER_U : jsnum := Num (5 / 100).
Definition VR180_EDGE_FEATHER_V : jsnum := Num (5 / 100).

(** ** The store snapshot handed to the renderer *)

Record State : Type := mkState {
  projection : string;
  view : string;
  layout : string;
  resolution : string;
  eye : string;
  antiR : jsnum;
  antiG : jsnum;
  antiB : jsnum;
  balance : jsnum;
  convergence : jsnum;
  depthCompression : jsnum
}.

(** ** Materials *)

Inductive uvalue : Type :=
| UTexture                      (* this.videoTexture *)
| UFloat (x : jsnum)
| UInt (n : Z)
| UBool (v : bool)
| UVec2 (x y : jsnum).

Inductive Side : Type := FrontSide | BackSide | DoubleSide.

Inductive Shader : Type :=
| EQUIRECT_VERTEX_SHADER
| EQUIRECT_FRAGMENT_SHADER
| ANAGLYPH_FRAGMENT_SHADER
| FLAT_VERTEX_SHADER
| ANAGLYPH_FLAT_FRAGMENT_SHADER
| WATCH_FLAT_FRAGMENT_SHADER.

(** A material object.  [object_id] is its identity: two materials are
    the same object exactly when their ids agree.  A [MeshBasicMaterial]
    has neither [uniforms] nor shaders. *)
Record Material : Type := mkMaterial {
  object_id : nat;
  uniforms : option (gmap string uvalue);
  shaders : option (Shader * Shader);
  userData_type : option string;
  side : Side;
  toneMapped : bool
}.

Definition with_uniforms (m : Material) (u : gmap string uvalue) : Material :=
  {| object_id := object_id m; uniforms := Some u; shaders := shaders m;
     userData_type := userData_type m; side := side m;
     toneMapped := toneMapped m |}.

Definition with_type (m : Material) (t : string) : Material :=
  {| object_id := object_id m; uniforms := uniforms m; shaders := shaders m;
     userData_type := Some t; side := side m; toneMapped := toneMapped m |}.

Definition with_side (m : Material) (sd : Side) : Material :=
  {| object_id := object_id m; uniforms := uniforms m; shaders := shaders m;
     userData_type := userData_type m; side := sd;
     toneMapped := toneMapped m |}.

Definition layout_selector (s : State) : uvalue :=
  UInt (if String.eqb (layout s) "sbs" then 0 else 1).

Definition hFovRad (s : State) : jsnum :=
  if String.eqb (projection s) "vr180" then Math_PI else (Math_PI * Num 2)%js.

Definition MeshBasicMaterial (id : nat) (sd : Side) : Material :=
  {| object_id := id; uniforms := None; shaders := None;
     userData_type := None; side := sd; toneMapped := true |}.

Definition _createEquirectMaterial (id : nat) (s : State) : Material :=
  {| object_id := id;
     uniforms := Some (list_to_map
       [ ("map", UTexture);
         ("u_h_fov_rad", UFloat (hFovRad s));
         ("u_v_fov_rad", UFloat Math_PI);
         ("uLayout", layout_selector s);
         ("uIsWatchView", UBool (String.eqb (view s) "watch"));
         ("uHalfRes", UBool (String.eqb (resolution s) "half"));
         ("uLeftEye", UBool (negb (String.eqb (eye s) "right")));
         ("uEdgeFeather", UVec2 (Num 0) (Num 0)) ]);
     shaders := Some (EQUIRECT_VERTEX_SHADER, EQUIRECT_FRAGMENT_SHADER);
     userData_type := None; side := FrontSide; toneMapped := true |}.

Definition _createAnaglyphVrMaterial (id : nat) (s : State) : Material :=
  {| object_id := id;
     uniforms := Some (list_to_map
       [ ("map", UTexture);
         ("u_h_fov_rad", UFloat (hFovRad s));
         ("u_v_fov_rad", UFloat Math_PI);
         ("uLayout", layout_selector s);
         ("uSwapEyes", UInt 0);
         ("uHalfRes", UBool (String.eqb (resolution s) "half"));
         ("uEdgeFeather", UVec2 (Num 0) (Num 0)) ]);
     shaders := Some (EQUIRECT_VERTEX_SHADER, ANAGLYPH_FRAGMENT_SHADER);
     userData_type := None; side := FrontSide; toneMapped := false |}.

Definition _createAnaglyphFlatMaterial (id : nat) (s : State) : Material :=
  {| object_id := id;
     uniforms := Some (list_to_map
       [ ("map", UTexture);
         ("uLayout", layout_selector s);
         ("uSwapEyes", UInt 0) ]);
     shaders := Some (FLAT_VERTEX_SHADER, ANAGLYPH_FLAT_FRAGMENT_SHADER);
     userData_type := None; side := FrontSide; toneMapped := false |}.

Definition _createWatchFlatMaterial (id : nat) (s : State) : Material :=
  {| object_id := id;
     uniforms := Some (list_to_map
       [ ("map", UTexture);
         ("uLayout", layout_selector s);
         ("uLeftEye", UBool (negb (String.eqb (eye s) "right"))) ]);
     shaders := Some (FLAT_VERTEX_SHADER, WATCH_FLAT_FRAGMENT_SHADER);
     userData_type := None; side := FrontSide; toneMapped := true |}.

Definition _edgeFeatherForProjection (projection0 : string) : jsnum * jsnum :=
  if String.eqb projection0 "vr180"
  then (VR180_EDGE_FEATHER_U, VR180_EDGE_FEATHER_V)
  else (Num 0, Num 0).

(** [if (u.key) { u.key.value = v; }]: only an entry that exists is
    written. *)
Definition set_present (key : string) (v : uvalue) (u : gmap string uvalue)
  : gmap string uvalue :=
  match u !! key with
  | Some _ => <[ key := v ]> u
  | None => u
  end.

Definition update_uniforms (s : State) (u : gmap string uvalue)
  : gmap string uvalue :=
  let u := set_present "map" UTexture u in
  let u := set_present "u_h_fov_rad" (UFloat (hFovRad s)) u in
  let u := set_present "u_v_fov_rad" (UFloat Math_PI) u in
  let u := set_present "uLayout" (layout_selector s) u in
  let u := set_present "uHalfRes" (UBool (String.eqb (resolution s) "half")) u in
  let u := set_present "uIsWatchView" (UBool (String.eqb (view s) "watch")) u in
  let u := set_present "uLeftEye" (UBool (negb (String.eqb (eye s) "right"))) u in
  let feather := _edgeFeatherForProjection (projection s) in
  set_present "uEdgeFeather" (UVec2 (fst feather) (snd feather)) u.

Definition _updateMaterialUniforms (mat : Material) (s : State) : Material :=
  match uniforms mat with
  | None => mat
  | Some u => with_uniforms mat (update_uniforms s u)
  end.

(** ** The renderer object *)

Inductive Camera : Type := OrthographicCamera | PerspectiveCamera.

Definition isPerspectiveCamera (c : Camera) : bool :=
  match c with PerspectiveCamera => true | OrthographicCamera => false end.

(** The fields of a [Render] instance that the modelled methods read or
    write.  [mesh] holds [this.mesh.material] once the mesh exists;
    [allocated] counts the material objects built so far and names the
    next one; [disposed] lists the ids passed to [dispose].  [fov] and
    [rotation] belong to the perspective camera.  A projection FOV that
    is still [null] is written [Num 0] (see [Utils.FovArgs]). *)
Record Render : Type := mkRender {
  mesh : option Material;
  allocated : nat;
  disposed : list nat;
  camera : Camera;
  fov : jsnum;
  rotation : jsnum * jsnum;
  _projHFovDeg : jsnum;
  _projVFovDeg : jsnum;
  isDragging : bool;
  dragLastX : jsnum;
  dragLastY : jsnum;
  yaw : jsnum;
  pitch : jsnum;
  clientWidth : N;
  clientHeight : N
}.

(** The state the constructor leaves behind for a canvas of the given
    client size. *)
Definition new_Render (cw ch : N) : Render :=
  {| mesh := Some (MeshBasicMaterial 0 DoubleSide);
     allocated := 1; disposed := [];
     camera := OrthographicCamera;
     fov := VR_VFOV_DEG; rotation := (Num 0, Num 0);
     _projHFovDeg := Num 0; _projVFovDeg := Num 0;
     isDragging := false; dragLastX := Num 0; dragLastY := Num 0;
     yaw := Num 0; pitch := Num 0;
     clientWidth := cw; clientHeight := ch |}.

Definition with_materials (r : Render) (m : option Material) (n : nat)
  (d : list nat) : Render :=
  {| mesh := m; allocated := n; disposed := d;
     camera := camera r; fov := fov r; rotation := rotation r;
     _projHFovDeg := _projHFovDeg r; _projVFovDeg := _projVFovDeg r;
     isDragging := isDragging r; dragLastX := dragLastX r;
     dragLastY := dragLastY r; yaw := yaw r; pitch := pitch r;
     clientWidth := clientWidth r; clientHeight := clientHeight r |}.

Definition with_drag (r : Render) (dragging : bool) (x y : jsnum) : Render :=
  {| mesh := mesh r; allocated := allocated r; disposed := disposed r;
     camera := camera r; fov := fov r; rotation := rotation r;
     _projHFovDeg := _projHFovDeg r; _projVFovDeg := _projVFovDeg r;
     isDragging := dragging; dragLastX := x; dragLastY := y;
     yaw := yaw r; pitch := pitch r;
     clientWidth := clientWidth r; clientHeight := clientHeight r |}.

Definition with_view (r : Render) (f y p : jsnum) (rot : jsnum * jsnum)
  : Render :=
  {| mesh := mesh r; allocated := allocated r; disposed := disposed r;
     camera := camera r; fov := f; rotation := rot;
     _projHFovDeg := _projHFovDeg r; _projVFovDeg := _projVFovDeg r;
     isDragging := isDragging r; dragLastX := dragLastX r;
     dragLastY := dragLastY r; yaw := y; pitch := p;
     clientWidth := clientWidth r; clientHeight := clientHeight r |}.

Definition with_projection (r : Render) (c : Camera) (h v : jsnum) : Render :=
  {| mesh := mesh r; allocated := allocated r; disposed := disposed r;
     camera := c; fov := fov r; rotation := rotation r;
     _projHFovDeg := h; _projVFovDeg := v;
     isDragging := isDragging r; dragLastX := dragLastX r;
     dragLastY := dragLastY r; yaw := yaw r; pitch := pitch r;
     clientWidth := clientWidth r; clientHeight := clientHeight r |}.

(** ** updateMaterial *)

Definition intendedType (s : State) : string :=
  if Utils.isVrProjection (projection s) then
    (if String.eqb (view s) "anaglyph" then "vr-anaglyph" else "vr-equirect")
  else
    (if String.eqb (view s) "anaglyph" then "flat-anaglyph"
     else if String.eqb (view s) "watch" then "flat-watch" else "flat-basic").

(** The material built when the type changes, before it is tagged. *)
Definition create_material (id : nat) (s : State) : Material :=
  if Utils.isVrProjection (projection s) then
    (if String.eqb (view s) "anaglyph"
     then _createAnaglyphVrMaterial id s
     else _createEquirectMaterial id s)
  else if String.eqb (view s) "anaglyph" then _createAnaglyphFlatMaterial id s
  else if String.eqb (view s) "watch" then _createWatchFlatMaterial id s
  else MeshBasicMaterial id FrontSide.

Definition type_differs (currentType : option string) (intended : string)
  : bool :=
  match currentType with
  | Some t => negb (String.eqb t intended)
  | None => true
  end.

Definition updateMaterial (r : Render) (s : State) : Render :=
  match mesh r with
  | None => r
  | Some material =>
      let isVr := Utils.isVrProjection (projection s) in
      let intended := intendedType s in
      let currentType := userData_type material in
      let '(material, n, d) :=
        if type_differs currentType intended then
          (with_type (create_material (allocated r) s) intended,
           S (allocated r),
           (disposed r ++ [object_id material])%list)
        else (material, allocated r, disposed r) in
      let material := _updateMaterialUniforms material s in
      let material := with_side material (if isVr then BackSide else FrontSide) in
      with_materials r (Some material) n d
  end.

(** ** Projection geometry and camera clamps *)

(** The projection FOVs [_createVrGeometry] records, in degrees. *)
Definition geometry_hFov (projection0 : string) : jsnum :=
  if String.eqb projection0 "vr180" then Num 180
  else if String.eqb projection0 "vr360" then Num 360 else Num 0.

Definition geometry_vFov (projection0 : string) : jsnum :=
  if String.eqb projection0 "vr180" || String.eqb projection0 "vr360"
  then Num 180 else Num 0.

Definition clamp_args (r : Render) : Utils.FovArgs :=
  {| Utils.min := VR_VFOV_MIN_DEG;
     Utils.max := VR_VFOV_MAX_DEG;
     Utils.projVFovDeg := _projVFovDeg r;
     Utils.projHFovDeg := _projHFovDeg r;
     Utils.aspect := Utils.currentAspect (clientWidth r) (clientHeight r) |}.

Definition _applyPanAndZoomClamps (r : Render) : Render :=
  if negb (isPerspectiveCamera (camera r)) then r
  else
    let aspect := Utils.currentAspect (clientWidth r) (clientHeight r) in
    let newFov := Utils.clampFov (fov r) (clamp_args r) in
    let currentVFovDeg := newFov in
    let currentHFovDeg := Utils.vFovDegToHFovDeg currentVFovDeg aspect in
    let clamped :=
      Utils.clampYawPitch (yaw r) (pitch r)
        {| Utils.yp_projHFovDeg := _projHFovDeg r;
           Utils.yp_projVFovDeg := _projVFovDeg r;
           Utils.currentVFovDeg := currentVFovDeg;
           Utils.currentHFovDeg := currentHFovDeg |} in
    with_view r newFov (Utils.yaw clamped) (Utils.pitch clamped)
      (Utils.pitch clamped, Utils.yaw clamped).

Definition _applyProjectionAndViewGeometry (r : Render) (projection0 : string)
  : Render :=
  let isVr := Utils.isVrProjection projection0 in
  if isVr then
    let r := with_projection r PerspectiveCamera
               (geometry_hFov projection0) (geometry_vFov projection0) in
    let r := with_view r VR_VFOV_DEG (Num 0) (Num 0) (rotation r) in
    _applyPanAndZoomClamps r
  else
    with_projection r OrthographicCamera (_projHFovDeg r) (_projVFovDeg r).

(** ** Event handlers.  Each returns the new state and whether
    [preventDefault] was called. *)

Record PointerEvent : Type := mkPointerEvent {
  clientX : jsnum;
  clientY : jsnum
}.

Record WheelEvent : Type := mkWheelEvent {
  deltaY : jsnum
}.

Definition _handleDragStart (r : Render) (x y : jsnum) : Render :=
  with_drag r true x y.

Definition _applyDragDelta (r : Render) (dx dy : jsnum) : Render :=
  let res := Utils.dragToYawPitch (yaw r) (pitch r) dx dy DRAG_SENSITIVITY in
  _applyPanAndZoomClamps
    (with_view r (fov r) (Utils.yaw res) (Utils.pitch res) (rotation r)).

Definition _handleDragMove (r : Render) (x y : jsnum) : Render :=
  let dx := (x - dragLastX r)%js in
  let dy := (y - dragLastY r)%js in
  let r := _applyDragDelta r dx dy in
  with_drag r (isDragging r) x y.

Definition _onPointerDown (r : Render) (e : PointerEvent) : Render * bool :=
  if negb (isPerspectiveCamera (camera r)) then (r, false)
  else (_handleDragStart r (clientX e) (clientY e), true).

Definition _onPointerMove (r : Render) (e : PointerEvent) : Render * bool :=
  if negb (isDragging r) || negb (isPerspectiveCamera (camera r)) then (r, false)
  else (_handleDragMove r (clientX e) (clientY e), true).

Definition _onPointerUp (r : Render) : Render :=
  with_drag r false (dragLastX r) (dragLastY r).

Definition _onWheel (r : Render) (e : WheelEvent) : Render * bool :=
  if negb (isPerspectiveCamera (camera r)) then (r, false)
  else
    let delta := deltaY e in
    let r :=
      with_view r (Utils.zoomFromWheel (fov r) delta ZOOM_SENSITIVITY)
        (yaw r) (pitch r) (rotation r) in
    (_applyPanAndZoomClamps r, true).

(** ** Names used in the statements below *)

(** The face [updateMaterial] makes visible. *)
Definition side_for (s : State) : Side :=
  if Utils.isVrProjection (projection s) then BackSide else FrontSide.

(** The five material types. *)
Definition material_types : list string :=
  [ "vr-equirect"; "vr-anaglyph"; "flat-basic"; "flat-anaglyph"; "flat-watch" ].

(** The keys [_updateMaterialUniforms] may write. *)
Definition updated_keys : list string :=
  [ "map"; "u_h_fov_rad"; "u_v_fov_rad"; "uLayout"; "uHalfRes";
    "uIsWatchView"; "uLeftEye"; "uEdgeFeather" ].

(** The calibration uniforms the anaglyph shaders declare, each with the
    store value it stands for. *)
Definition calibration_uniforms (s : State) : list (string * jsnum) :=
  [ ("uAntiRed", antiR s); ("uAntiGreen", antiG s); ("uAntiBlue", antiB s);
    ("uGreenBalance", balance s); ("uConvergence", convergence s);
    ("uDepth", depthCompression s) ].

(** A store snapshot showing a half-sphere video in anaglyph view. *)
Definition anaglyph_vr_state (antiRed : jsnum) : State :=
  {| projection := "vr180"; view := "anaglyph"; layout := "sbs";
     resolution := "half"; eye := "left";
     antiR := antiRed; antiG := Num 0; antiB := Num 0; balance := Num 0;
     convergence := Num (1 / 2); depthCompression := Num 0 |}.

(** ** Sequences of calls *)

Definition updateMaterial_all (r : Render) (ss : list State) : Render :=
  fold_left updateMaterial ss r.

(** How often the tag changes along a sequence of intended types, starting
    from the tag bound at first. *)
Fixpoint type_changes (current : option string) (intended : list string) : nat :=
  match intended with
  | [] => 0
  | t :: rest =>
      (if type_differs current t then 1 else 0) + type_changes (Some t) rest
  end.

End Render.

(* ===================================================================== *)
(** * The camera state the clamps establish *)
(* ===================================================================== *)

Module CameraState.
Import JsNum.
Local Open Scope R_scope.

(** The renderer shows a spherical projection: the perspective camera is
    current and [_createVrGeometry] has recorded the projection FOVs. *)
Definition spherical (r : Render.Render) : Prop :=
  Render.camera r = Render.PerspectiveCamera
  /\ Render._projVFovDeg r = Num 180
  /\ (Render._projHFovDeg r = Num 180 \/ Render._projHFovDeg r = Num 360).

(** Field of view, yaw and pitch are numbers. *)
Definition finite_view (r : Render.Render) : Prop :=
  is_finite (Render.fov r) = true
  /\ is_finite (Render.yaw r) = true
  /\ is_finite (Render.pitch r) = true.

(** The bounds of the clamp pass: the vertical FOV within the zoom range,
    the pitch within the vertical budget left, the yaw within the
    horizontal budget left under a 180-degree span and inside one turn
    otherwise, and the camera rotation set from pitch and yaw. *)
Definition in_bounds (r : Render.Render) : Prop :=
  exists f y p hf,
    Render.fov r = Num f /\ Render.yaw r = Num y /\ Render.pitch r = Num p
    /\ Utils.vFovDegToHFovDeg (Num f)
         (Utils.currentAspect (Render.clientWidth r) (Render.clientHeight r))
       = Num hf
    /\ 20 <= f <= 179
    /\ Rabs p <= (180 - f) / 2 * (PI / 180)
    /\ (Render._projHFovDeg r = Num 180 ->
        hf < 180 /\ Rabs y <= (180 - hf) / 2 * (PI / 180))
    /\ (Render._projHFovDeg r = Num 360 -> Rabs y < 2 * PI)
    /\ Render.rotation r = (Num p, Num y).

End CameraState.

(* ===================================================================== *)
(** * The values [_updateMaterialUniforms] writes *)
(* ===================================================================== *)

Module Uniforms.
Import JsNum.
Local Open Scope string_scope.

(** For each key [_updateMaterialUniforms] may write, the value it writes
    for the snapshot [s]. *)
Definition pushed_values (s : Render.State) : gmap string Render.uvalue :=
  list_to_map
    [ ("map", Render.UTexture);
      ("u_h_fov_rad", Render.UFloat (Render.hFovRad s));
      ("u_v_fov_rad", Render.UFloat Math_PI);
      ("uLayout", Render.layout_selector s);
      ("uHalfRes", Render.UBool (String.eqb (Render.resolution s) "half"));
      ("uIsWatchView", Render.UBool (String.eqb (Render.view s) "watch"));
      ("uLeftEye", Render.UBool (negb (String.eqb (Render.eye s) "right")));
      ("uEdgeFeather",
       Render.UVec2 (fst (Render._edgeFeatherForProjection (Render.projection s)))
                    (snd (Render._edgeFeatherForProjection (Render.projection s)))) ].

End Uniforms.

(* ===================================================================== *)
(** * src/js/Shaders.js: edge feather and sample positions *)
(* ===================================================================== *)

Module ShaderStages.
Import Shaders.
Local Open Scope R_scope.

Record vec2 : Type := mkVec2 { vx : R; vy : R }.

(** ** [GLSL.EDGE_FEATHER] *)

(** The built-in [smoothstep]. *)
Definition smoothstep (edge0 edge1 x : R) : R :=
  let t := clamp ((x - edge0) / (edge1 - edge0)) 0 1 in
  t * t * (3 - 2 * t).

Definition featherAxis (coord feather : R) : R :=
  if Rle_dec feather 0 then 1
  else
    let nearEdge := smoothstep 0 feather coord in
    let farEdge := smoothstep 0 feather (1 - coord) in
    nearEdge * farEdge.

Definition edgeFade (uv feather : vec2) : R :=
  featherAxis (vx uv) (vx feather) * featherAxis (vy uv) (vy feather).

(** ** [EQUIRECT_FRAGMENT_SHADER], from the equirectangular [uv] on *)

Record EquirectUniforms : Type := mkEquirectUniforms {
  eq_uLayout : Z;
  uIsWatchView : bool;
  eq_uHalfRes : bool;
  uLeftEye : bool;
  eq_uEdgeFeather : vec2
}.

Definition equirect_sampleUv (u : EquirectUniforms) (uv : vec2) : vec2 :=
  if uIsWatchView u then
    let leftEye := uLeftEye u in
    if (eq_uLayout u =? 0)%Z then
      if eq_uHalfRes u then
        {| vx := if leftEye then 25 / 100 + (vx uv - 5 / 10) * (25 / 100)
                 else 75 / 100 + (vx uv - 5 / 10) * (25 / 100);
           vy := vy uv |}
      else
        {| vx := if leftEye then vx uv * (5 / 10) else vx uv * (5 / 10) + 5 / 10;
           vy := vy uv |}
    else
      if eq_uHalfRes u then
        {| vx := vx uv;
           vy := if leftEye then 25 / 100 + (vy uv - 5 / 10) * (25 / 100)
                 else 75 / 100 + (vy uv - 5 / 10) * (25 / 100) |}
      else
        {| vx := vx uv;
           vy := if leftEye then vy uv * (5 / 10) else vy uv * (5 / 10) + 5 / 10 |}
  else uv.

(** [gl_FragColor] for a texture [map]. *)
Definition equirect_fragment (map : vec2 -> vec4) (u : EquirectUniforms) (uv : vec2)
  : vec4 :=
  let fade := edgeFade uv (eq_uEdgeFeather u) in
  let sampleUv := equirect_sampleUv u uv in
  let tex := map sampleUv in
  {| rgb := scale3 (rgb tex) fade; alpha := alpha tex |}.

(** ** [WATCH_FLAT_FRAGMENT_SHADER] *)

Definition watch_flat_uv (uLayout0 : Z) (leftEye : bool) (vUv : vec2) : vec2 :=
  if (uLayout0 =? 0)%Z then
    {| vx := vx vUv * (5 / 10) + (if leftEye then 0 else 5 / 10); vy := vy vUv |}
  else
    {| vx := vx vUv; vy := vy vUv * (5 / 10) + (if leftEye then 0 else 5 / 10) |}.

(** ** [ANAGLYPH_FRAGMENT_SHADER], the sample positions of the two eyes *)

(** The uniforms that place the samples; the flat shader has no
    [uHalfRes]. *)
Record AnaglyphUniforms : Type := mkAnaglyphUniforms {
  an_uLayout : Z;
  uSwapEyes : Z;
  an_uHalfRes : bool;
  uConvergence : R;
  uDepth : R
}.

Definition MAX_SHIFT : R := 1 / 100.
Definition SBS_LEFT_CENTER : R := 25 / 100.
Definition SBS_RIGHT_CENTER : R := 75 / 100.
Definition OU_TOP_CENTER : R := 25 / 100.
Definition OU_BOTTOM_CENTER : R := 75 / 100.

Definition anaglyph_uv (u : AnaglyphUniforms) (uv : vec2) : vec2 * vec2 :=
  let convergence := clamp (uConvergence u) 0 1 in
  let depthAmount := clamp (uDepth u) 0 1 * (1 / 10) in
  let shift := MAX_SHIFT * ((convergence - 5 / 10) * 2) in
  let shift := if (an_uLayout u =? 1)%Z then 0 else shift in
  let isOU := (an_uLayout u =? 1)%Z in
  let '(uvL, uvR) :=
    if negb isOU then
      let '(baseL, baseR) :=
        if an_uHalfRes u then
          ({| vx := 25 / 100 + (vx uv - 5 / 10) * (25 / 100); vy := vy uv |},
           {| vx := 75 / 100 + (vx uv - 5 / 10) * (25 / 100); vy := vy uv |})
        else
          ({| vx := vx uv * (5 / 10); vy := vy uv |},
           {| vx := vx uv * (5 / 10) + 5 / 10; vy := vy uv |}) in
      let adjustedLeft := clamp (vx baseL + shift) 0 1 in
      let adjustedRight := clamp (vx baseR - shift) 0 1 in
      let localLeft := (adjustedLeft - SBS_LEFT_CENTER) * 2 in
      let localRight := (adjustedRight - SBS_RIGHT_CENTER) * 2 in
      let depthScaleLeft :=
        mix (1 + depthAmount) (1 - depthAmount) (clamp (Rabs localLeft) 0 1) in
      let depthScaleRight :=
        mix (1 - depthAmount) (1 + depthAmount) (clamp (Rabs localRight) 0 1) in
      let localLeft := localLeft * depthScaleLeft in
      let localRight := localRight * depthScaleRight in
      ({| vx := SBS_LEFT_CENTER + localLeft * (5 / 10); vy := vy baseL |},
       {| vx := SBS_RIGHT_CENTER + localRight * (5 / 10); vy := vy baseR |})
    else
      let '(baseL, baseR) :=
        if an_uHalfRes u then
          ({| vx := vx uv; vy := 25 / 100 + (vy uv - 5 / 10) * (25 / 100) |},
           {| vx := vx uv; vy := 75 / 100 + (vy uv - 5 / 10) * (25 / 100) |})
        else
          ({| vx := vx uv; vy := vy uv * (5 / 10) |},
           {| vx := vx uv; vy := vy uv * (5 / 10) + 5 / 10 |}) in
      let adjustedTop := clamp (vy baseL + shift) 0 1 in
      let adjustedBottom := clamp (vy baseR - shift) 0 1 in
      let localTop := (adjustedTop - OU_TOP_CENTER) * 2 in
      let localBottom := (adjustedBottom - OU_BOTTOM_CENTER) * 2 in
      let depthScaleTop :=
        mix (1 + depthAmount) (1 - depthAmount) (clamp (Rabs localTop) 0 1) in
      let depthScaleBottom :=
        mix (1 - depthAmount) (1 + depthAmount) (clamp (Rabs localBottom) 0 1) in
      let localTop := localTop * depthScaleTop in
      let localBottom := localBottom * depthScaleBottom in
      ({| vx := vx baseL; vy := OU_TOP_CENTER + localTop * (5 / 10) |},
       {| vx := vx baseR; vy := OU_BOTTOM_CENTER + localBottom * (5 / 10) |}) in
  if (uSwapEyes u =? 1)%Z then (uvR, uvL) else (uvL, uvR).

(** ** [ANAGLYPH_FLAT_FRAGMENT_SHADER], the sample positions of the two eyes *)

Definition anaglyph_flat_uv (u : AnaglyphUniforms) (vUv : vec2) : vec2 * vec2 :=
  let convergence := clamp (uConvergence u) 0 1 in
  let depthAmount := clamp (uDepth u) 0 1 * (1 / 10) in
  let shift := MAX_SHIFT * ((convergence - 5 / 10) * 2) in
  let centerLeft := if (an_uLayout u =? 0)%Z then SBS_LEFT_CENTER else 5 / 10 in
  let centerRight := if (an_uLayout u =? 0)%Z then SBS_RIGHT_CENTER else 5 / 10 in
  let halfSpanLeft := if (an_uLayout u =? 0)%Z then 25 / 100 else 5 / 10 in
  let halfSpanRight := halfSpanLeft in
  let '(baseL, baseR) :=
    if (an_uLayout u =? 0)%Z then
      ({| vx := vx vUv * (5 / 10); vy := vy vUv |},
       {| vx := vx vUv * (5 / 10) + 5 / 10; vy := vy vUv |})
    else
      ({| vx := vx vUv; vy := vy vUv * (5 / 10) |},
       {| vx := vx vUv; vy := vy vUv * (5 / 10) + 5 / 10 |}) in
  let adjustedLeft := clamp (vx baseL + shift) 0 1 in
  let adjustedRight := clamp (vx baseR - shift) 0 1 in
  let localLeft := (adjustedLeft - centerLeft) / halfSpanLeft in
  let localRight := (adjustedRight - centerRight) / halfSpanRight in
  let depthScaleLeft :=
    mix (1 + depthAmount) (1 - depthAmount) (clamp (Rabs localLeft) 0 1) in
  let depthScaleRight :=
    mix (1 - depthAmount) (1 + depthAmount) (clamp (Rabs localRight) 0 1) in
  let localLeft := localLeft * depthScaleLeft in
  let localRight := localRight * depthScaleRight in
  let uvL := {| vx := centerLeft + localLeft * halfSpanLeft; vy := vy baseL |} in
  let uvR := {| vx := centerRight + localRight * halfSpanRight; vy := vy baseR |} in
  if (uSwapEyes u =? 1)%Z then (uvR, uvL) else (uvL, uvR).

(** The two halves of the frame before convergence and depth are applied
    ([baseL] and [baseR] of the shaders). *)
Definition base_uv (isOU : bool) (halfRes : bool) (uv : vec2) : vec2 * vec2 :=
  if negb isOU then
    if halfRes then
      ({| vx := 25 / 100 + (vx uv - 5 / 10) * (25 / 100); vy := vy uv |},
       {| vx := 75 / 100 + (vx uv - 5 / 10) * (25 / 100); vy := vy uv |})
    else
      ({| vx := vx uv * (5 / 10); vy := vy uv |},
       {| vx := vx uv * (5 / 10) + 5 / 10; vy := vy uv |})
  else
    if halfRes then
      ({| vx := vx uv; vy := 25 / 100 + (vy uv - 5 / 10) * (25 / 100) |},
       {| vx := vx uv; vy := 75 / 100 + (vy uv - 5 / 10) * (25 / 100) |})
    else
      ({| vx := vx uv; vy := vy uv * (5 / 10) |},
       {| vx := vx uv; vy := vy uv * (5 / 10) + 5 / 10 |}).

End ShaderStages.

(* ===================================================================== *)
(** * src/js/Detector.js: projection step and container text *)
(* ===================================================================== *)

Module DetectorSteps.
Import JsString QNum Detector.
Local Open Scope string_scope.
Local Open Scope bool_scope.

Definition VR360_TOKENS : list string :=
  [ "vr360"; "360vr"; "vr-360"; "vr_360";
    "360video"; "video360";
    "360pano"; "pano360"; "360photo"; "photo360";
    "3603d"; "3d360"; "stereo360"; "360stereo";
    "mono360"; "360mono";
    "360-deg"; "360deg"; "360-degree";
    "360" ].

Definition VR180_TOKENS : list string :=
  [ "vr180"; "180vr"; "vr-180"; "vr_180";
    "1803d"; "3d180"; "vr1803d"; "3dvr180"; "stereo180"; "180stereo";
    "180pano"; "pano180";
    "front180"; "f180";
    "180-deg"; "180deg"; "180-degree";
    "180x180";
    "180" ].

(** Whether a keyword has a lower-case letter. *)
Fixpoint has_lower (s : string) : bool :=
  match s with
  | EmptyString => false
  | String c t => is_lower c || has_lower t
  end.

(** ** Step 3: projection *)

(** Methods 2 and 3: file-name tokens, then the current value. *)
Definition projection_from_name (lower projection : string) : Result :=
  if some_included VR360_TOKENS lower then
    {| value := "vr360"; method := METHOD_FILENAME |}
  else if some_included VR180_TOKENS lower then
    {| value := "vr180"; method := METHOD_FILENAME |}
  else {| value := projection; method := METHOD_DEFAULT |}.

(** [detectProjection] from the point where the metadata step has
    settled: [meta] is what awaiting [_detectProjectionFromMetadata] gave,
    a value or an exception, which the [catch] block only logs. *)
Definition detectProjection (meta : Mkv.outcome (option string))
    (name0 projection : string) : Result :=
  let lower := toLowerCase name0 in
  match meta with
  | Mkv.Returned m =>
      if truthy m then
        {| value := match m with Some v => v | None => "" end;
           method := METHOD_METADATA |}
      else projection_from_name lower projection
  | Mkv.Thrown => projection_from_name lower projection
  end.

End DetectorSteps.

(* ===================================================================== *)
(** * src/js/Detector.js: reading the container *)
(* ===================================================================== *)

Module Container.
Import JsString Mkv.
Local Open Scope string_scope.
Local Open Scope bool_scope.

(** What [s.file] can be: nothing usable, a [File] with its bytes, or a
    string.  For a string, [fetched] is what fetching it resolves to,
    [None] when the fetch rejects. *)
Inductive FileRef : Type :=
| NoFile
| FileBlob (data : list Byte.byte)
| UrlString (url : string) (fetched : option (list Byte.byte)).

Fixpoint take {A : Type} (n : N) (l : list A) : list A :=
  match l with
  | [] => []
  | x :: t => if (n =? 0)%N then [] else x :: take (N.pred n) t
  end.

Fixpoint drop {A : Type} (n : N) (l : list A) : list A :=
  match l with
  | [] => []
  | x :: t => if (n =? 0)%N then l else drop (N.pred n) t
  end.

(** [blob.slice(start, end)]. *)
Definition blob_slice (data : list Byte.byte) (start end_ : N) : list Byte.byte :=
  take (end_ - start) (drop start data).

Definition _readBytes (fileOrUrl : FileRef) (start length0 : N)
  : outcome (option (list Byte.byte)) :=
  match fileOrUrl with
  | UrlString url fetched =>
      if negb (startsWith "blob:" url) then Returned None
      else
        match fetched with
        | Some blob => Returned (Some (blob_slice blob start (start + length0)))
        | None => Thrown
        end
  | FileBlob data => Returned (Some (blob_slice data start (start + length0)))
  | NoFile => Returned None
  end.

(** ** [_asciiFromBytes] *)

(** The six characters backslash, u, 0, 0, 0, 0. *)
Definition ESCAPED_NUL : string := "\u0000".

Definition is_text_byte (c : Byte.byte) : bool :=
  let n := Byte.to_N c in
  ((32 <=? n)%N && (n <=? 126)%N) || (n =? 9)%N || (n =? 10)%N || (n =? 13)%N.

Definition ascii_piece (c : Byte.byte) : string :=
  if is_text_byte c then String (ascii_of_byte c) EmptyString else ESCAPED_NUL.

Definition _asciiFromBytes (bytes : list Byte.byte) : string :=
  fold_left (fun s c => s ++ ascii_piece c) bytes "".

(** ** String positions *)

(** [hay.indexOf(needle, from)], [None] for -1. *)
Fixpoint indexOf (needle hay : string) (from : nat) {struct hay} : option nat :=
  match from with
  | O =>
      if startsWith needle hay then Some O
      else
        match hay with
        | EmptyString => None
        | String _ t => option_map S (indexOf needle t O)
        end
  | S k =>
      match hay with
      | EmptyString => if startsWith needle EmptyString then Some O else None
      | String _ t => option_map S (indexOf needle t k)
      end
  end.

Fixpoint str_take (n : nat) (s : string) : string :=
  match n, s with
  | S k, String c t => String c (str_take k t)
  | _, _ => EmptyString
  end.

Fixpoint str_drop (n : nat) (s : string) : string :=
  match n, s with
  | S k, String _ t => str_drop k t
  | _, _ => s
  end.

(** [s.slice(a, b)] for [0 <= a]. *)
Definition slice (s : string) (a b : nat) : string := str_take (b - a) (str_drop a s).

(** ** [_extractXmpFromMp4] *)

Definition XMP_CHUNK : N := 16 * 1024 * 1024.
Definition XMP_START : string := "<x:xmpmeta".
Definition XMP_END : string := "</x:xmpmeta>".

Definition _extractXmpFromMp4 (fileOrUrl : FileRef) : outcome (option string) :=
  match _readBytes fileOrUrl 0 XMP_CHUNK with
  | Thrown => Thrown
  | Returned None => Returned None
  | Returned (Some bytes) =>
      let text := _asciiFromBytes bytes in
      match indexOf XMP_START text 0 with
      | None => Returned None
      | Some startIdx =>
          let endTag := XMP_END in
          match indexOf endTag text startIdx with
          | None => Returned None
          | Some endIdx =>
              Returned (Some (slice text startIdx (endIdx + String.length endTag)))
          end
      end
  end.

(** Every character is printable ASCII, a tab, a line feed or a carriage
    return. *)
Fixpoint all_text (s : string) : bool :=
  match s with
  | EmptyString => true
  | String c t => is_text_byte (byte_of_ascii c) && all_text t
  end.

End Container.

(* ===================================================================== *)
(** * src/js/Utils.js and src/js/Render.js: content size and resizing *)
(* ===================================================================== *)

Module Viewport.
Import JsNum.
Local Open Scope string_scope.
Local Open Scope bool_scope.

(** [a < b] on numbers; every comparison with NaN is false. *)
Definition lt (a b : jsnum) : bool :=
  match a, b with
  | NegInf, Num _ | NegInf, PosInf | Num _, PosInf => true
  | Num x, Num y => if Rlt_dec x y then true else false
  | _, _ => false
  end.

(** [a > b]. *)
Definition gt (a b : jsnum) : bool := lt b a.

Definition of_N (n : N) : jsnum := Num (IZR (Z.of_N n)).

(** ** [Utils.contentDimensions] and [Utils.orthoExtents] *)

Record Dimensions : Type := mkDimensions {
  width : jsnum;
  height : jsnum
}.

(** [vw] and [vh] are the [videoWidth] and [videoHeight] of the video
    element. *)
Definition contentDimensions (vw vh : N) (opts : Render.State) : Dimensions :=
  let contentW := of_N vw in
  let contentH := of_N vh in
  if (String.eqb (Render.view opts) "watch" || String.eqb (Render.view opts) "anaglyph")
     && negb (Utils.isVrProjection (Render.projection opts))
  then
    if String.eqb (Render.layout opts) "sbs" then
      {| width := if String.eqb (Render.resolution opts) "full"
                  then (of_N vw / Num 2)%js else of_N vw;
         height := contentH |}
    else
      {| width := contentW;
         height := if String.eqb (Render.resolution opts) "full"
                   then (of_N vh / Num 2)%js else of_N vh |}
  else {| width := contentW; height := contentH |}.

Record Extents : Type := mkExtents {
  left : jsnum;
  right : jsnum;
  top : jsnum;
  bottom : jsnum
}.

Definition orthoExtents (canvasAspect contentAspect : jsnum) : Extents :=
  let '(scaleX, scaleY) :=
    if gt canvasAspect contentAspect
    then ((canvasAspect / contentAspect)%js, Num 1)
    else (Num 1, (contentAspect / canvasAspect)%js) in
  {| left := (- scaleX)%js; right := scaleX; top := scaleY; bottom := (- scaleY)%js |}.

(** ** [Render.resize] and the setters *)

(** The renderer together with what [resize] reads and writes besides:
    the size of the video frame, the extents of the orthographic camera
    and the aspect of the perspective camera.  Canvas and video exist. *)
Record View : Type := mkView {
  render : Render.Render;
  videoWidth : N;
  videoHeight : N;
  ortho : Extents;
  aspect : jsnum
}.

(** The state the constructor leaves behind: [_createOrthographicCamera]
    and [_createPerspectiveCamera]. *)
Definition new_View (cw ch vw vh : N) : View :=
  {| render := Render.new_Render cw ch;
     videoWidth := vw; videoHeight := vh;
     ortho := {| left := Num (-1); right := Num 1; top := Num 1; bottom := Num (-1) |};
     aspect := Utils.currentAspect cw ch |}.

Definition with_render (v : View) (r : Render.Render) : View :=
  {| render := r; videoWidth := videoWidth v; videoHeight := videoHeight v;
     ortho := ortho v; aspect := aspect v |}.

Definition resize (v : View) (s : Render.State) : View :=
  let cw := Render.clientWidth (render v) in
  let ch := Render.clientHeight (render v) in
  let vw := videoWidth v in
  let vh := videoHeight v in
  if (cw =? 0)%N || (ch =? 0)%N || (vw =? 0)%N || (vh =? 0)%N then v
  else if Render.isPerspectiveCamera (Render.camera (render v)) then
    {| render := Render._applyPanAndZoomClamps (render v);
       videoWidth := vw; videoHeight := vh;
       ortho := ortho v;
       aspect := (of_N cw / of_N ch)%js |}
  else
    let canvasAspect := (of_N cw / of_N ch)%js in
    let contentDims := contentDimensions vw vh s in
    let contentAspect := (width contentDims / height contentDims)%js in
    let extents := orthoExtents canvasAspect contentAspect in
    {| render := render v; videoWidth := vw; videoHeight := vh;
       ortho := extents; aspect := aspect v |}.

Definition setView (v : View) (s : Render.State) : View :=
  let v := with_render v
             (Render._applyProjectionAndViewGeometry (render v) (Render.projection s)) in
  let v := with_render v (Render.updateMaterial (render v) s) in
  resize v s.

Definition setProjection (v : View) (s : Render.State) : View :=
  let v := with_render v
             (Render._applyProjectionAndViewGeometry (render v) (Render.projection s)) in
  let v := with_render v (Render.updateMaterial (render v) s) in
  resize v s.


End Viewport.

From Stdlib Require Qround Qabs DecimalString Sorted.

(* ===================================================================== *)
(** * The debug panel and the pipeline: value clamp and frame rate *)
(* ===================================================================== *)

(** ** The debug panel: [clamp] *)

Module Debug.
Import JsNum.

(** [Number.isNaN(value) ? 0 : Math.min(1, Math.max(0, value))]. *)
Definition clamp (value : jsnum) : jsnum :=
  if is_NaN value then Num 0
  else Math_min (Num 1) (Math_max (Num 0) value).

End Debug.

(** ** [Pipeline.getFps] *)

Module Pipeline.
Import Qabs QNum.
Local Open Scope Q_scope.

Definition rates : list Q :=
  [ 23976 # 1000; 24;
    25; 2997 # 100; 30;
    50; 5994 # 100; 60;
    72; 90; 120;
    48;
    15; 20 ].

Definition samples : nat := 12.

(** Arithmetic on numbers that may be NaN or infinite. *)
Definition qneg (a : qnum) : qnum :=
  match a with
  | QNaN => QNaN
  | QNegInf => QPosInf
  | QNum x => QNum (- x)
  | QPosInf => QNegInf
  end.

Definition qadd (a b : qnum) : qnum :=
  match a, b with
  | QNaN, _ | _, QNaN => QNaN
  | QPosInf, QNegInf | QNegInf, QPosInf => QNaN
  | QPosInf, _ | _, QPosInf => QPosInf
  | QNegInf, _ | _, QNegInf => QNegInf
  | QNum x, QNum y => QNum (x + y)
  end.

Definition qsub (a b : qnum) : qnum := qadd a (qneg b).

Definition qscale_inf (x : Q) (i : qnum) : qnum :=
  if Qeq_bool x 0 then QNaN
  else if Qle_bool 0 x then i else qneg i.

Definition qmul (a b : qnum) : qnum :=
  match a, b with
  | QNaN, _ | _, QNaN => QNaN
  | QNum x, QNum y => QNum (x * y)
  | QNum x, i => qscale_inf x i
  | i, QNum y => qscale_inf y i
  | QPosInf, QPosInf | QNegInf, QNegInf => QPosInf
  | QPosInf, QNegInf | QNegInf, QPosInf => QNegInf
  end.

Definition qabs (a : qnum) : qnum :=
  match a with
  | QNaN => QNaN
  | QNum x => QNum (Qabs x)
  | _ => QPosInf
  end.

Definition qmax (a b : qnum) : qnum :=
  match a, b with
  | QNaN, _ | _, QNaN => QNaN
  | QPosInf, _ | _, QPosInf => QPosInf
  | QNegInf, c | c, QNegInf => c
  | QNum x, QNum y => QNum (if Qle_bool x y then y else x)
  end.

(** [deltas.sort((a, b) => a - b)]: the ascending rearrangement. *)
Fixpoint insert (x : Q) (l : list Q) : list Q :=
  match l with
  | [] => [x]
  | y :: t => if Qle_bool x y then x :: l else y :: insert x t
  end.

Definition sort (l : list Q) : list Q := fold_right insert [] l.

(** [l[i]] as an operand of [+]: an index outside the array gives
    [undefined], which adds up to NaN. *)
Definition at_index (l : list Q) (i : Z) : qnum :=
  if (i <? 0)%Z then QNaN
  else
    match nth_error l (Z.to_nat i) with
    | Some d => QNum d
    | None => QNaN
    end.

(** From the collected deltas to the raw frame rate. *)
Definition raw_rate (deltas : list Q) : qnum :=
  let deltas := sort deltas in
  let mid := Z.shiftr (Z.of_nat (List.length deltas)) 1 in
  let median := qmul (qadd (at_index deltas (mid - 1)) (at_index deltas mid))
                     (QNum (5 # 10)) in
  qdiv (QNum 1) (qmax (QNum (1 # 1000000)) median).

(** One round of the loop over [rates]. *)
Definition closer (raw : qnum) (best rate : Q) : Q :=
  if qlt (qabs (qsub (QNum rate) raw)) (qabs (qsub (QNum best) raw))
  then rate else best.

Definition best_rate (raw : qnum) : Q :=
  fold_left (closer raw) (tl rates) (hd 0 rates).

(** The callback [tick], run over the frames the browser presents; a
    frame is its time, [(meta?.mediaTime ?? video.currentTime) || 0], and
    whether the video has ended.  The result is the value stored as
    [fps], [None] if the callbacks stop before one is stored. *)
Fixpoint tick (frames : list (Q * bool)) (deltas : list Q) (previous : option Q)
  : option Q :=
  match frames with
  | [] => None
  | (time, ended) :: rest =>
      let deltas :=
        match previous with
        | Some p =>
            let d := time - p in
            if negb (Qle_bool d 0) then (deltas ++ [d])%list else deltas
        | None => deltas
        end in
      if (List.length deltas <? samples)%nat && negb ended
      then tick rest deltas (Some time)
      else Some (best_rate (raw_rate deltas))
  end.

Definition getFps (frames : list (Q * bool)) : option Q := tick frames [] None.

(** Frames presented at a steady interval [d], starting at [t0]. *)
Fixpoint steady (t0 d : Q) (n : nat) : list (Q * bool) :=
  match n with
  | O => []
  | S k => (t0, false) :: steady (t0 + d) d k
  end.

End Pipeline.

(* ===================================================================== *)
(** * src/js/Utils.js: [timecode] *)
(* ===================================================================== *)

Module UtilsText.
Import Qround DecimalString.
Local Open Scope string_scope.
Local Open Scope Q_scope.

(** Times are finite numbers, read as rationals. *)

(** Truncation towards zero, as used by the remainder operator. *)
Definition qtrunc (x : Q) : Z := if Qle_bool 0 x then Qfloor x else Qceiling x.

(** [x % y] for [y] other than zero. *)
Definition rem (x y : Q) : Q := x - y * inject_Z (qtrunc (x / y)).

(** [n.toString()] for an integer. *)
Definition toString (n : Z) : string := NilZero.string_of_int (Z.to_int n).

(** [s.padStart(2, "0")]. *)
Definition padStart2 (s : string) : string :=
  match String.length s with
  | O => "00"
  | S O => "0" ++ s
  | _ => s
  end.

Definition pad (n : Z) : string := padStart2 (toString n).

Definition timecode (time duration : Q) : string :=
  let h := Qfloor (time / 3600) in
  let m := Qfloor (rem time 3600 / 60) in
  let s := Qfloor (rem time 60) in
  let showHours := ((0 <? h)%Z || (0 <? Qfloor (duration / 3600))%Z)%bool in
  if showHours
  then toString h ++ ":" ++ pad m ++ ":" ++ pad s
  else toString m ++ ":" ++ pad s.

End UtilsText.

(* ===================================================================== *)
(** * src/js/Detector.js: the EBML walker and the metadata step *)
(* ===================================================================== *)

Module MkvWalker.
Import JsString Mkv Container.
Local Open Scope Z_scope.
Local Open Scope bool_scope.

Definition MKV_CHUNK : N := 4 * 1024 * 1024.

Definition ID_TRACKS : Z := 0x1654AE6B.
Definition ID_TRACK_ENTRY : Z := 0xAE.
Definition ID_VIDEO : Z := 0xE0.
Definition ID_PROJECTION_TYPE : Z := 0x7671.

(** A loop of the walker either ends with the value of [found], or with
    an exception (a [RangeError] of the [DataView]), or is still running
    when the fuel is used up: [None]. *)
Definition run : Type := option (outcome (option Z)).

Definition is_null (found : option Z) : bool :=
  match found with None => true | Some _ => false end.

(** The loop inside the [Video] element. *)
Fixpoint video_loop (fuel : nat) (dv : list Byte.byte) (p end_ : Z)
    (found : option Z) : run :=
  match fuel with
  | O => None
  | S fuel' =>
      if (p <? end_) && is_null found then
        match readVint dv p true with
        | Thrown => Some Thrown
        | Returned None => Some (Returned found)
        | Returned (Some id2) =>
            let p := p + width id2 in
            match readVint dv p false with
            | Thrown => Some Thrown
            | Returned None => Some (Returned found)
            | Returned (Some sz2) =>
                let p := p + width sz2 in
                if value id2 =? ID_PROJECTION_TYPE then
                  (* let val = 0; for (i < sz2.value) val = (val << 8) | getUint8(p + i) *)
                  match read_tail dv p (Z.to_nat (value sz2)) 0 0 with
                  | None => Some Thrown
                  | Some val => video_loop fuel' dv (p + value sz2) end_ (Some val)
                  end
                else video_loop fuel' dv (p + value sz2) end_ found
            end
        end
      else Some (Returned found)
  end.

(** The loop of [seekWithin]; [onEnter] gets the value of [found] and
    gives the new one. *)
Fixpoint seek_loop (fuel : nat) (dv : list Byte.byte) (targetId : Z)
    (onEnter : Z -> Z -> option Z -> run) (p end_ : Z) (found : option Z) : run :=
  match fuel with
  | O => None
  | S fuel' =>
      if (p <? end_) && is_null found then
        match readVint dv p true with
        | Thrown => Some Thrown
        | Returned None => Some (Returned found)
        | Returned (Some id) =>
            let p := p + width id in
            match readVint dv p false with
            | Thrown => Some Thrown
            | Returned None => Some (Returned found)
            | Returned (Some sz) =>
                let p := p + width sz in
                let entered :=
                  if (value id =? targetId) && is_null found
                  then onEnter p (value sz) found
                  else Some (Returned found) in
                match entered with
                | Some (Returned found') =>
                    seek_loop fuel' dv targetId onEnter (p + value sz) end_ found'
                | other => other
                end
            end
        end
      else Some (Returned found)
  end.

Definition seekWithin (fuel : nat) (dv : list Byte.byte) (start size targetId : Z)
    (onEnter : Z -> Z -> option Z -> run) (found : option Z) : run :=
  seek_loop fuel dv targetId onEnter start (start + size) found.

(** What is done inside a [Tracks] element found at the top level. *)
Definition enter_tracks (fuel : nat) (dv : list Byte.byte) (offset size : Z)
    (found : option Z) : run :=
  seekWithin fuel dv offset size ID_TRACK_ENTRY
    (fun teStart teSize found =>
       seekWithin fuel dv teStart teSize ID_VIDEO
         (fun vidStart vidSize found =>
            video_loop fuel dv vidStart (vidStart + vidSize) found)
         found)
    found.

(** The scan of the top level. *)
Fixpoint top_loop (fuel : nat) (dv : list Byte.byte) (offset : Z)
    (found : option Z) : run :=
  match fuel with
  | O => None
  | S fuel' =>
      if (offset <? byteLength dv) && is_null found then
        match readVint dv offset true with
        | Thrown => Some Thrown
        | Returned None => Some (Returned found)
        | Returned (Some id) =>
            let offset := offset + width id in
            match readVint dv offset false with
            | Thrown => Some Thrown
            | Returned None => Some (Returned found)
            | Returned (Some sz) =>
                let offset := offset + width sz in
                let entered :=
                  if value id =? ID_TRACKS
                  then enter_tracks fuel' dv offset (value sz) found
                  else Some (Returned found) in
                match entered with
                | Some (Returned found') =>
                    top_loop fuel' dv (offset + value sz) found'
                | other => other
                end
            end
        end
      else Some (Returned found)
  end.

Definition _readMkvProjectionType (fuel : nat) (fileOrUrl : FileRef) : run :=
  match _readBytes fileOrUrl 0 MKV_CHUNK with
  | Thrown => Some Thrown
  | Returned None => Some (Returned None)
  | Returned (Some buf) => top_loop fuel buf 0 None
  end.

(** ** [_detectProjectionFromMetadata] and [detectProjection] *)

(** [s.endsWith(suffix)]. *)
Definition endsWith (suffix s : string) : bool :=
  (String.length suffix <=? String.length s)%nat
  && String.eqb (str_drop (String.length s - String.length suffix) s) suffix.

Definition _detectProjectionFromMetadata (fuel : nat) (file : FileRef)
    (lowerName : string) : option (outcome (option string)) :=
  let isMp4 := endsWith ".mp4" lowerName in
  let isMov := endsWith ".mov" lowerName in
  let isMkv := endsWith ".mkv" lowerName in
  let isWebm := endsWith ".webm" lowerName in
  if isMp4 || isMov then
    match _extractXmpFromMp4 file with
    | Thrown => Some Thrown
    | Returned xmp =>
        if negb (truthy xmp) then Some (Returned None)
        else
          Some (Returned (Detector._classifyFromXmp
                            (match xmp with Some x => x | None => EmptyString end)))
    end
  else if isMkv || isWebm then
    match _readMkvProjectionType fuel file with
    | None => None
    | Some Thrown => Some Thrown
    | Some (Returned projType) =>
        match projType with
        | Some 1 => Some (Returned (Some "vr360"%string))
        | _ => Some (Returned None)
        end
    end
  else Some (Returned None).

(** The whole projection step for the store fields [file], [name] and
    [projection]; [None] when the metadata step is still running at the
    end of the fuel. *)
Definition detectProjection (fuel : nat) (file : FileRef)
    (name0 projection : string) : option Detector.Result :=
  let lower := toLowerCase name0 in
  match _detectProjectionFromMetadata fuel file lower with
  | None => None
  | Some meta => Some (DetectorSteps.detectProjection meta name0 projection)
  end.

(** ** The layout of a buffer, as the walker reads it *)

(** Scanning the elements from [p] up to [end_], the first one with ID
    [target] is reached, and its content, starting at [start] with the
    declared [size], satisfies [P]. *)
Inductive Reach (dv : list Byte.byte) (target end_ : Z) (P : Z -> Z -> Prop)
  : Z -> Prop :=
| reach_hit (p : Z) (id sz : Vint) :
    p < end_ ->
    readVint dv p true = Returned (Some id) ->
    readVint dv (p + width id) false = Returned (Some sz) ->
    value id = target ->
    P (p + width id + width sz) (value sz) ->
    Reach dv target end_ P p
| reach_skip (p : Z) (id sz : Vint) :
    p < end_ ->
    readVint dv p true = Returned (Some id) ->
    readVint dv (p + width id) false = Returned (Some sz) ->
    value id <> target ->
    Reach dv target end_ P (p + width id + width sz + value sz) ->
    Reach dv target end_ P p.

(** Scanning the elements from [p] up to [end_] ends without meeting the
    ID [target]: at the end, or at a byte that starts no integer. *)
Inductive Absent (dv : list Byte.byte) (target end_ : Z) : Z -> Prop :=
| absent_end (p : Z) : end_ <= p -> Absent dv target end_ p
| absent_no_id (p : Z) :
    readVint dv p true = Returned None -> Absent dv target end_ p
| absent_no_size (p : Z) (id : Vint) :
    readVint dv p true = Returned (Some id) ->
    readVint dv (p + width id) false = Returned None ->
    Absent dv target end_ p
| absent_skip (p : Z) (id sz : Vint) :
    readVint dv p true = Returned (Some id) ->
    readVint dv (p + width id) false = Returned (Some sz) ->
    value id <> target ->
    Absent dv target end_ (p + width id + width sz + value sz) ->
    Absent dv target end_ p.

(** The content at [start] of the declared [size] is an unsigned integer
    of at most three bytes that lies inside the buffer and spells [v]. *)
Definition uint_content (dv : list Byte.byte) (v : Z) (start size : Z) : Prop :=
  0 <= start /\ 0 <= size <= 3 /\ start + size <= byteLength dv
  /\ v = big_endian (map byte_value
                        (firstn (Z.to_nat size) (skipn (Z.to_nat start) dv))).

(** The buffer has a [Tracks] element at the top level, in it a
    [TrackEntry], in that a [Video] element and in that a
    [ProjectionType] of value [v]; at each level other elements may come
    first. *)
Definition projection_type_at (dv : list Byte.byte) (v : Z) : Prop :=
  Reach dv ID_TRACKS (byteLength dv)
    (fun p1 s1 =>
       Reach dv ID_TRACK_ENTRY (p1 + s1)
         (fun p2 s2 =>
            Reach dv ID_VIDEO (p2 + s2)
              (fun p3 s3 =>
                 Reach dv ID_PROJECTION_TYPE (p3 + s3) (uint_content dv v) p3)
              p2)
         p1)
    0.

(** The walker ends with the number [v] found. *)
Definition found_value (v : Z) : run := Some (Returned (Some v)).

(** ** Sample buffers *)

(** A [Tracks] element holding one [TrackEntry] with a [Video] element
    whose [ProjectionType] is the byte [v]. *)
Definition tracks_element (v : Byte.byte) : list Byte.byte :=
  [ Byte.x16; Byte.x54; Byte.xae; Byte.x6b; Byte.x88;   (* Tracks, 8 bytes *)
    Byte.xae; Byte.x86;                                   (* TrackEntry, 6 bytes *)
    Byte.xe0; Byte.x84;                                   (* Video, 4 bytes *)
    Byte.x76; Byte.x71; Byte.x81; v ].                     (* ProjectionType, 1 byte *)

(** An EBML header without content. *)
Definition ebml_header : list Byte.byte :=
  [ Byte.x1a; Byte.x45; Byte.xdf; Byte.xa3; Byte.x80 ].

(** A file laid out as Matroska prescribes: the header, then a [Segment]
    of 13 bytes that holds the [Tracks] element. *)
Definition matroska_file (v : Byte.byte) : list Byte.byte :=
  (ebml_header
   ++ [ Byte.x18; Byte.x53; Byte.x80; Byte.x67; Byte.x8d ]
   ++ tracks_element v)%list.

(** A buffer with the [Tracks] element at the top level, after the
    header: the track entry starts with a [TrackNumber] and the video
    element with a [PixelWidth]. *)
Definition flat_file (v : Byte.byte) : list Byte.byte :=
  (ebml_header
   ++ [ Byte.x16; Byte.x54; Byte.xae; Byte.x6b; Byte.x8f;   (* Tracks, 15 bytes *)
        Byte.xae; Byte.x8d;                                   (* TrackEntry, 13 bytes *)
        Byte.xd7; Byte.x81; Byte.x01;                         (* TrackNumber 1 *)
        Byte.xe0; Byte.x88;                                   (* Video, 8 bytes *)
        Byte.xb0; Byte.x82; Byte.x0f; Byte.x00;               (* PixelWidth 3840 *)
        Byte.x76; Byte.x71; Byte.x81; v ])%list.              (* ProjectionType *)

(** A buffer whose first element has a one-byte ID and an eight-byte size
    field that decodes to -9. *)
Definition rewinding_file : list Byte.byte :=
  [ Byte.xec; Byte.x01; Byte.x00; Byte.x00; Byte.x00;
    Byte.xff; Byte.xff; Byte.xff; Byte.xf7 ].

End MkvWalker.

(* ===================================================================== *)
(** * Properties of the field-of-view conversions and the camera clamps *)
(* ===================================================================== *)

(** Case analysis on every comparison hidden in [Rmin] and [Rmax],
    innermost first. *)
Ltac split_Rle_dec :=
  unfold Rmin, Rmax;
  repeat match goal with
         | |- context [Rle_dec ?a ?b] =>
             lazymatch a with context [Rle_dec _ _] => fail | _ => idtac end;
             lazymatch b with context [Rle_dec _ _] => fail | _ => idtac end;
             destruct (Rle_dec a b)
         end.

Section CameraMath.
Import JsNum.
Local Open Scope R_scope.

Lemma div_Num (x y : R) : y <> 0 -> (Num x / Num y)%js = Num (x / y).
Proof.
  intros Hy. unfold div.
  destruct (Req_dec_T y 0) as [E | _]; [contradiction | reflexivity].
Qed.

Lemma vFovDegToHFovDeg_Num (v a : R) :
  Utils.vFovDegToHFovDeg (Num v) (Num a)
  = Num (2 * (180 / PI) * atan (tan (PI / 180 * (v / 2)) * a)).
Proof.
  unfold Utils.vFovDegToHFovDeg, Math_PI.
  rewrite !div_Num by (try apply PI_neq0; lra).
  reflexivity.
Qed.

Lemma hFovDegToVFovDeg_Num (h a : R) :
  a <> 0 ->
  Utils.hFovDegToVFovDeg (Num h) (Num a)
  = Num (2 * (180 / PI) * atan (tan (PI / 180 * (h / 2)) / a)).
Proof.
  intros Ha. unfold Utils.hFovDegToVFovDeg, Math_PI.
  rewrite !div_Num by (try apply PI_neq0; lra).
  cbn [Math_tan mul]. rewrite div_Num by assumption.
  reflexivity.
Qed.

Lemma currentAspect_positive (cw ch : N) :
  exists a, Utils.currentAspect cw ch = Num a /\ 0 < a.
Proof.
  unfold Utils.currentAspect.
  destruct (cw =? 0)%N eqn:Ew; destruct (ch =? 0)%N eqn:Eh; cbn [negb andb];
    try (exists (16 / 9); split; [apply div_Num; lra | lra]).
  apply N.eqb_neq in Ew, Eh.
  assert (Hw : 0 < IZR (Z.of_N cw)) by (apply IZR_lt; lia).
  assert (Hh : 0 < IZR (Z.of_N ch)) by (apply IZR_lt; lia).
  exists (IZR (Z.of_N cw) / IZR (Z.of_N ch)). split.
  - apply div_Num. lra.
  - apply Rdiv_lt_0_compat; assumption.
Qed.

(** Clamping a number that is not NaN between two finite bounds. *)
Lemma max_min_bounds (lo hi : R) (c : jsnum) :
  c <> NaN -> lo <= hi ->
  exists x, Math_max (Num lo) (Math_min (Num hi) c) = Num x /\ lo <= x <= hi.
Proof.
  intros Hc Hle. destruct c as [ | | v | ]; [contradiction | | | ]; cbn.
  - exists lo. split; [reflexivity | lra].
  - exists (Rmax lo (Rmin hi v)). split; [reflexivity |].
    split_Rle_dec; lra.
  - exists (Rmax lo hi). split; [reflexivity |].
    split_Rle_dec; lra.
Qed.

Lemma min_with_Num_not_NaN (c : jsnum) (y : R) :
  c <> NaN -> Math_min c (Num y) <> NaN.
Proof. destruct c; cbn; congruence. Qed.

(** What [clampFov] computes on finite arguments. *)
Lemma clampFov_finite_args (vFov : jsnum) (lo hi pv ph a : R) :
  vFov <> NaN -> 0 < a -> lo <= Rmin hi (pv - 1) ->
  exists x,
    Utils.clampFov vFov
      {| Utils.min := Num lo; Utils.max := Num hi;
         Utils.projVFovDeg := Num pv; Utils.projHFovDeg := Num ph;
         Utils.aspect := Num a |} = Num x
    /\ lo <= x <= Rmin hi (pv - 1).
Proof.
  intros Hv Ha Hle. unfold Utils.clampFov. cbn [Utils.min Utils.max
    Utils.projVFovDeg Utils.projHFovDeg Utils.aspect].
  replace (Math_min (Num hi) (Num pv - Num 1)%js) with (Num (Rmin hi (pv - 1)))
    by (cbn; f_equal).
  destruct (truthy (Num ph) && (Num ph === Num 180)%js)%bool.
  - replace (Math_max (Num 1) (Num ph - Num 1)%js)
      with (Num (Rmax 1 (ph + - 1))) by reflexivity.
    rewrite hFovDegToVFovDeg_Num by lra.
    apply max_min_bounds; [apply min_with_Num_not_NaN |]; assumption.
  - apply max_min_bounds; assumption.
Qed.

Lemma Rtrunc_remainder (x y : R) :
  0 < y -> Rabs (x - y * IZR (Rtrunc (x / y))) < y.
Proof.
  intros Hy. unfold Rtrunc.
  assert (Hx : x = y * (x / y)) by (field; lra).
  destruct (Rle_dec 0 (x / y)) as [Hq | Hq].
  - destruct (base_Int_part (x / y)) as [H1 H2].
    apply Rabs_def1; nra.
  - destruct (base_Int_part (- (x / y))) as [H1 H2].
    rewrite opp_IZR. apply Rabs_def1; nra.
Qed.

End CameraMath.

Section CameraClaims.
Import JsNum.
Local Open Scope R_scope.

Lemma Math_min_NaN_r (c : jsnum) : Math_min c NaN = NaN.
Proof. destruct c; reflexivity. Qed.

Lemma Math_max_NaN_r (c : jsnum) : Math_max c NaN = NaN.
Proof. destruct c; reflexivity. Qed.

Lemma clampFov_NaN (a : Utils.FovArgs) : Utils.clampFov NaN a = NaN.
Proof.
  unfold Utils.clampFov.
  destruct (truthy _ && _)%bool; cbn [Math_min];
    rewrite Math_min_NaN_r; apply Math_max_NaN_r.
Qed.

Lemma clampYawPitch_NaN_pitch (yaw0 : jsnum) (a : Utils.YawPitchArgs) :
  Utils.pitch (Utils.clampYawPitch yaw0 NaN a) = NaN.
Proof.
  unfold Utils.clampYawPitch. cbn [Utils.pitch].
  rewrite Math_min_NaN_r. apply Math_max_NaN_r.
Qed.

Lemma clampYawPitch_NaN_yaw (pitch0 : jsnum) (a : Utils.YawPitchArgs) :
  Utils.yaw (Utils.clampYawPitch NaN pitch0 a) = NaN.
Proof.
  unfold Utils.clampYawPitch. cbn [Utils.yaw].
  destruct (_ === _)%js.
  - rewrite Math_min_NaN_r. apply Math_max_NaN_r.
  - reflexivity.
Qed.

(** The radian limit computed from two finite FOVs in degrees. *)
Lemma limit_Num (p c : R) :
  (((Num p - Num c) / Num 2) * (Math_PI / Num 180))%js
  = Num ((p + - c) / 2 * (PI / 180)).
Proof.
  unfold Math_PI. cbn [sub neg add].
  rewrite !div_Num by lra. reflexivity.
Qed.

Lemma symmetric_clamp (l v : R) :
  0 <= l ->
  exists x, Math_max (- Num l)%js (Math_min (Num l) (Num v)) = Num x
            /\ Rabs x <= l.
Proof.
  intros Hl. cbn. eexists. split; [reflexivity |].
  split_Rle_dec; apply Rabs_le; lra.
Qed.

(** Every input that is not NaN, the infinities included, is brought into
    the zoom bounds under either spherical projection. *)
Lemma clampFov_number_within_zoom_bounds
    (vFov : jsnum) (projection : string) (cw ch : N) :
  vFov <> NaN ->
  projection = "vr180"%string \/ projection = "vr360"%string ->
  exists x pv,
    Utils.clampFov vFov
      {| Utils.min := Render.VR_VFOV_MIN_DEG;
         Utils.max := Render.VR_VFOV_MAX_DEG;
         Utils.projVFovDeg := Render.geometry_vFov projection;
         Utils.projHFovDeg := Render.geometry_hFov projection;
         Utils.aspect := Utils.currentAspect cw ch |} = Num x
    /\ Render.geometry_vFov projection = Num pv
    /\ 20 <= x <= 179 /\ x < pv.
Proof.
  intros Hv Hp.
  destruct (currentAspect_positive cw ch) as (a & -> & Ha).
  assert (Hgeo : Render.geometry_vFov projection = Num 180
                 /\ exists ph, Render.geometry_hFov projection = Num ph).
  { destruct Hp as [-> | ->]; split; try reflexivity; eexists; reflexivity. }
  destruct Hgeo as (-> & ph & ->).
  unfold Render.VR_VFOV_MIN_DEG, Render.VR_VFOV_MAX_DEG.
  destruct (clampFov_finite_args vFov 20 179 180 ph a Hv Ha) as (x & Hx & Hb).
  { split_Rle_dec; lra. }
  exists x, 180. split; [exact Hx |]. split; [reflexivity |].
  assert (Rmin 179 (180 - 1) = 179) by (split_Rle_dec; lra).
  lra.
Qed.

(** C3, as stated, fails for the input NaN: under the renderer's zoom
    bounds for the full sphere on a 1280 by 720 canvas the result of
    [clampFov] is no number in [minFov, maxFov] = [20, 179] below the
    projection's vertical FOV. *)
Lemma clampFov_NaN_outside_zoom_bounds :
  ~ exists x pv,
      Utils.clampFov NaN
        {| Utils.min := Render.VR_VFOV_MIN_DEG;
           Utils.max := Render.VR_VFOV_MAX_DEG;
           Utils.projVFovDeg := Render.geometry_vFov "vr360";
           Utils.projHFovDeg := Render.geometry_hFov "vr360";
           Utils.aspect := Utils.currentAspect 1280 720 |} = Num x
      /\ Render.geometry_vFov "vr360" = Num pv
      /\ 20 <= x <= 179 /\ x < pv.
Proof.
  intros (x & pv & Hx & _). rewrite clampFov_NaN in Hx. discriminate.
Qed.

(** C3, amended: for every vertical field of view that is a number, finite
    or infinite, under either spherical projection (whose vertical FOV is
    180 degrees) and for every canvas size, [clampFov] with the renderer's
    zoom bounds returns a value in [minFov, maxFov] = [20, 179], strictly
    below the projection's vertical FOV; for the input NaN it returns
    NaN. *)
Theorem clampFov_within_zoom_bounds
    (vFov : jsnum) (projection : string) (cw ch : N) :
  projection = "vr180"%string \/ projection = "vr360"%string ->
  let args :=
    {| Utils.min := Render.VR_VFOV_MIN_DEG;
       Utils.max := Render.VR_VFOV_MAX_DEG;
       Utils.projVFovDeg := Render.geometry_vFov projection;
       Utils.projHFovDeg := Render.geometry_hFov projection;
       Utils.aspect := Utils.currentAspect cw ch |} in
  (is_NaN vFov = true -> Utils.clampFov vFov args = NaN)
  /\ (is_NaN vFov = false ->
      exists x pv,
        Utils.clampFov vFov args = Num x
        /\ Render.geometry_vFov projection = Num pv
        /\ 20 <= x <= 179 /\ x < pv).
Proof.
  intros Hp args. split.
  - intros Hv. destruct vFov; try discriminate Hv. apply clampFov_NaN.
  - intros Hv. apply clampFov_number_within_zoom_bounds; [| exact Hp].
    intros ->. discriminate Hv.
Qed.

Lemma clampFov_within_zoom_bounds_witness :
  (exists x pv,
     Utils.clampFov PosInf
       {| Utils.min := Render.VR_VFOV_MIN_DEG;
          Utils.max := Render.VR_VFOV_MAX_DEG;
          Utils.projVFovDeg := Render.geometry_vFov "vr180";
          Utils.projHFovDeg := Render.geometry_hFov "vr180";
          Utils.aspect := Utils.currentAspect 1280 720 |} = Num x
     /\ Render.geometry_vFov "vr180" = Num pv
     /\ 20 <= x <= 179 /\ x < pv)
  /\ exists x pv,
       Utils.clampFov (Num 200)
         {| Utils.min := Render.VR_VFOV_MIN_DEG;
            Utils.max := Render.VR_VFOV_MAX_DEG;
            Utils.projVFovDeg := Render.geometry_vFov "vr360";
            Utils.projHFovDeg := Render.geometry_hFov "vr360";
            Utils.aspect := Utils.currentAspect 1280 720 |} = Num x
       /\ Render.geometry_vFov "vr360" = Num pv
       /\ 20 <= x <= 179 /\ x < pv.
Proof.
  split.
  - apply (proj2 (clampFov_within_zoom_bounds PosInf "vr180" 1280 720
                    (or_introl eq_refl))).
    reflexivity.
  - apply (proj2 (clampFov_within_zoom_bounds (Num 200) "vr360" 1280 720
                    (or_intror eq_refl))).
    reflexivity.
Defined.

(** C4, as stated, fails: a NaN field of view is not coerced to a bound;
    the result of [clampFov] is NaN, not a finite value in range. *)
Lemma clampFov_NaN_not_coerced :
  ~ exists x,
      Utils.clampFov NaN
        {| Utils.min := Render.VR_VFOV_MIN_DEG;
           Utils.max := Render.VR_VFOV_MAX_DEG;
           Utils.projVFovDeg := Num 180;
           Utils.projHFovDeg := Num 180;
           Utils.aspect := Utils.currentAspect 1280 720 |} = Num x
      /\ 20 <= x <= 179.
Proof.
  intros (x & Hx & _). rewrite clampFov_NaN in Hx. discriminate.
Qed.

(** C4, amended: the clamps hand NaN through (a NaN field of view, yaw or
    pitch comes back as NaN, whatever the other arguments), and for every
    finite input with finite arguments the output is finite and within the
    valid range: the field of view within [min, min(max, projVFov - 1)],
    the pitch within the pitch limit, the yaw within the yaw limit under a
    180-degree horizontal span and strictly inside one turn otherwise. *)
Theorem clamps_pass_NaN_and_bound_finite
    (v y p lo hi pv ph cv chh a : R) :
  lo <= Rmin hi (pv - 1) -> 0 < a -> cv <= pv -> chh <= ph ->
  let fovArgs :=
    {| Utils.min := Num lo; Utils.max := Num hi;
       Utils.projVFovDeg := Num pv; Utils.projHFovDeg := Num ph;
       Utils.aspect := Num a |} in
  let ypArgs :=
    {| Utils.yp_projHFovDeg := Num ph; Utils.yp_projVFovDeg := Num pv;
       Utils.currentVFovDeg := Num cv; Utils.currentHFovDeg := Num chh |} in
  (forall args, Utils.clampFov NaN args = NaN)
  /\ (forall pitch0 args,
        Utils.yaw (Utils.clampYawPitch NaN pitch0 args) = NaN)
  /\ (forall yaw0 args,
        Utils.pitch (Utils.clampYawPitch yaw0 NaN args) = NaN)
  /\ (exists x, Utils.clampFov (Num v) fovArgs = Num x
                /\ lo <= x <= Rmin hi (pv - 1))
  /\ (exists x, Utils.pitch (Utils.clampYawPitch (Num y) (Num p) ypArgs) = Num x
                /\ Rabs x <= (pv - cv) / 2 * (PI / 180))
  /\ (exists x, Utils.yaw (Utils.clampYawPitch (Num y) (Num p) ypArgs) = Num x
                /\ (ph = 180 -> Rabs x <= (ph - chh) / 2 * (PI / 180))
                /\ (ph <> 180 -> Rabs x < 2 * PI)).
Proof.
  intros Hlo Ha Hcv Hch fovArgs ypArgs.
  pose proof PI_RGT_0 as Hpi.
  split; [exact clampFov_NaN |].
  split; [exact clampYawPitch_NaN_yaw |].
  split; [exact clampYawPitch_NaN_pitch |].
  split; [apply clampFov_finite_args; [discriminate | assumption ..] |].
  split.
  - unfold Utils.clampYawPitch, ypArgs.
    cbn [Utils.pitch Utils.yp_projVFovDeg Utils.currentVFovDeg].
    rewrite limit_Num.
    destruct (symmetric_clamp ((pv + - cv) / 2 * (PI / 180)) p) as (x & Hx & Hb).
    { apply Rmult_le_pos; [lra |]. apply Rlt_le, Rdiv_lt_0_compat; lra. }
    exists x. split; [exact Hx |].
    replace ((pv - cv) / 2 * (PI / 180)) with ((pv + - cv) / 2 * (PI / 180))
      by lra.
    exact Hb.
  - unfold Utils.clampYawPitch, ypArgs.
    cbn [Utils.yaw Utils.yp_projHFovDeg Utils.currentHFovDeg strict_eq].
    destruct (Req_dec_T ph 180) as [E | NE].
    + rewrite limit_Num.
      destruct (symmetric_clamp ((ph + - chh) / 2 * (PI / 180)) y)
        as (x & Hx & Hb).
      { apply Rmult_le_pos; [lra |]. apply Rlt_le, Rdiv_lt_0_compat; lra. }
      exists x. split; [exact Hx |]. split; [| intros; contradiction].
      intros _.
      replace ((ph - chh) / 2 * (PI / 180))
        with ((ph + - chh) / 2 * (PI / 180)) by lra.
      exact Hb.
    + unfold Math_PI. cbn [mul rem].
      destruct (Req_dec_T (2 * PI) 0) as [E0 | _]; [lra |].
      eexists. split; [reflexivity |]. split; [intros; contradiction |].
      intros _. apply Rtrunc_remainder. lra.
Qed.

Lemma clamps_pass_NaN_and_bound_finite_witness :
  (forall args, Utils.clampFov NaN args = NaN)
  /\ exists x,
       Utils.clampFov (Num 200)
         {| Utils.min := Num 20; Utils.max := Num 179;
            Utils.projVFovDeg := Num 180; Utils.projHFovDeg := Num 360;
            Utils.aspect := Num 2 |} = Num x
       /\ 20 <= x <= Rmin 179 (180 - 1).
Proof.
  assert (H1 : 20 <= Rmin 179 (180 - 1)) by (split_Rle_dec; lra).
  assert (H2 : 0 < 2) by lra.
  assert (H3 : 100 <= 180) by lra.
  assert (H4 : 120 <= 360) by lra.
  destruct (clamps_pass_NaN_and_bound_finite 200 0 0 20 179 180 360 100 120 2
              H1 H2 H3 H4) as (HN & _ & _ & HF & _).
  split; [exact HN | exact HF].
Defined.

(** Over the reals the two conversions are inverse to each other: for a
    vertical FOV in (0, 180) degrees and a positive aspect ratio the way to
    the horizontal FOV and back is the identity.  The binary64
    computation is the subject of the next section. *)
Lemma fov_round_trip_exact (v a : R) :
  0 < v < 180 -> 0 < a ->
  Utils.hFovDegToVFovDeg (Utils.vFovDegToHFovDeg (Num v) (Num a)) (Num a)
  = Num v.
Proof.
  intros Hv Ha. pose proof PI_RGT_0 as Hpi.
  rewrite vFovDegToHFovDeg_Num, hFovDegToVFovDeg_Num by lra.
  f_equal.
  set (th := PI / 180 * (v / 2)).
  assert (Hth : - (PI / 2) < th < PI / 2) by (unfold th; split; nra).
  replace (PI / 180 * (2 * (180 / PI) * atan (tan th * a) / 2))
    with (atan (tan th * a)) by (field; lra).
  rewrite tan_atan.
  replace (tan th * a / a) with (tan th) by (field; lra).
  rewrite atan_tan by exact Hth.
  unfold th. field. lra.
Qed.

End CameraClaims.

(* ===================================================================== *)
(** * The field-of-view conversions in binary64 arithmetic *)
(* ===================================================================== *)

Section RoundTrip.
Import Floats UtilsDouble.
Local Open Scope float_scope.

Lemma N_range_In (lo hi n : N) :
  (lo <= n <= hi)%N -> In n (N_range lo hi).
Proof.
  intros H. unfold N_range. apply in_map_iff.
  exists (N.to_nat n). split; [apply N2Nat.id |].
  apply in_seq. lia.
Qed.

(** What [round_trip_holds] says about a single input. *)
Lemma round_trip_holds_at (trip : float -> float -> option float)
    (k cw ch : N) :
  round_trip_holds trip = true ->
  (1 <= k <= 359)%N -> In (cw, ch) canvas_sizes ->
  exists r,
    trip (half_degrees k) (currentAspect cw ch) = Some r
    /\ within tolerance r (half_degrees k) = true.
Proof.
  intros Hall Hk Hs. unfold round_trip_holds in Hall.
  rewrite forallb_forall in Hall.
  specialize (Hall (half_degrees k)
                (in_map half_degrees _ _ (N_range_In 1 359 k Hk))).
  rewrite forallb_forall in Hall.
  specialize (Hall (currentAspect cw ch)
                (in_map (fun s => currentAspect (fst s) (snd s)) _ _ Hs)).
  destruct (trip _ _) as [r |]; [| discriminate].
  exists r. split; [reflexivity | exact Hall].
Qed.




End RoundTrip.

(* ===================================================================== *)
(** * Properties of the detector *)
(* ===================================================================== *)

Section DetectorClaims.
Import JsString QNum Detector.
Local Open Scope string_scope.

(** ** Comparisons of [qnum] against their rational meaning *)

Lemma qle_QNum (x y : Q) : qle (QNum x) (QNum y) = true <-> (x <= y)%Q.
Proof. cbn. apply Qle_bool_iff. Qed.

Lemma qgt_zero (x : Q) : qgt (QNum x) (QNum 0) = true <-> (0 < x)%Q.
Proof.
  unfold qgt, qlt. rewrite negb_true_iff.
  split.
  - intros H. apply Qnot_le_lt. intros Hle.
    apply Qle_bool_iff in Hle. congruence.
  - intros H. destruct (Qle_bool x 0) eqn:E; [| reflexivity].
    apply Qle_bool_iff in E. exfalso. exact (Qlt_not_le _ _ H E).
Qed.

Lemma qdiv_QNum (x y : Q) : (0 < y)%Q -> qdiv (QNum x) (QNum y) = QNum (x / y).
Proof.
  intros Hy. unfold qdiv.
  destruct (Qeq_bool y 0) eqn:E; [| reflexivity].
  apply Qeq_bool_iff in E. rewrite E in Hy. exfalso. exact (Qlt_irrefl _ Hy).
Qed.

(** The aspect ratio of a frame with a non-zero height. *)
Lemma aspectRatio_QNum (v : Video) :
  videoHeight v <> 0%N ->
  aspectRatio v
  = QNum (inject_Z (Z.of_N (videoWidth v)) / inject_Z (Z.of_N (videoHeight v))).
Proof.
  intros Hh. unfold aspectRatio, of_N. apply qdiv_QNum.
  change 0%Q with (inject_Z 0). rewrite <- Zlt_Qlt. lia.
Qed.

(** ** Layout *)

Lemma layout_from_tracks_method (tracks : list Track) (r : Result) :
  layout_from_tracks tracks = Some r -> method r = "metadata".
Proof.
  induction tracks as [| t rest IH]; [discriminate |]. cbn.
  destruct (_ || _); [intros [= <-]; reflexivity |].
  destruct (_ || _); [intros [= <-]; reflexivity |].
  exact IH.
Qed.

(** C7, as stated, fails: for a 3840 by 1080 video (aspect ratio above
    2.8) without stereo metadata and without a keyword in its name the
    layout is sbs, but the method returned is the string resolution, not
    resolution-inference. *)
Lemma detectLayout_method_is_not_resolution_inference :
  let s := {| video := {| videoTracks := Some [ {| stereoMode := None |} ];
                          videoWidth := 3840; videoHeight := 1080 |};
              name := "holiday.mp4"; layout := "ou" |} in
  layout_from_tracks (tracks_of s) = None
  /\ some_included SBS_KEYWORDS (toUpperCase (name s)) = false
  /\ some_included OU_KEYWORDS (toUpperCase (name s)) = false
  /\ qge (aspectRatio (video s)) (QNum (28 # 10)) = true
  /\ detectLayout s <> {| value := "sbs"; method := "resolution-inference" |}
  /\ method (detectLayout s) = "resolution".
Proof.
  cbv zeta. repeat (split; [reflexivity |]).
  split; [| reflexivity]. vm_compute. discriminate.
Qed.

(** C7, amended: when no track declares a stereo mode and the upper-cased
    file name (an ASCII name) contains no SBS or OU keyword, an aspect
    ratio width/height of at least 2.8 gives layout sbs and one of at most
    1.12 gives layout ou, both with the method spelled resolution.  For a
    frame of non-zero height the two comparisons are those of the rational
    width/height.  Whatever the snapshot, the method returned is one of
    metadata, filename, resolution and default. *)
Theorem detectLayout_by_aspect_ratio (s : Snapshot) :
  isAscii (name s) = true ->
  layout_from_tracks (tracks_of s) = None ->
  some_included SBS_KEYWORDS (toUpperCase (name s)) = false ->
  some_included OU_KEYWORDS (toUpperCase (name s)) = false ->
  let a := aspectRatio (video s) in
  let w := inject_Z (Z.of_N (videoWidth (video s))) in
  let h := inject_Z (Z.of_N (videoHeight (video s))) in
  (qge a (QNum (28 # 10)) = true ->
     detectLayout s = {| value := "sbs"; method := "resolution" |})
  /\ (qle a (QNum (112 # 100)) = true ->
     detectLayout s = {| value := "ou"; method := "resolution" |})
  /\ (videoHeight (video s) <> 0%N ->
      (qge a (QNum (28 # 10)) = true <-> (28 # 10 <= w / h)%Q)
      /\ (qle a (QNum (112 # 100)) = true <-> (w / h <= 112 # 100)%Q))
  /\ (forall s' : Snapshot,
        In (method (detectLayout s'))
           [ "metadata"; "filename"; "resolution"; "default" ]).
Proof.
  intros _ Htracks Hsbs Hou a w h.
  assert (Hexcl : qle a (QNum (112 # 100)) = true ->
                  qge a (QNum (28 # 10)) = false).
  { unfold qge. destruct a as [ | | q | ]; cbn; try discriminate;
      try reflexivity.
    intros H1. destruct (Qle_bool (28 # 10) q) eqn:H2; [| reflexivity].
    apply Qle_bool_iff in H1, H2. exfalso.
    assert (H : (28 # 10 <= 112 # 100)%Q) by (eapply Qle_trans; eassumption).
    revert H. unfold Qle. cbn. lia. }
  split; [| split; [| split]].
  - unfold detectLayout. cbv zeta. rewrite Htracks, Hsbs, Hou. fold a.
    intros Ha. rewrite Ha. reflexivity.
  - unfold detectLayout. cbv zeta. rewrite Htracks, Hsbs, Hou. fold a.
    intros Ha. rewrite (Hexcl Ha), Ha. reflexivity.
  - intros Hh. unfold a. rewrite (aspectRatio_QNum _ Hh). fold w h.
    unfold qge. split; apply qle_QNum.
  - clear. intros s'. unfold detectLayout. cbv zeta.
    destruct (layout_from_tracks (tracks_of s')) as [r |] eqn:E.
    { rewrite (layout_from_tracks_method _ _ E). left. reflexivity. }
    destruct (some_included SBS_KEYWORDS _); [right; left; reflexivity |].
    destruct (some_included OU_KEYWORDS _); [right; left; reflexivity |].
    destruct (qge _ _); [right; right; left; reflexivity |].
    destruct (qle _ _); [right; right; left; reflexivity |].
    right; right; right; left; reflexivity.
Qed.

Lemma detectLayout_by_aspect_ratio_witness :
  detectLayout
    {| video := {| videoTracks := Some [ {| stereoMode := None |} ];
                   videoWidth := 3840; videoHeight := 1080 |};
       name := "holiday.mp4"; layout := "ou" |}
  = {| value := "sbs"; method := "resolution" |}.
Proof.
  refine (proj1 (detectLayout_by_aspect_ratio
    {| video := {| videoTracks := Some [ {| stereoMode := None |} ];
                   videoWidth := 3840; videoHeight := 1080 |};
       name := "holiday.mp4"; layout := "ou" |} _ _ _ _) _);
    reflexivity.
Defined.

End DetectorClaims.

(** ** XMP classification *)

Section XmpLookups.
Import JsString Detector.
Local Open Scope string_scope.

(** *** Strings *)

Lemma append_nil_l (b : string) : "" ++ b = b.
Proof. reflexivity. Qed.

Lemma append_cons (x : ascii) (a b : string) :
  String x a ++ b = String x (a ++ b).
Proof. reflexivity. Qed.

Lemma append_assoc_s (a b c : string) : (a ++ b) ++ c = a ++ (b ++ c).
Proof.
  induction a as [| x a IH]; [reflexivity|].
  rewrite !append_cons, IH. reflexivity.
Qed.

Lemma if_same {A : Type} (b : bool) (x : A) : (if b then x else x) = x.
Proof. destruct b; reflexivity. Qed.








(** *** The element expression *)



















(** *** The attribute expression *)
























End XmpLookups.

Section XmpClaims.
Import JsString Detector.
Local Open Scope string_scope.



(** A document, as the packet spells it. *)
Example xmp_document_text :
  xmp_document " " ""
    [ {| field_name := "GPano:FullPanoWidthPixels"; field_text := "3840" |} ]
    [ {| field_name := "GPano:ProjectionType";
         field_text := "equirectangular" |} ]
  = "<x:xmpmeta><rdf:Description GPano:FullPanoWidthPixels="
    ++ String dquote ("3840" ++ String dquote
         "><GPano:ProjectionType>equirectangular</GPano:ProjectionType></rdf:Description></x:xmpmeta>").
Proof. reflexivity. Qed.

(** The sample classifications of the specification, run on the model. *)
Example xmp_half_sphere :
  _classifyFromXmp (xmp_packet "3840" "1920" "1920" "1920") = Some "vr180".
Proof. vm_compute. reflexivity. Qed.

Example xmp_half_sphere_attr :
  _classifyFromXmp (xmp_packet_attr "3840" "1920" "1920" "1920") = Some "vr180".
Proof. vm_compute. reflexivity. Qed.

Example xmp_full_sphere :
  _classifyFromXmp (xmp_packet "3840" "1920" "3840" "1920") = Some "vr360".
Proof. vm_compute. reflexivity. Qed.

Example xmp_missing_dimensions :
  _classifyFromXmp (xmp_packet "" "" "1920" "1920") = Some "vr360".
Proof. vm_compute. reflexivity. Qed.

Example xmp_negative_panorama :
  _classifyFromXmp (xmp_packet "-3840" "-1920" "-1920" "-1920") = Some "vr360".
Proof. vm_compute. reflexivity. Qed.

Example xmp_no_projection_type :
  _classifyFromXmp "<x:xmpmeta><rdf:Description/></x:xmpmeta>" = None.
Proof. vm_compute. reflexivity. Qed.

Example xmp_cubemap :
  _classifyFromXmp
    "<x:xmpmeta><GSpherical:ProjectionType>cubemap</GSpherical:ProjectionType></x:xmpmeta>"
  = None.
Proof. vm_compute. reflexivity. Qed.

(** Rounding decides at the edges: a full width that underflows to zero is
    not positive, and a cropped width of 48999999999999999 is the binary64
    value 49000000000000000, whose ratio to 1e17 is the literal 0.49. *)
Example xmp_underflowing_width :
  _classifyFromXmp (xmp_packet "1e-400" "1920" "5e-401" "1920") = Some "vr360".
Proof. vm_compute. reflexivity. Qed.

Example xmp_rounded_width :
  _classifyFromXmp
    (xmp_packet "100000000000000000" "1920" "48999999999999999" "1920")
  = Some "vr180".
Proof. vm_compute. reflexivity. Qed.

End XmpClaims.

(* ===================================================================== *)
(** * Properties of the EBML reader *)
(* ===================================================================== *)

Section MkvClaims.
Import Mkv.
Local Open Scope Z_scope.

Lemma byte_value_range (b : Byte.byte) : 0 <= byte_value b < 256.
Proof. destruct b; vm_compute; split; congruence. Qed.

(** The marker scan on every leading byte: a zero byte runs the width up
    to 9; otherwise the width counts from the most significant bit down to
    the highest set bit, and the mask is that bit. *)
Lemma scan_marker_byte (b : Byte.byte) :
  scan_marker 8 (byte_value b) 128 1
  = if byte_value b =? 0 then (0, 9)
    else (2 ^ Z.log2 (byte_value b), 8 - Z.log2 (byte_value b)).
Proof. destruct b; vm_compute; reflexivity. Qed.

(** Eight rounds are all the loop can take. *)
Lemma scan_marker_fuel (b : Byte.byte) (k : nat) :
  scan_marker (8 + k) (byte_value b) 128 1 = scan_marker 8 (byte_value b) 128 1.
Proof. destruct k; destruct b; reflexivity. Qed.

Lemma masked_leading_byte (b : Byte.byte) :
  byte_value b <> 0 ->
  Z.land (byte_value b) (Z.lnot (2 ^ Z.log2 (byte_value b)))
  = byte_value b - 2 ^ (8 - (8 - Z.log2 (byte_value b))).
Proof. destruct b; vm_compute; congruence. Qed.

Lemma log2_byte (b : Byte.byte) :
  byte_value b <> 0 ->
  0 <= Z.log2 (byte_value b) <= 7
  /\ 2 ^ Z.log2 (byte_value b) <= byte_value b < 2 ^ (Z.log2 (byte_value b) + 1).
Proof.
  intros Hb. pose proof (byte_value_range b) as Hr.
  assert (Hpos : 0 < byte_value b) by lia.
  pose proof (Z.log2_spec _ Hpos) as Hs.
  pose proof (Z.log2_nonneg (byte_value b)) as Hn.
  split; [| rewrite <- Z.add_1_r in Hs; exact Hs].
  split; [exact Hn |].
  destruct (Z_le_gt_dec (Z.log2 (byte_value b)) 7) as [Hle | Hgt]; [exact Hle |].
  exfalso.
  assert (2 ^ 8 <= 2 ^ Z.log2 (byte_value b)) by (apply Z.pow_le_mono_r; lia).
  change (2 ^ 8) with 256 in *. lia.
Qed.

Lemma getUint8_inside (dv : list Byte.byte) (pos : Z) :
  0 <= pos < byteLength dv ->
  exists b, nth_error dv (Z.to_nat pos) = Some b
            /\ getUint8 dv pos = Some (byte_value b).
Proof.
  intros [H0 H1]. unfold getUint8.
  rewrite (proj2 (Z.leb_le 0 pos) H0), (proj2 (Z.ltb_lt pos _) H1).
  destruct (nth_error dv (Z.to_nat pos)) as [b |] eqn:E.
  - exists b. split; reflexivity.
  - apply nth_error_None in E. unfold byteLength in H1. lia.
Qed.

Lemma skipn_nth_error {A : Type} (l : list A) (k : nat) (x : A) :
  nth_error l k = Some x -> skipn k l = x :: skipn (S k) l.
Proof.
  revert k. induction l as [| a l IH]; intros [| k] H; try discriminate.
  - injection H as ->. reflexivity.
  - cbn in H. apply IH in H. exact H.
Qed.

Lemma toInt32_small (z : Z) : - 2 ^ 31 <= z < 2 ^ 31 -> toInt32 z = z.
Proof.
  intros H. unfold toInt32. rewrite Z.mod_small; lia.
Qed.

(** Or-ing a byte into the low eight bits of a shifted value adds it. *)
Lemma lor_shifted_byte (v x : Z) :
  0 <= v -> 0 <= x < 256 -> Z.lor (Z.shiftl v 8) x = v * 256 + x.
Proof.
  intros Hv Hx.
  rewrite Z.shiftl_mul_pow2 by lia. change (2 ^ 8) with 256.
  assert (Hland : Z.land (v * 256) x = 0).
  { apply Z.bits_inj'. intros n Hn. rewrite Z.land_spec, Z.bits_0.
    destruct (Z_lt_ge_dec n 8) as [Hlt | Hge].
    - change 256 with (2 ^ 8). rewrite Z.mul_pow2_bits_low by lia. reflexivity.
    - destruct (Z.eq_dec x 0) as [-> | Hx0].
      + rewrite Z.bits_0. apply andb_false_r.
      + rewrite (Z.bits_above_log2 x n); [apply andb_false_r | lia |].
        apply Z.log2_lt_pow2; [lia |].
        assert (2 ^ 8 <= 2 ^ n) by (apply Z.pow_le_mono_r; lia).
        change (2 ^ 8) with 256 in *. lia. }
  rewrite <- Z.lxor_lor by exact Hland.
  symmetry. apply Z.add_nocarry_lxor. exact Hland.
Qed.

(** While nothing overflows 31 bits, the loop builds the big-endian
    integer of the bytes it reads. *)
Lemma read_tail_no_overflow (dv : list Byte.byte) (pos : Z) (n : nat) :
  forall (i v : Z),
    0 <= pos -> 0 <= i -> pos + i + Z.of_nat n <= byteLength dv ->
    0 <= v -> (v + 1) * 256 ^ Z.of_nat n <= 2 ^ 31 ->
    read_tail dv pos n i v
    = Some (big_endian_from v
              (map byte_value (firstn n (skipn (Z.to_nat (pos + i)) dv)))).
Proof.
  induction n as [| n IH]; intros i v Hpos Hi Hlen Hv Hb.
  - reflexivity.
  - cbn [read_tail].
    destruct (getUint8_inside dv (pos + i)) as (b & Hnth & Hget); [lia |].
    rewrite Hget.
    pose proof (byte_value_range b) as Hr.
    assert (Hpow : 256 ^ Z.of_nat (S n) = 256 * 256 ^ Z.of_nat n).
    { rewrite Nat2Z.inj_succ, Z.pow_succ_r by lia. reflexivity. }
    assert (Hp : 0 < 256 ^ Z.of_nat n) by (apply Z.pow_pos_nonneg; lia).
    rewrite Hpow in Hb.
    assert (Hsmall : v * 256 + byte_value b + 1 <= 2 ^ 31) by nia.
    rewrite (toInt32_small (Z.shiftl v 8))
      by (rewrite Z.shiftl_mul_pow2 by lia; change (2 ^ 8) with 256; lia).
    rewrite lor_shifted_byte by lia.
    rewrite toInt32_small by lia.
    rewrite IH; try lia; [| nia].
    rewrite (skipn_nth_error dv _ b Hnth). cbn [firstn map].
    replace (Z.to_nat (pos + (i + 1))) with (S (Z.to_nat (pos + i))) by lia.
    reflexivity.
Qed.

(** Inside the buffer the loop never reads out of range. *)
Lemma read_tail_total (dv : list Byte.byte) (pos : Z) (n : nat) :
  forall (i v : Z),
    0 <= pos -> 0 <= i -> pos + i + Z.of_nat n <= byteLength dv ->
    exists v', read_tail dv pos n i v = Some v'.
Proof.
  induction n as [| n IH]; intros i v Hpos Hi Hlen.
  - eexists. reflexivity.
  - cbn [read_tail].
    destruct (getUint8_inside dv (pos + i)) as (b & _ & Hget); [lia |].
    rewrite Hget. apply IH; lia.
Qed.

(** What [readVint] does at a position inside the buffer, by the leading
    byte found there. *)
Lemma readVint_inside (dv : list Byte.byte) (pos : Z) (forId : bool)
    (b : Byte.byte) :
  0 <= pos < byteLength dv ->
  nth_error dv (Z.to_nat pos) = Some b ->
  let first := byte_value b in
  let w := 8 - Z.log2 first in
  if (first =? 0) || (pos + w >? byteLength dv) then
    readVint dv pos forId = Returned None
  else
    exists v,
      readVint dv pos forId = Returned (Some {| value := v; width := w |})
      /\ read_tail dv pos (Z.to_nat (w - 1)) 1
           (if forId then first else first - 2 ^ (8 - w)) = Some v.
Proof.
  intros Hpos Hnth first w.
  destruct (getUint8_inside dv pos Hpos) as (b' & Hnth' & Hget).
  rewrite Hnth in Hnth'. injection Hnth' as <-.
  unfold readVint. rewrite Hget.
  assert (Hge : (pos >=? byteLength dv) = false) by (rewrite Z.geb_leb; apply Z.leb_gt; lia).
  rewrite Hge, scan_marker_byte. fold first.
  destruct (first =? 0) eqn:E0.
  - reflexivity.
  - apply Z.eqb_neq in E0. fold w.
    destruct (log2_byte b E0) as (Hlog & _). fold first in Hlog.
    assert (Hw : (w >? 8) = false) by (rewrite Z.gtb_ltb; apply Z.ltb_ge; unfold w; lia).
    rewrite Hw. cbn [orb].
    destruct (pos + w >? byteLength dv) eqn:Elen; [reflexivity |].
    rewrite Z.gtb_ltb in Elen. apply Z.ltb_ge in Elen.
    replace (if forId then first else Z.land first (Z.lnot (2 ^ Z.log2 first)))
      with (if forId then first else first - 2 ^ (8 - w))
      by (destruct forId; [reflexivity |];
          symmetry; apply masked_leading_byte; exact E0).
    destruct (read_tail_total dv pos (Z.to_nat (w - 1)) 1
                (if forId then first else first - 2 ^ (8 - w)))
      as (v & Hv); [lia | lia | unfold w in *; lia |].
    rewrite Hv. exists v. split; reflexivity.
Qed.

(** For a position inside the buffer [readVint] returns; it returns null
    exactly when the leading byte is zero (no marker bit within eight
    bits) or the integer would run past the end of the buffer. *)
Lemma readVint_null_iff (dv : list Byte.byte) (pos : Z) (forId : bool)
    (b : Byte.byte) :
  0 <= pos < byteLength dv ->
  nth_error dv (Z.to_nat pos) = Some b ->
  readVint dv pos forId <> Thrown
  /\ (readVint dv pos forId = Returned None
      <-> byte_value b = 0
          \/ byteLength dv < pos + (8 - Z.log2 (byte_value b))).
Proof.
  intros Hpos Hnth.
  pose proof (readVint_inside dv pos forId b Hpos Hnth) as H. cbv zeta in H.
  destruct (byte_value b =? 0) eqn:E0; cbn [orb] in H.
  - apply Z.eqb_eq in E0. rewrite H. split; [discriminate |].
    split; [intros _; left; exact E0 | reflexivity].
  - apply Z.eqb_neq in E0.
    destruct (pos + (8 - Z.log2 (byte_value b)) >? byteLength dv) eqn:E1.
    + rewrite Z.gtb_ltb in E1. apply Z.ltb_lt in E1. rewrite H.
      split; [discriminate |].
      split; [intros _; right; exact E1 | reflexivity].
    + rewrite Z.gtb_ltb in E1. apply Z.ltb_ge in E1.
      destruct H as (v & -> & _). split; [discriminate |].
      split; [discriminate | intros [H0 | H1]; [contradiction | lia]].
Qed.

(** Past the end of the buffer [readVint] returns null. *)
Lemma readVint_past_end (dv : list Byte.byte) (pos : Z) (forId : bool) :
  byteLength dv <= pos -> readVint dv pos forId = Returned None.
Proof.
  intros H. unfold readVint.
  assert (Hge : (pos >=? byteLength dv) = true)
    by (rewrite Z.geb_leb; apply Z.leb_le; exact H).
  rewrite Hge. reflexivity.
Qed.

(** A decoded integer has the width given by the highest set bit of its
    leading byte, between 1 and 8; and when the width is at most 4 its
    value is the big-endian integer of the leading byte (whole for an ID,
    without the marker for a size) and the continuation bytes. *)
Lemma readVint_width_and_narrow_value (dv : list Byte.byte) (pos : Z)
    (forId : bool) (b : Byte.byte) (r : Vint) :
  0 <= pos < byteLength dv ->
  nth_error dv (Z.to_nat pos) = Some b ->
  readVint dv pos forId = Returned (Some r) ->
  width r = 8 - Z.log2 (byte_value b)
  /\ 1 <= width r <= 8
  /\ (width r <= 4 ->
      value r
      = big_endian_from (leading (byte_value b) (width r) forId)
          (continuation dv pos (width r))).
Proof.
  intros Hpos Hnth Hr.
  pose proof (readVint_inside dv pos forId b Hpos Hnth) as H. cbv zeta in H.
  destruct (byte_value b =? 0) eqn:E0; cbn [orb] in H;
    [rewrite H in Hr; discriminate |].
  apply Z.eqb_neq in E0.
  destruct (pos + (8 - Z.log2 (byte_value b)) >? byteLength dv) eqn:E1;
    [rewrite H in Hr; discriminate |].
  rewrite Z.gtb_ltb in E1. apply Z.ltb_ge in E1.
  destruct H as (v & Hv & Htail). rewrite Hv in Hr. injection Hr as <-.
  cbn [width value].
  destruct (log2_byte b E0) as (Hlog & Hlo & Hhi).
  split; [reflexivity |]. split; [lia |].
  intros Hw. set (L := Z.log2 (byte_value b)) in *.
  assert (HL : L = 4 \/ L = 5 \/ L = 6 \/ L = 7) by lia.
  unfold leading, continuation.
  rewrite read_tail_no_overflow in Htail.
  - injection Htail as <-. reflexivity.
  - lia.
  - lia.
  - lia.
  - destruct forId; [lia |].
    replace (8 - (8 - L)) with L by lia. lia.
  - assert (Hlead : (if forId then byte_value b
                     else byte_value b - 2 ^ (8 - (8 - L))) + 1 <= 2 ^ (L + 1)).
    { destruct forId; [lia |].
      replace (8 - (8 - L)) with L by lia.
      assert (0 < 2 ^ L) by (apply Z.pow_pos_nonneg; lia). lia. }
    rewrite Z2Nat.id by lia.
    destruct HL as [HL | [HL | [HL | HL]]]; rewrite HL in *;
      cbn in Hlead |- *; lia.
Qed.

(** C6 at a failing input: the eight-byte size 01 00 00 00 80 00 00 00 is
    read with width 8, but its value comes out as -2147483648, whereas the
    big-endian integer of its data bits is 2147483648: the shift and the
    or work on 32-bit signed integers. *)
Theorem readVint_wide_value_wraps :
  readVint segment_size_2GiB 0 false
  = Returned (Some {| value := -2147483648; width := 8 |})
  /\ big_endian_from (leading 1 8 false) (continuation segment_size_2GiB 0 8)
     = 2147483648.
Proof. split; vm_compute; reflexivity. Qed.

End MkvClaims.

(* ===================================================================== *)
(** * Properties of the anaglyph shaders *)
(* ===================================================================== *)

Section ShaderClaims.
Import Shaders.
Local Open Scope R_scope.

Lemma clamp_inside (x lo hi : R) : lo <= x <= hi -> clamp x lo hi = x.
Proof.
  intros [H1 H2]. unfold clamp. split_Rle_dec; lra.
Qed.

Lemma step_below (edge x : R) : x < edge -> step edge x = 0.
Proof. intros H. unfold step. destruct (Rlt_dec x edge); [reflexivity | lra]. Qed.

Lemma step_above (edge x : R) : edge <= x -> step edge x = 1.
Proof. intros H. unfold step. destruct (Rlt_dec x edge); [lra | reflexivity]. Qed.

Lemma pow_one (y : R) : pow 1 y = 1.
Proof.
  unfold pow. destruct (Req_dec_T 1 0) as [E | _]; [lra |].
  unfold Rpower. rewrite ln_1, Rmult_0_r. apply exp_0.
Qed.

(** Raising a number of (0, 1) to a power of (0, 1) makes it larger. *)
Lemma pow_root_above (c y : R) : 0 < c < 1 -> 0 < y < 1 -> c < pow c y.
Proof.
  intros [Hc0 Hc1] [Hy0 Hy1]. unfold pow.
  destruct (Req_dec_T c 0) as [E | _]; [lra |].
  unfold Rpower.
  assert (Hln : ln c < 0) by (rewrite <- ln_1; apply ln_increasing; lra).
  rewrite <- (exp_ln c Hc0) at 1.
  apply exp_increasing. nra.
Qed.

Lemma sRGBToLinear1_zero : sRGBToLinear1 0 = 0.
Proof.
  unfold sRGBToLinear1. rewrite step_below by lra. unfold mix. field.
Qed.

Lemma sRGBToLinear1_one : sRGBToLinear1 1 = 1.
Proof.
  unfold sRGBToLinear1. rewrite step_above by lra. unfold mix.
  replace ((1 + 55 / 1000) / (1055 / 1000)) with 1 by field.
  rewrite pow_one. field.
Qed.

(** The encoded value of a linear level in (0.0031308, 1) exceeds a
    linear bound. *)
Lemma linearToSRGB1_lower (c : R) :
  31308 / 10000000 <= c < 1 ->
  Rmin ((1055 / 1000) * c - 55 / 1000) 1 <= linearToSRGB1 c.
Proof.
  intros [H1 H2]. unfold linearToSRGB1.
  assert (Hmax : Rmax c 0 = c) by (split_Rle_dec; lra).
  rewrite Hmax, step_above by lra.
  assert (Hp : c < pow c (1 / (24 / 10))) by (apply pow_root_above; lra).
  unfold mix.
  replace (1292 / 100 * c * (1 - 1) + (1055 / 1000 * pow c (1 / (24 / 10)) - 55 / 1000) * 1)
    with (1055 / 1000 * pow c (1 / (24 / 10)) - 55 / 1000) by ring.
  unfold clamp. split_Rle_dec; lra.
Qed.

Lemma dubois_green_of_right_red :
  34 / 100 <= g (rgb (dubois_color black pure_red)).
Proof.
  unfold dubois_color, sRGBToLinear, linearToSRGB, map3, black, pure_red.
  cbn [rgb r g b]. rewrite sRGBToLinear1_zero, sRGBToLinear1_one.
  unfold clamp3, add3, mul_mat3, scale3, map3, add3, ML, MR.
  cbn [r g b col0 col1 col2].
  match goal with |- _ <= linearToSRGB1 (clamp ?x 0 1) =>
    replace x with (378476 / 1000000) by field end.
  rewrite clamp_inside by lra.
  eapply Rle_trans; [| apply linearToSRGB1_lower; lra].
  split_Rle_dec; lra.
Qed.

Lemma anaglyph_green_of_right_red :
  g (rgb (anaglyph_color neutral black pure_red 1)) = 0.
Proof.
  unfold anaglyph_color, neutral, black, pure_red, clamp3, scale3, map3.
  cbn [rgb r g b uAntiRed uAntiGreen uAntiBlue uGreenBalance].
  match goal with |- clamp ?x 0 1 * 1 = 0 =>
    replace x with 0 by (unfold Rdiv; ring) end.
  rewrite clamp_inside by lra. ring.
Qed.

(** C1, as stated, fails: with every leak-suppression value 0 and
    greenBalance 0.5, for a black left texel and a pure red right texel the
    shader outputs no green, while the Dubois composite of the same texels
    has a green level above 0.34. *)
Lemma anaglyph_output_is_not_dubois :
  anaglyph_color neutral black pure_red 1 <> dubois_color black pure_red.
Proof.
  intros H.
  pose proof dubois_green_of_right_red as Hd.
  rewrite <- H, anaglyph_green_of_right_red in Hd. lra.
Qed.

(** C1, amended: the shader composites the two sampled texels directly in
    display-encoded colour, without gamma decoding and without the Dubois
    matrices.  With every leak-suppression value 0 and greenBalance 0.5,
    for every pair of eye samples, the output is
    (clamp(L.r + 0.25 L.g), 0.75 R.g, R.b) clamped to [0, 1] and multiplied
    by the edge fade, with alpha 1. *)
Theorem anaglyph_neutral_calibration (leftRGB rightRGB : vec3) (fade : R) :
  anaglyph_color neutral leftRGB rightRGB fade
  = {| rgb :=
         scale3
           (clamp3 {| r := clamp (r leftRGB + g leftRGB * (1 / 4)) 0 1;
                      g := g rightRGB * (3 / 4);
                      b := b rightRGB |} 0 1)
           fade;
       alpha := 1 |}.
Proof.
  unfold anaglyph_color, neutral.
  cbn [uAntiRed uAntiGreen uAntiBlue uGreenBalance].
  rewrite (clamp_inside 0 0 1), (clamp_inside (1 / 2) 0 1) by lra.
  assert (Hgain : forall l, 1 / Rmax (1 / 100) (1 - 0 * (5 / 10) * l) = 1).
  { intros l. replace (1 - 0 * (5 / 10) * l) with 1 by ring.
    split_Rle_dec; [field | lra]. }
  rewrite !Hgain.
  unfold clamp3, scale3, map3. cbn [r g b].
  replace (1 / 2 * (5 / 10)) with (1 / 4) by field.
  replace (1 - 0 * (5 / 10)) with 1 by ring.
  replace (1 - 1 / 4) with (3 / 4) by field.
  rewrite !Rmult_1_r. reflexivity.
Qed.

End ShaderClaims.

(* ===================================================================== *)
(** * Properties of the renderer *)
(* ===================================================================== *)

Section RenderClaims.
Import Render.
Local Open Scope string_scope.

(** ** Uniform updates *)

Lemma set_present_other (key k : string) (v : uvalue) (u : gmap string uvalue) :
  key <> k -> set_present key v u !! k = u !! k.
Proof.
  intros Hne. unfold set_present.
  destruct (u !! key); [apply lookup_insert_ne; exact Hne | reflexivity].
Qed.

Lemma update_uniforms_other (s : State) (u : gmap string uvalue) (k : string) :
  k ∉ updated_keys -> update_uniforms s u !! k = u !! k.
Proof.
  intros Hk. unfold update_uniforms.
  rewrite !set_present_other; [reflexivity | ..];
    intros <-; apply Hk; unfold updated_keys; set_solver.
Qed.

Lemma calibration_key_not_updated (s : State) (k : string) (x : JsNum.jsnum) :
  (k, x) ∈ calibration_uniforms s -> k ∉ updated_keys.
Proof.
  unfold calibration_uniforms, updated_keys. intros Hin Hup.
  repeat (apply elem_of_cons in Hin as [Hin | Hin];
          [ injection Hin as Hk _; subst k;
            repeat (apply elem_of_cons in Hup as [Hup | Hup]; [discriminate |]);
            exact (proj1 (elem_of_nil _) Hup) |]).
  exact (proj1 (elem_of_nil _) Hin).
Qed.

(** ** One call of [updateMaterial] *)

Lemma type_differs_false (t : option string) (i : string) :
  type_differs t i = false <-> t = Some i.
Proof.
  unfold type_differs. destruct t as [t |]; [| split; discriminate].
  rewrite negb_false_iff, String.eqb_eq. split; congruence.
Qed.

Lemma type_differs_true (t : option string) (i : string) :
  type_differs t i = true <-> t <> Some i.
Proof.
  rewrite <- type_differs_false. destruct (type_differs t i); split; congruence.
Qed.

Lemma updateMaterial_same_type (r : Render) (m : Material) (s : State) :
  mesh r = Some m -> userData_type m = Some (intendedType s) ->
  updateMaterial r s
  = with_materials r
      (Some (with_side (_updateMaterialUniforms m s) (side_for s)))
      (allocated r) (disposed r).
Proof.
  intros Hm Ht. unfold updateMaterial. rewrite Hm.
  rewrite (proj2 (type_differs_false _ _) Ht). reflexivity.
Qed.

Lemma updateMaterial_new_type (r : Render) (m : Material) (s : State) :
  mesh r = Some m -> userData_type m <> Some (intendedType s) ->
  updateMaterial r s
  = with_materials r
      (Some (with_side
               (_updateMaterialUniforms
                  (with_type (create_material (allocated r) s) (intendedType s))
                  s)
               (side_for s)))
      (S (allocated r)) ((disposed r ++ [object_id m])%list).
Proof.
  intros Hm Ht. unfold updateMaterial. rewrite Hm.
  rewrite (proj2 (type_differs_true _ _) Ht). reflexivity.
Qed.

Lemma updateMaterialUniforms_keeps (mat : Material) (s : State) :
  object_id (_updateMaterialUniforms mat s) = object_id mat
  /\ userData_type (_updateMaterialUniforms mat s) = userData_type mat
  /\ shaders (_updateMaterialUniforms mat s) = shaders mat.
Proof.
  unfold _updateMaterialUniforms. destruct (uniforms mat); repeat split.
Qed.

Lemma create_material_id (id : nat) (s : State) :
  object_id (create_material id s) = id.
Proof.
  unfold create_material.
  destruct (Utils.isVrProjection _); repeat destruct (String.eqb _ _); reflexivity.
Qed.

Lemma intendedType_is_one_of_five (s : State) :
  intendedType s ∈ material_types.
Proof.
  unfold intendedType, material_types.
  destruct (Utils.isVrProjection _); repeat destruct (String.eqb _ _); set_solver.
Qed.

(** What one call does to the bound material, the allocation counter and
    the disposal log. *)
Lemma updateMaterial_step (r : Render) (m : Material) (s : State) :
  mesh r = Some m -> object_id m < allocated r ->
  exists m',
    mesh (updateMaterial r s) = Some m'
    /\ userData_type m' = Some (intendedType s)
    /\ object_id m' < allocated (updateMaterial r s)
    /\ allocated (updateMaterial r s)
       = allocated r
         + (if type_differs (userData_type m) (intendedType s) then 1 else 0)
    /\ (userData_type m = Some (intendedType s) ->
        object_id m' = object_id m /\ shaders m' = shaders m
        /\ allocated (updateMaterial r s) = allocated r
        /\ disposed (updateMaterial r s) = disposed r)
    /\ (userData_type m <> Some (intendedType s) ->
        object_id m' = allocated r /\ object_id m' <> object_id m
        /\ shaders m' = shaders (create_material (allocated r) s)
        /\ allocated (updateMaterial r s) = S (allocated r)
        /\ disposed (updateMaterial r s) = (disposed r ++ [object_id m])%list).
Proof.
  intros Hm Hwf.
  destruct (type_differs (userData_type m) (intendedType s)) eqn:E.
  - apply type_differs_true in E.
    rewrite (updateMaterial_new_type r m s Hm E).
    eexists. split; [reflexivity |].
    destruct (updateMaterialUniforms_keeps
                (with_type (create_material (allocated r) s) (intendedType s)) s)
      as (Hid & Hty & Hsh).
    cbn [with_materials mesh allocated disposed with_side userData_type
         object_id shaders].
    rewrite Hid, Hty, Hsh. cbn [with_type object_id userData_type shaders].
    rewrite create_material_id.
    repeat split; try lia; try (intros; contradiction).
  - apply type_differs_false in E.
    rewrite (updateMaterial_same_type r m s Hm E).
    eexists. split; [reflexivity |].
    destruct (updateMaterialUniforms_keeps m s) as (Hid & Hty & Hsh).
    cbn [with_materials mesh allocated disposed with_side userData_type
         object_id shaders].
    rewrite Hid, Hty, Hsh.
    repeat split; try lia; try assumption; try (intros; contradiction).
Qed.

(** Along a sequence of calls a material stays bound, its id stays below
    the allocation counter, and the counter grows by the number of type
    changes. *)
Lemma updateMaterial_all_count (ss : list State) (r : Render) (m : Material) :
  mesh r = Some m -> object_id m < allocated r ->
  exists m1,
    mesh (updateMaterial_all r ss) = Some m1
    /\ object_id m1 < allocated (updateMaterial_all r ss)
    /\ allocated (updateMaterial_all r ss)
       = allocated r + type_changes (userData_type m) (map intendedType ss).
Proof.
  revert r m. induction ss as [| s ss IH]; intros r m Hm Hwf.
  - exists m. cbn. repeat split; [assumption .. | lia].
  - destruct (updateMaterial_step r m s Hm Hwf)
      as (m' & Hm' & Hty & Hwf' & Hcount & _).
    destruct (IH (updateMaterial r s) m' Hm' Hwf') as (m1 & H1 & H2 & H3).
    exists m1. cbn [updateMaterial_all fold_left map type_changes].
    change (fold_left updateMaterial ss (updateMaterial r s))
      with (updateMaterial_all (updateMaterial r s) ss).
    repeat split; [assumption .. |].
    rewrite H3, Hcount, Hty. lia.
Qed.

(** C8: along every sequence of [updateMaterial] calls a material object
    is built exactly when the resolved type (one of five) differs from the
    type bound before the call: the number of objects built over the
    sequence is the number of type changes, and for one more call, if the
    type is unchanged the bound object keeps its identity and its program,
    nothing is built and nothing disposed, and otherwise the bound object
    is disposed and replaced by a new one of the resolved type. *)
Theorem material_rebuilt_exactly_on_type_change
    (r : Render) (m : Material) (ss : list State) (s : State) :
  mesh r = Some m -> object_id m < allocated r ->
  let r1 := updateMaterial_all r ss in
  let r2 := updateMaterial r1 s in
  allocated r1
  = allocated r + type_changes (userData_type m) (map intendedType ss)
  /\ intendedType s ∈ material_types
  /\ exists m1 m2,
       mesh r1 = Some m1 /\ mesh r2 = Some m2
       /\ userData_type m2 = Some (intendedType s)
       /\ (userData_type m1 = Some (intendedType s) ->
           object_id m2 = object_id m1 /\ shaders m2 = shaders m1
           /\ allocated r2 = allocated r1 /\ disposed r2 = disposed r1)
       /\ (userData_type m1 <> Some (intendedType s) ->
           object_id m2 <> object_id m1
           /\ shaders m2 = shaders (create_material (allocated r1) s)
           /\ allocated r2 = S (allocated r1)
           /\ disposed r2 = (disposed r1 ++ [object_id m1])%list).
Proof.
  intros Hm Hwf r1 r2.
  destruct (updateMaterial_all_count ss r m Hm Hwf) as (m1 & Hm1 & Hwf1 & Hcount).
  fold r1 in Hm1, Hwf1, Hcount.
  destruct (updateMaterial_step r1 m1 s Hm1 Hwf1)
    as (m2 & Hm2 & Hty & _ & _ & Hsame & Hnew).
  fold r2 in Hm2, Hsame, Hnew.
  split; [exact Hcount |].
  split; [apply intendedType_is_one_of_five |].
  exists m1, m2. repeat split; try assumption.
  - apply Hsame; assumption.
  - apply Hsame; assumption.
  - apply Hsame; assumption.
  - apply Hsame; assumption.
  - apply Hnew; assumption.
  - apply Hnew; assumption.
  - apply Hnew; assumption.
  - apply Hnew; assumption.
Qed.

Lemma material_rebuilt_exactly_on_type_change_witness :
  let r := new_Render 1280 720 in
  let ss := [ anaglyph_vr_state (JsNum.Num 0);
              anaglyph_vr_state (JsNum.Num (3 / 10)) ] in
  allocated (updateMaterial_all r ss)
  = allocated r + type_changes None (map intendedType ss).
Proof.
  intros r ss.
  assert (Hm : mesh r = Some (MeshBasicMaterial 0 DoubleSide)) by reflexivity.
  assert (Hwf : object_id (MeshBasicMaterial 0 DoubleSide) < allocated r)
    by (cbn; lia).
  exact (proj1 (material_rebuilt_exactly_on_type_change r _ ss
                  (anaglyph_vr_state (JsNum.Num 0)) Hm Hwf)).
Defined.

(** C2 at the failing input and beyond: a parameter-only [updateMaterial]
    (the resolved type is the one bound) keeps the material object and
    leaves every calibration uniform as it was; for a material built by
    [_createAnaglyphVrMaterial] that means no entry at all, so none of
    uAntiRed, uAntiGreen, uAntiBlue, uGreenBalance, uConvergence, uDepth
    receives the store value. *)
Theorem calibration_uniforms_not_pushed
    (r : Render) (m : Material) (u : gmap string uvalue) (s : State)
    (k : string) (x : JsNum.jsnum) :
  mesh r = Some m ->
  userData_type m = Some (intendedType s) ->
  uniforms m = Some u ->
  (k, x) ∈ calibration_uniforms s ->
  exists m' u',
    mesh (updateMaterial r s) = Some m'
    /\ object_id m' = object_id m
    /\ uniforms m' = Some u'
    /\ u' !! k = u !! k
    /\ (forall id s0, uniforms (_createAnaglyphVrMaterial id s0) = Some u ->
        u' !! k = None).
Proof.
  intros Hm Ht Hu Hk.
  rewrite (updateMaterial_same_type r m s Hm Ht).
  unfold _updateMaterialUniforms. rewrite Hu.
  eexists. eexists. split; [reflexivity |].
  cbn [with_side with_uniforms object_id uniforms].
  split; [reflexivity |]. split; [reflexivity |].
  pose proof (calibration_key_not_updated s k x Hk) as Hnot.
  split; [apply update_uniforms_other; exact Hnot |].
  intros id s0 Hc. rewrite (update_uniforms_other s u k Hnot).
  injection Hc as <-.
  unfold calibration_uniforms in Hk.
  repeat (apply elem_of_cons in Hk as [Hk | Hk];
          [injection Hk as Hk' _; subst k; reflexivity |]).
  exfalso. exact (proj1 (elem_of_nil _) Hk).
Qed.

Lemma calibration_uniforms_not_pushed_witness :
  let r1 := updateMaterial (new_Render 1280 720)
              (anaglyph_vr_state (JsNum.Num 0)) in
  let s := anaglyph_vr_state (JsNum.Num (3 / 10)) in
  exists m' u',
    mesh (updateMaterial r1 s) = Some m'
    /\ object_id m' = 1
    /\ uniforms m' = Some u'
    /\ u' !! "uAntiRed" = None.
Proof.
  intros r1 s.
  pose (s0 := anaglyph_vr_state (JsNum.Num 0)).
  pose (m1 := with_side
                (_updateMaterialUniforms
                   (with_type (_createAnaglyphVrMaterial 1 s0) "vr-anaglyph") s0)
                BackSide).
  assert (Hm : mesh r1 = Some m1) by reflexivity.
  assert (Ht : userData_type m1 = Some (intendedType s)) by reflexivity.
  destruct (uniforms m1) as [u1 |] eqn:Hu; [| discriminate Hu].
  assert (Hk : ("uAntiRed", JsNum.Num (3 / 10)) ∈ calibration_uniforms s)
    by (unfold calibration_uniforms; constructor).
  destruct (calibration_uniforms_not_pushed r1 m1 u1 s "uAntiRed"
              (JsNum.Num (3 / 10)) Hm Ht Hu Hk)
    as (m' & u' & H1 & H2 & H3 & H4 & _).
  exists m', u'. split; [exact H1 |]. split; [exact H2 |]. split; [exact H3 |].
  rewrite H4. injection Hu as <-.
  rewrite update_uniforms_other.
  - reflexivity.
  - exact (calibration_key_not_updated s _ _ Hk).
Defined.

(** C10: while the orthographic camera is current (flat projection), the
    pointer-down, pointer-move and wheel handlers return at once: the whole
    renderer state, and with it yaw, pitch and the perspective camera's
    field of view, is unchanged and [preventDefault] is not called. *)
Theorem flat_projection_ignores_pointer_and_wheel
    (r : Render) (e : PointerEvent) (w : WheelEvent) :
  camera r = OrthographicCamera ->
  _onPointerDown r e = (r, false)
  /\ _onPointerMove r e = (r, false)
  /\ _onWheel r w = (r, false)
  /\ (forall r', In r' [ fst (_onPointerDown r e); fst (_onPointerMove r e);
                         fst (_onWheel r w) ] ->
      yaw r' = yaw r /\ pitch r' = pitch r /\ fov r' = fov r).
Proof.
  intros Hc.
  assert (H1 : _onPointerDown r e = (r, false))
    by (unfold _onPointerDown; rewrite Hc; reflexivity).
  assert (H2 : _onPointerMove r e = (r, false))
    by (unfold _onPointerMove; rewrite Hc; cbn; rewrite orb_true_r; reflexivity).
  assert (H3 : _onWheel r w = (r, false))
    by (unfold _onWheel; rewrite Hc; reflexivity).
  repeat split; try assumption;
    rewrite H1, H2, H3 in H; cbn in H; intuition (subst; reflexivity).
Qed.

Lemma flat_projection_ignores_pointer_and_wheel_witness :
  let r := _applyProjectionAndViewGeometry (new_Render 1280 720) "flat" in
  _onWheel r {| deltaY := JsNum.Num 120 |} = (r, false).
Proof.
  intros r.
  refine (proj1 (proj2 (proj2 (flat_projection_ignores_pointer_and_wheel r
    {| clientX := JsNum.Num 0; clientY := JsNum.Num 0 |}
    {| deltaY := JsNum.Num 120 |} _)))).
  reflexivity.
Defined.

End RenderClaims.

(* ===================================================================== *)
(** * Further properties of the camera mathematics *)
(* ===================================================================== *)

Section CameraExtras.
Import JsNum.
Local Open Scope R_scope.

(** ** Clamping is idempotent *)

(** Clamping between two bounds, NaN included: a second pass changes
    nothing. *)
Lemma clamp_twice (lo hi v : jsnum) :
  Math_max lo (Math_min hi (Math_max lo (Math_min hi v)))
  = Math_max lo (Math_min hi v).
Proof.
  destruct lo as [ | | lo | ], hi as [ | | hi | ], v as [ | | v | ];
    cbn; try reflexivity; f_equal; split_Rle_dec; lra.
Qed.

Lemma clamp_under_twice (lo hi cap v : jsnum) :
  Math_max lo (Math_min hi (Math_min (Math_max lo (Math_min hi (Math_min v cap))) cap))
  = Math_max lo (Math_min hi (Math_min v cap)).
Proof.
  destruct lo as [ | | lo | ], hi as [ | | hi | ], cap as [ | | cap | ],
           v as [ | | v | ];
    cbn; try reflexivity; f_equal; split_Rle_dec; lra.
Qed.

Lemma Rtrunc_small (q : R) : Rabs q < 1 -> Rtrunc q = 0%Z.
Proof.
  intros Hq. apply Rabs_def2 in Hq as [H1 H2]. unfold Rtrunc.
  destruct (Rle_dec 0 q) as [Hq | Hq].
  - symmetry. apply Int_part_spec. cbn. lra.
  - rewrite <- (Int_part_spec (- q) 0); [reflexivity | cbn; lra].
Qed.

(** Wrapping an angle twice is wrapping it once. *)
Lemma rem_twice (y : jsnum) (m : R) :
  0 < m -> ((y %% Num m) %% Num m)%js = (y %% Num m)%js.
Proof.
  intros Hm. destruct y as [ | | x | ]; try reflexivity.
  cbn [rem]. destruct (Req_dec_T m 0) as [E | _]; [lra |].
  cbn [rem]. destruct (Req_dec_T m 0) as [E | _]; [lra |].
  f_equal.
  pose proof (Rtrunc_remainder x m Hm) as Hr.
  set (r := x - m * IZR (Rtrunc (x / m))) in *.
  rewrite Rtrunc_small; [cbn; ring |].
  unfold Rdiv. rewrite Rabs_mult, (Rabs_right (/ m)).
  - apply Rmult_lt_reg_r with m; [exact Hm |].
    rewrite Rmult_assoc, Rinv_l by lra. lra.
  - apply Rle_ge, Rlt_le, Rinv_0_lt_compat, Hm.
Qed.

Lemma clampFov_idempotent_aux (vFov : jsnum) (a : Utils.FovArgs) :
  Utils.clampFov (Utils.clampFov vFov a) a = Utils.clampFov vFov a.
Proof.
  unfold Utils.clampFov.
  destruct (truthy _ && _)%bool.
  - apply clamp_under_twice.
  - apply clamp_twice.
Qed.

Lemma clampYawPitch_idempotent_aux (yaw0 pitch0 : jsnum) (a : Utils.YawPitchArgs) :
  Utils.clampYawPitch
    (Utils.yaw (Utils.clampYawPitch yaw0 pitch0 a))
    (Utils.pitch (Utils.clampYawPitch yaw0 pitch0 a)) a
  = Utils.clampYawPitch yaw0 pitch0 a.
Proof.
  unfold Utils.clampYawPitch. cbn [Utils.yaw Utils.pitch].
  f_equal.
  - destruct (_ === _)%js.
    + apply clamp_twice.
    + unfold Math_PI. cbn [mul]. apply rem_twice.
      pose proof PI_RGT_0. lra.
  - apply clamp_twice.
Qed.

(** X1: [clampFov] is idempotent, for every input (NaN and the infinities
    included) and every argument object. *)
Theorem clampFov_idempotent (vFov : jsnum) (a : Utils.FovArgs) :
  Utils.clampFov (Utils.clampFov vFov a) a = Utils.clampFov vFov a.
Proof.
  unfold Utils.clampFov.
  destruct (truthy _ && _)%bool.
  - apply clamp_under_twice.
  - apply clamp_twice.
Qed.

(** X2: [clampYawPitch] is idempotent, for every yaw and pitch (NaN and
    the infinities included) and every argument object: clamping the
    clamped yaw and pitch again returns them unchanged. *)
Theorem clampYawPitch_idempotent (yaw0 pitch0 : jsnum) (a : Utils.YawPitchArgs) :
  let c := Utils.clampYawPitch yaw0 pitch0 a in
  Utils.clampYawPitch (Utils.yaw c) (Utils.pitch c) a = c.
Proof.
  cbv zeta. unfold Utils.clampYawPitch. cbn [Utils.yaw Utils.pitch].
  f_equal.
  - destruct (_ === _)%js.
    + apply clamp_twice.
    + unfold Math_PI. cbn [mul]. apply rem_twice.
      pose proof PI_RGT_0. lra.
  - apply clamp_twice.
Qed.

(** X3: the whole clamp pass of the renderer is idempotent: running
    [_applyPanAndZoomClamps] twice leaves the state of the first run. *)
Theorem applyPanAndZoomClamps_idempotent (r : Render.Render) :
  Render._applyPanAndZoomClamps (Render._applyPanAndZoomClamps r)
  = Render._applyPanAndZoomClamps r.
Proof.
  unfold Render._applyPanAndZoomClamps at 2.
  destruct (Render.isPerspectiveCamera (Render.camera r)) eqn:Ec; cbn [negb].
  2: { unfold Render._applyPanAndZoomClamps. rewrite Ec. reflexivity. }
  set (a := Render.clamp_args r).
  set (f := Utils.clampFov (Render.fov r) a).
  set (asp := Utils.currentAspect (Render.clientWidth r) (Render.clientHeight r)).
  set (ya := {| Utils.yp_projHFovDeg := Render._projHFovDeg r;
                Utils.yp_projVFovDeg := Render._projVFovDeg r;
                Utils.currentVFovDeg := f;
                Utils.currentHFovDeg := Utils.vFovDegToHFovDeg f asp |}).
  set (c := Utils.clampYawPitch (Render.yaw r) (Render.pitch r) ya).
  unfold Render._applyPanAndZoomClamps.
  cbn [Render.with_view Render.camera Render.fov Render.yaw Render.pitch
       Render.clientWidth Render.clientHeight Render._projHFovDeg
       Render._projVFovDeg].
  rewrite Ec. cbn [negb].
  change (Render.clamp_args (Render.with_view r f (Utils.yaw c) (Utils.pitch c)
            (Utils.pitch c, Utils.yaw c))) with a.
  fold asp.
  assert (Hf : Utils.clampFov f a = f) by apply clampFov_idempotent_aux.
  rewrite !Hf. fold a. fold f. fold ya. fold c.
  assert (Hc : Utils.clampYawPitch (Utils.yaw c) (Utils.pitch c) ya = c)
    by apply clampYawPitch_idempotent_aux.
  rewrite Hc. reflexivity.
Qed.


(** ** Field-of-view conversions *)

(** The horizontal FOV of a vertical FOV below 180 degrees is below 180
    degrees. *)
Lemma hFov_below_180 (v a : R) :
  2 * (180 / PI) * atan (tan (PI / 180 * (v / 2)) * a) < 180.
Proof.
  pose proof PI_RGT_0 as Hpi.
  destruct (atan_bound (tan (PI / 180 * (v / 2)) * a)) as [_ Hb].
  assert (H : 2 * (180 / PI) * atan (tan (PI / 180 * (v / 2)) * a)
              < 2 * (180 / PI) * (PI / 2)).
  { apply Rmult_lt_compat_l; [| exact Hb].
    apply Rmult_lt_0_compat; [lra |]. apply Rdiv_lt_0_compat; lra. }
  replace (2 * (180 / PI) * (PI / 2)) with 180 in H by (field; lra).
  exact H.
Qed.



(** Over the reals the round trip in the other direction is the identity
    as well: for a horizontal FOV in (0, 180) degrees and a positive aspect
    ratio, converting to the vertical FOV and back returns the horizontal
    FOV. *)
Lemma hfov_round_trip_exact (h a : R) :
  0 < h < 180 -> 0 < a ->
  Utils.vFovDegToHFovDeg (Utils.hFovDegToVFovDeg (Num h) (Num a)) (Num a)
  = Num h.
Proof.
  intros Hh Ha. pose proof PI_RGT_0 as Hpi.
  rewrite hFovDegToVFovDeg_Num, vFovDegToHFovDeg_Num by lra.
  f_equal.
  set (th := PI / 180 * (h / 2)).
  assert (Hth : - (PI / 2) < th < PI / 2) by (unfold th; split; nra).
  replace (PI / 180 * (2 * (180 / PI) * atan (tan th / a) / 2))
    with (atan (tan th / a)) by (field; lra).
  rewrite tan_atan.
  replace (tan th / a * a) with (tan th) by (field; lra).
  rewrite atan_tan by exact Hth.
  unfold th. field. lra.
Qed.



(** X6: [currentAspect] always returns a positive finite number; a canvas
    with a zero side gets 16/9. *)
Theorem currentAspect_positive_finite (cw ch : N) :
  exists a,
    Utils.currentAspect cw ch = Num a /\ 0 < a
    /\ (cw = 0%N \/ ch = 0%N -> a = 16 / 9)
    /\ (cw <> 0%N /\ ch <> 0%N -> a = IZR (Z.of_N cw) / IZR (Z.of_N ch)).
Proof.
  unfold Utils.currentAspect.
  destruct (N.eqb_spec cw 0) as [Ew | Ew]; destruct (N.eqb_spec ch 0) as [Eh | Eh];
    cbn [negb andb].
  1-3: exists (16 / 9); split; [apply div_Num; lra |];
       split; [lra |]; split; [intros _; reflexivity |];
       intros [? ?]; contradiction.
  assert (Hw : 0 < IZR (Z.of_N cw)) by (apply IZR_lt; lia).
  assert (Hh : 0 < IZR (Z.of_N ch)) by (apply IZR_lt; lia).
  exists (IZR (Z.of_N cw) / IZR (Z.of_N ch)). split; [apply div_Num; lra |].
  split; [apply Rdiv_lt_0_compat; assumption |].
  split; [intros [? | ?]; contradiction | reflexivity].
Qed.

(** ** The camera state after the clamp pass *)

Lemma is_finite_Num (c : jsnum) : is_finite c = true -> exists x, c = Num x.
Proof. destruct c; try discriminate. intros _. eexists. reflexivity. Qed.

Lemma symmetric_clamp_zero (l : R) :
  0 <= l -> Math_max (- Num l)%js (Math_min (Num l) (Num 0)) = Num 0.
Proof. intros Hl. cbn. f_equal. split_Rle_dec; lra. Qed.

(** The yaw and pitch the clamp pass leaves, for a spherical projection and
    a finite view. *)
Lemma clamp_pass_values (r : Render.Render) (f0 y0 p0 : R) :
  CameraState.spherical r ->
  Render.fov r = Num f0 -> Render.yaw r = Num y0 -> Render.pitch r = Num p0 ->
  exists f hf y p,
    Render._applyPanAndZoomClamps r
    = Render.with_view r (Num f) (Num y) (Num p) (Num p, Num y)
    /\ Utils.clampFov (Num f0) (Render.clamp_args r) = Num f
    /\ Utils.vFovDegToHFovDeg (Num f)
         (Utils.currentAspect (Render.clientWidth r) (Render.clientHeight r))
       = Num hf
    /\ 20 <= f <= 179 /\ hf < 180
    /\ Rabs p <= (180 - f) / 2 * (PI / 180)
    /\ (Render._projHFovDeg r = Num 180 ->
        Rabs y <= (180 - hf) / 2 * (PI / 180))
    /\ (Render._projHFovDeg r = Num 360 -> Rabs y < 2 * PI)
    /\ (y0 = 0 -> y = 0) /\ (p0 = 0 -> p = 0).
Proof.
  intros (Hcam & HpV & HpH) Hf Hy Hp. pose proof PI_RGT_0 as Hpi.
  destruct (currentAspect_positive (Render.clientWidth r) (Render.clientHeight r))
    as (a & Ha & Hapos).
  assert (HpH' : exists ph, Render._projHFovDeg r = Num ph /\ (ph = 180 \/ ph = 360)).
  { destruct HpH as [-> | ->]; eexists; split; try reflexivity; lra. }
  destruct HpH' as (ph & Hph & Hphv).
  assert (Hargs : Render.clamp_args r
                  = {| Utils.min := Num 20; Utils.max := Num 179;
                       Utils.projVFovDeg := Num 180; Utils.projHFovDeg := Num ph;
                       Utils.aspect := Num a |}).
  { unfold Render.clamp_args. rewrite HpV, Hph, Ha. reflexivity. }
  destruct (clampFov_finite_args (Num f0) 20 179 180 ph a) as (f & Hclamp & Hfb);
    [discriminate | exact Hapos | split_Rle_dec; lra |].
  assert (Hf179 : 20 <= f <= 179).
  { revert Hfb. split_Rle_dec; lra. }
  set (hf := 2 * (180 / PI) * atan (tan (PI / 180 * (f / 2)) * a)).
  assert (Hhf : hf < 180) by apply hFov_below_180.
  unfold Render._applyPanAndZoomClamps.
  rewrite Hcam. cbn [Render.isPerspectiveCamera negb].
  rewrite Hf, Hy, Hp, Hargs, Hclamp, Ha, vFovDegToHFovDeg_Num. fold hf.
  rewrite HpV, Hph.
  unfold Utils.clampYawPitch.
  cbn [Utils.yp_projHFovDeg Utils.yp_projVFovDeg Utils.currentVFovDeg
       Utils.currentHFovDeg Utils.yaw Utils.pitch].
  rewrite !limit_Num.
  assert (Hpl : 0 <= (180 + - f) / 2 * (PI / 180)).
  { apply Rmult_le_pos; [lra |]. apply Rlt_le, Rdiv_lt_0_compat; lra. }
  destruct (symmetric_clamp ((180 + - f) / 2 * (PI / 180)) p0 Hpl)
    as (p & Hpe & Hpb).
  rewrite Hpe.
  assert (Hp0 : p0 = 0 -> p = 0).
  { intros ->. rewrite symmetric_clamp_zero in Hpe by exact Hpl. congruence. }
  destruct Hphv as [-> | ->].
  - assert (Hyl : 0 <= (180 + - hf) / 2 * (PI / 180)).
    { apply Rmult_le_pos; [lra |]. apply Rlt_le, Rdiv_lt_0_compat; lra. }
    assert (Hs : (Num 180 === Num 180)%js = true)
      by (cbn; destruct (Req_dec_T 180 180); [reflexivity | lra]).
    rewrite Hs.
    destruct (symmetric_clamp ((180 + - hf) / 2 * (PI / 180)) y0 Hyl)
      as (y & Hye & Hyb).
    rewrite Hye.
    exists f, hf, y, p. split; [reflexivity |].
    split; [reflexivity |]. split; [apply vFovDegToHFovDeg_Num |].
    split; [exact Hf179 |]. split; [exact Hhf |].
    split; [replace ((180 - f) / 2 * (PI / 180))
              with ((180 + - f) / 2 * (PI / 180)) by lra; exact Hpb |].
    split; [intros _; replace ((180 - hf) / 2 * (PI / 180))
              with ((180 + - hf) / 2 * (PI / 180)) by lra; exact Hyb |].
    split; [intros H; injection H; lra |].
    split; [| exact Hp0].
    intros ->. rewrite symmetric_clamp_zero in Hye by exact Hyl. congruence.
  - assert (Hs : (Num 360 === Num 180)%js = false)
      by (cbn; destruct (Req_dec_T 360 180); [lra | reflexivity]).
    rewrite Hs. unfold Math_PI. cbn [mul rem].
    destruct (Req_dec_T (2 * PI) 0) as [E | _]; [lra |].
    eexists f, hf, _, p. split; [reflexivity |].
    split; [reflexivity |]. split; [apply vFovDegToHFovDeg_Num |].
    split; [exact Hf179 |]. split; [exact Hhf |].
    split; [replace ((180 - f) / 2 * (PI / 180))
              with ((180 + - f) / 2 * (PI / 180)) by lra; exact Hpb |].
    split; [intros H; injection H; lra |].
    split; [intros _; apply Rtrunc_remainder; lra |].
    split; [| exact Hp0].
    intros ->. rewrite Rtrunc_small; [cbn; ring |].
    unfold Rdiv. rewrite Rmult_0_l, Rabs_R0. lra.
Qed.

Lemma clamp_pass_in_bounds (r : Render.Render) :
  CameraState.spherical r -> CameraState.finite_view r ->
  CameraState.in_bounds (Render._applyPanAndZoomClamps r)
  /\ CameraState.spherical (Render._applyPanAndZoomClamps r).
Proof.
  intros Hs (Hf & Hy & Hp).
  apply is_finite_Num in Hf as (f0 & Hf), Hy as (y0 & Hy), Hp as (p0 & Hp).
  destruct (clamp_pass_values r f0 y0 p0 Hs Hf Hy Hp)
    as (f & hf & y & p & -> & _ & Hhf & Hfb & Hlt & Hpb & Hy180 & Hy360 & _).
  split.
  - exists f, y, p, hf.
    cbn [Render.with_view Render.fov Render.yaw Render.pitch Render.rotation
         Render.clientWidth Render.clientHeight Render._projHFovDeg].
    repeat split; try assumption; try reflexivity; try lra;
      try (apply Hy180; assumption); try (apply Hy360; assumption).
  - destruct Hs as (Hc & HV & HH). repeat split; assumption.
Qed.

(** X7: under a spherical projection, with a finite view and finite event
    data, a wheel event and a drag move leave the camera within the clamp
    bounds: the vertical FOV in [20, 179] degrees, the pitch within the
    vertical budget left, the yaw within the horizontal budget left (180
    span) or inside one turn (360 span), and the camera rotation equal to
    (pitch, yaw). *)
Theorem wheel_and_drag_keep_bounds
    (r : Render.Render) (e : Render.PointerEvent) (w : Render.WheelEvent) :
  CameraState.spherical r -> CameraState.finite_view r ->
  is_finite (Render.deltaY w) = true ->
  is_finite (Render.clientX e) = true -> is_finite (Render.clientY e) = true ->
  is_finite (Render.dragLastX r) = true -> is_finite (Render.dragLastY r) = true ->
  CameraState.in_bounds (fst (Render._onWheel r w))
  /\ (Render.isDragging r = true ->
      CameraState.in_bounds (fst (Render._onPointerMove r e))).
Proof.
  intros Hs Hfin Hd Hx Hy Hlx Hly.
  pose proof Hs as (Hcam & HV & HH).
  destruct Hfin as (Hf & Hyw & Hp).
  apply is_finite_Num in Hd as (d & Hd), Hx as (x & Hx), Hy as (y & Hy),
    Hlx as (lx & Hlx), Hly as (ly & Hly).
  pose proof Hf as Hf'. pose proof Hyw as Hyw'. pose proof Hp as Hp'.
  apply is_finite_Num in Hf' as (f0 & Hf0), Hyw' as (y0 & Hy0), Hp' as (p0 & Hp0).
  split.
  - unfold Render._onWheel. rewrite Hcam. cbn [Render.isPerspectiveCamera negb fst].
    apply clamp_pass_in_bounds.
    + repeat split; assumption.
    + unfold CameraState.finite_view.
      cbn [Render.with_view Render.fov Render.yaw Render.pitch].
      rewrite Hf0, Hd. repeat split; assumption.
  - intros Hdrag. unfold Render._onPointerMove.
    rewrite Hdrag, Hcam. cbn [Render.isPerspectiveCamera negb orb fst].
    unfold Render._handleDragMove, Render._applyDragDelta.
    match goal with
    | |- CameraState.in_bounds (Render.with_drag ?r1 _ _ _) =>
        assert (Hb : CameraState.in_bounds r1)
    end.
    { apply clamp_pass_in_bounds.
      - repeat split; assumption.
      - unfold CameraState.finite_view, Utils.dragToYawPitch.
        cbn [Render.with_view Render.fov Render.yaw Render.pitch
             Utils.yaw Utils.pitch].
        rewrite Hy0, Hp0, Hx, Hy, Hlx, Hly. repeat split; assumption. }
    destruct Hb as (f & yy & p & hf & H1 & H2 & H3 & H4 & H5 & H6 & H7 & H8 & H9).
    exists f, yy, p, hf. repeat split; try assumption; try lra;
      try (apply H7; assumption); try (apply H8; assumption).
Qed.

Lemma wheel_and_drag_keep_bounds_witness :
  CameraState.in_bounds
    (fst (Render._onWheel
            (Render._applyProjectionAndViewGeometry (Render.new_Render 1280 720) "vr360")
            {| Render.deltaY := Num 120 |})).
Proof.
  set (r := Render._applyProjectionAndViewGeometry (Render.new_Render 1280 720) "vr360").
  assert (Hs : CameraState.spherical r /\ CameraState.in_bounds r).
  { unfold r, Render._applyProjectionAndViewGeometry.
    change (Utils.isVrProjection "vr360") with true. cbv iota.
    destruct (clamp_pass_in_bounds
                (Render.with_view
                   (Render.with_projection (Render.new_Render 1280 720)
                      Render.PerspectiveCamera (Render.geometry_hFov "vr360")
                      (Render.geometry_vFov "vr360"))
                   Render.VR_VFOV_DEG (Num 0) (Num 0)
                   (Render.rotation
                      (Render.with_projection (Render.new_Render 1280 720)
                         Render.PerspectiveCamera (Render.geometry_hFov "vr360")
                         (Render.geometry_vFov "vr360")))))
      as (Hb & Hs).
    - repeat split; try reflexivity. right. reflexivity.
    - repeat split; reflexivity.
    - split; assumption. }
  destruct Hs as (Hs & (f & y & p & hf & Hf & Hy & Hp & _)).
  refine (proj1 (wheel_and_drag_keep_bounds r
                   {| Render.clientX := Num 0; Render.clientY := Num 0 |}
                   {| Render.deltaY := Num 120 |} Hs _ _ _ _ _ _)).
  - unfold CameraState.finite_view. rewrite Hf, Hy, Hp. repeat split; reflexivity.
  - reflexivity.
  - reflexivity.
  - reflexivity.
  - reflexivity.
  - reflexivity.
Defined.

(** The state [_applyProjectionAndViewGeometry] leaves for a spherical
    projection. *)
Lemma projection_geometry_state (r : Render.Render) (p : string) :
  p = "vr180"%string \/ p = "vr360"%string ->
  let r' := Render._applyProjectionAndViewGeometry r p in
  CameraState.spherical r'
  /\ Render._projHFovDeg r' = Render.geometry_hFov p
  /\ Render.camera r' = Render.PerspectiveCamera
  /\ Render.yaw r' = Num 0 /\ Render.pitch r' = Num 0
  /\ Render.rotation r' = (Num 0, Num 0)
  /\ CameraState.in_bounds r'
  /\ (p = "vr360"%string -> Render.fov r' = Num 100).
Proof.
  intros Hp r'. unfold r', Render._applyProjectionAndViewGeometry.
  assert (Hvr : Utils.isVrProjection p = true) by (destruct Hp as [-> | ->]; reflexivity).
  rewrite Hvr.
  set (r1 := Render.with_view
               (Render.with_projection r Render.PerspectiveCamera
                  (Render.geometry_hFov p) (Render.geometry_vFov p))
               Render.VR_VFOV_DEG (Num 0) (Num 0)
               (Render.rotation
                  (Render.with_projection r Render.PerspectiveCamera
                     (Render.geometry_hFov p) (Render.geometry_vFov p)))).
  assert (Hs : CameraState.spherical r1).
  { unfold r1. destruct Hp as [-> | ->]; repeat split; try reflexivity;
      [left | right]; reflexivity. }
  destruct (clamp_pass_values r1 100 0 0 Hs eq_refl eq_refl eq_refl)
    as (f & hf & y & q & Heq & Hclamp & Hhf & Hfb & Hlt & Hpb & Hy180 & Hy360 & Hy0 & Hp0).
  rewrite (Hy0 eq_refl) in *. rewrite (Hp0 eq_refl) in *.
  rewrite Heq.
  split.
  { destruct Hs as (Hc & HV & HH). repeat split; assumption. }
  split; [reflexivity |].
  cbn [Render.with_view Render.camera Render.yaw Render.pitch Render.rotation
       Render.fov].
  split; [reflexivity |]. split; [reflexivity |]. split; [reflexivity |].
  split; [reflexivity |]. split.
  - exists f, 0, 0, hf.
    cbn [Render.with_view Render.fov Render.yaw Render.pitch Render.rotation
         Render.clientWidth Render.clientHeight Render._projHFovDeg].
    repeat split; try assumption; try reflexivity; try lra;
      try (apply Hy180; assumption); try (apply Hy360; assumption).
  - intros ->. f_equal.
    assert (H100 : Utils.clampFov (Num 100) (Render.clamp_args r1) = Num 100).
    { unfold Utils.clampFov, Render.clamp_args, r1.
      cbn [Render.with_view Render.with_projection Render._projHFovDeg
           Render._projVFovDeg Utils.min Utils.max Utils.projVFovDeg
           Utils.projHFovDeg].
      change (Render.geometry_hFov "vr360") with (Num 360).
      change (Render.geometry_vFov "vr360") with (Num 180).
      assert (Hc : (truthy (Num 360) && (Num 360 === Num 180)%js)%bool = false).
      { cbn. destruct (Req_dec_T 360 0); [lra |].
        destruct (Req_dec_T 360 180); [lra | reflexivity]. }
      rewrite Hc. unfold Render.VR_VFOV_MIN_DEG, Render.VR_VFOV_MAX_DEG.
      cbn. f_equal. split_Rle_dec; lra. }
    rewrite H100 in Hclamp. congruence.
Qed.

(** X8: switching to a spherical projection makes the perspective camera
    current, resets yaw, pitch and the camera rotation to zero and leaves
    the camera within the clamp bounds; under the 360-degree projection the
    vertical FOV is the default of 100 degrees. *)
Theorem spherical_projection_resets_view (r : Render.Render) (p : string) :
  p = "vr180"%string \/ p = "vr360"%string ->
  let r' := Render._applyProjectionAndViewGeometry r p in
  Render.camera r' = Render.PerspectiveCamera
  /\ Render.yaw r' = Num 0 /\ Render.pitch r' = Num 0
  /\ Render.rotation r' = (Num 0, Num 0)
  /\ CameraState.in_bounds r'
  /\ (p = "vr360"%string -> Render.fov r' = Num 100).
Proof.
  intros Hp r'.
  destruct (projection_geometry_state r p Hp) as (_ & _ & H).
  exact H.
Qed.

Lemma spherical_projection_resets_view_witness :
  Render.yaw (Render._applyProjectionAndViewGeometry (Render.new_Render 1280 720) "vr180")
  = Num 0.
Proof.
  refine (proj1 (proj2 (spherical_projection_resets_view
                          (Render.new_Render 1280 720) "vr180" _))).
  left. reflexivity.
Defined.

End CameraExtras.

Section RoundTripExtras.
Import Floats UtilsDouble.
Local Open Scope float_scope.

(** The horizontal round trip breaks down for a narrow canvas: at the
    horizontal FOV 120 degrees and the aspect ratio 1e-20 the vertical FOV
    rounds to 180 degrees and the way back gives less than 0.02 degrees. *)
Example hfov_round_trip_fails_at_small_aspect :
  let aspect := Double.of_decimal false 1 (-20) in
  hFovDegToVFovDeg 120 aspect = Some 180
  /\ horizontal_round_trip 120 aspect = Some 0x1.329d227418e58p-6
  /\ (0x1.329d227418e58p-6 <? 0x1p-5) = true.
Proof. vm_compute. repeat split. Qed.

(** X4: the round trip of the conversions in the other direction, in
    binary64 arithmetic: for every horizontal FOV from 0.5 to 179.5 degrees
    in steps of half a degree and the aspect ratio of every listed canvas
    size, converting to the vertical FOV and back returns the horizontal
    FOV within 1e-12 degrees. *)
Theorem hfov_round_trip (k cw ch : N) :
  (1 <= k <= 359)%N -> In (cw, ch) canvas_sizes ->
  exists r,
    horizontal_round_trip (half_degrees k) (currentAspect cw ch) = Some r
    /\ within tolerance r (half_degrees k) = true.
Proof.
  apply round_trip_holds_at. vm_compute. reflexivity.
Qed.

Lemma hfov_round_trip_witness :
  exists r,
    horizontal_round_trip (half_degrees 240) (currentAspect 1080 1920)
    = Some r
    /\ within tolerance r (half_degrees 240) = true.
Proof.
  apply hfov_round_trip; [lia |]. do 15 right. left. reflexivity.
Defined.

End RoundTripExtras.

(* ===================================================================== *)
(** * Further properties of the renderer *)
(* ===================================================================== *)

Section RenderExtras.
Import Render.
Local Open Scope string_scope.

Lemma set_present_lookup (key k : string) (v : uvalue) (u : gmap string uvalue) :
  set_present key v u !! k
  = if decide (key = k) then const v <$> (u !! k) else u !! k.
Proof.
  unfold set_present. destruct (decide (key = k)) as [<- | Hne].
  - destruct (u !! key) eqn:E.
    + rewrite lookup_insert_eq. reflexivity.
    + rewrite E. reflexivity.
  - destruct (u !! key); [apply lookup_insert_ne; exact Hne | reflexivity].
Qed.

(** A key that is written gets the pushed value if it is present and stays
    absent otherwise; every other key keeps its entry. *)
Lemma update_uniforms_lookup (s : State) (u : gmap string uvalue) (k : string) :
  update_uniforms s u !! k
  = match Uniforms.pushed_values s !! k with
    | Some v => const v <$> (u !! k)
    | None => u !! k
    end.
Proof.
  unfold update_uniforms, Uniforms.pushed_values.
  rewrite !set_present_lookup.
  cbn [list_to_map foldr uncurry fst snd].
  repeat match goal with
         | |- context [decide (?a = k)] =>
             destruct (decide (a = k)) as [<- | ?]
         end;
    repeat (rewrite lookup_insert_eq || rewrite lookup_insert_ne by assumption);
    try rewrite lookup_empty;
    try reflexivity;
    try (destruct (u !! _); reflexivity); try congruence.
Qed.

Lemma update_uniforms_twice (s : State) (u : gmap string uvalue) :
  update_uniforms s (update_uniforms s u) = update_uniforms s u.
Proof.
  apply map_eq. intros k. rewrite !update_uniforms_lookup.
  destruct (Uniforms.pushed_values s !! k); [| reflexivity].
  destruct (u !! k); reflexivity.
Qed.

Lemma updateMaterialUniforms_twice (m : Material) (s : State) (sd : Side) :
  _updateMaterialUniforms (with_side (_updateMaterialUniforms m s) sd) s
  = with_side (_updateMaterialUniforms m s) sd.
Proof.
  unfold _updateMaterialUniforms. destruct m as [id u sh ty sd0 tm].
  cbn [uniforms]. destruct u as [u |]; cbn; [| reflexivity].
  unfold with_uniforms. cbn. rewrite update_uniforms_twice. reflexivity.
Qed.

(** X9: [updateMaterial] is idempotent: a second call with the same
    snapshot builds nothing, disposes nothing and leaves the bound material
    and its uniforms as the first call left them. *)
Theorem updateMaterial_idempotent (r : Render) (s : State) :
  updateMaterial (updateMaterial r s) s = updateMaterial r s.
Proof.
  destruct (mesh r) as [m |] eqn:Hm.
  2: { unfold updateMaterial. rewrite Hm. cbn. rewrite Hm. reflexivity. }
  assert (H1 : exists m1 n d,
             updateMaterial r s
             = with_materials r
                 (Some (with_side (_updateMaterialUniforms m1 s) (side_for s))) n d
             /\ userData_type m1 = Some (intendedType s)).
  { destruct (type_differs (userData_type m) (intendedType s)) eqn:E.
    - apply type_differs_true in E.
      rewrite (updateMaterial_new_type r m s Hm E).
      eexists _, _, _. split; [reflexivity | reflexivity].
    - apply type_differs_false in E.
      rewrite (updateMaterial_same_type r m s Hm E).
      eexists _, _, _. split; [reflexivity | exact E]. }
  destruct H1 as (m1 & n & d & -> & Hty).
  rewrite (updateMaterial_same_type _
             (with_side (_updateMaterialUniforms m1 s) (side_for s)) s).
  - cbn [with_materials mesh allocated disposed camera fov rotation
         _projHFovDeg _projVFovDeg isDragging dragLastX dragLastY yaw pitch
         clientWidth clientHeight].
    rewrite updateMaterialUniforms_twice.
    destruct (_updateMaterialUniforms m1 s). reflexivity.
  - reflexivity.
  - cbn [with_side userData_type].
    destruct (updateMaterialUniforms_keeps m1 s) as (_ & -> & _). exact Hty.
Qed.

(** X10: after [updateMaterial] the bound material shows the face the
    projection needs (the back face exactly for a spherical projection) and
    every uniform the update writes holds the value of the snapshot:
    texture, FOVs in radians, layout selector, half-resolution flag, watch
    flag, eye selector and edge feather, each wherever the material has
    it.  No uniform is added or removed by a parameter-only update. *)
Theorem updateMaterial_pushes_parameters (r : Render) (m : Material) (s : State) :
  mesh r = Some m ->
  exists m',
    mesh (updateMaterial r s) = Some m'
    /\ side m' = (if Utils.isVrProjection (projection s) then BackSide else FrontSide)
    /\ (forall u' k v,
          uniforms m' = Some u' ->
          Uniforms.pushed_values s !! k = Some v ->
          is_Some (u' !! k) -> u' !! k = Some v)
    /\ (userData_type m = Some (intendedType s) ->
        forall u u', uniforms m = Some u -> uniforms m' = Some u' ->
                     dom u' = dom u).
Proof.
  intros Hm.
  assert (Hpush : forall m0 u' k v,
             uniforms (with_side (_updateMaterialUniforms m0 s) (side_for s)) = Some u' ->
             Uniforms.pushed_values s !! k = Some v ->
             is_Some (u' !! k) -> u' !! k = Some v).
  { intros m0 u' k v Hu Hk Hsome. cbn [with_side uniforms] in Hu.
    unfold _updateMaterialUniforms in Hu.
    destruct (uniforms m0) as [u0 |] eqn:E0; [| rewrite E0 in Hu; discriminate].
    cbn in Hu. injection Hu as <-.
    rewrite update_uniforms_lookup, Hk in Hsome |- *.
    destruct (u0 !! k); [reflexivity | destruct Hsome; discriminate]. }
  destruct (type_differs (userData_type m) (intendedType s)) eqn:E.
  - apply type_differs_true in E.
    rewrite (updateMaterial_new_type r m s Hm E).
    eexists. split; [reflexivity |]. split; [reflexivity |].
    split; [apply Hpush | intros; contradiction].
  - apply type_differs_false in E.
    rewrite (updateMaterial_same_type r m s Hm E).
    eexists. split; [reflexivity |]. split; [reflexivity |].
    split; [apply Hpush |].
    intros _ u u' Hu Hu'. cbn [with_side uniforms] in Hu'.
    unfold _updateMaterialUniforms in Hu'. rewrite Hu in Hu'. cbn in Hu'.
    injection Hu' as <-.
    apply set_eq. intros k. rewrite !elem_of_dom, update_uniforms_lookup.
    destruct (Uniforms.pushed_values s !! k), (u !! k); cbn;
      split; intros [? ?]; try discriminate; eexists; reflexivity.
Qed.

Lemma updateMaterial_pushes_parameters_witness :
  exists m',
    mesh (updateMaterial (new_Render 1280 720) (anaglyph_vr_state (JsNum.Num 0)))
    = Some m'
    /\ side m' = BackSide.
Proof.
  destruct (updateMaterial_pushes_parameters (new_Render 1280 720)
              (MeshBasicMaterial 0 DoubleSide) (anaglyph_vr_state (JsNum.Num 0))
              eq_refl) as (m' & H1 & H2 & _).
  exists m'. split; [exact H1 | exact H2].
Defined.

(** X11: a pointer move acts only during a drag.  With no drag in progress
    it returns the state unchanged; pointer-up ends the drag and changes
    nothing else, so a move after it is ignored; pointer-down under the
    perspective camera starts a drag at the event position and leaves yaw,
    pitch and field of view alone. *)
Theorem pointer_moves_need_a_drag (r : Render) (e e' : PointerEvent) :
  (isDragging r = false -> _onPointerMove r e = (r, false))
  /\ _onPointerMove (_onPointerUp r) e = (_onPointerUp r, false)
  /\ _onPointerUp r = with_drag r false (dragLastX r) (dragLastY r)
  /\ (camera r = PerspectiveCamera ->
      let r1 := fst (_onPointerDown r e') in
      isDragging r1 = true
      /\ dragLastX r1 = clientX e' /\ dragLastY r1 = clientY e'
      /\ yaw r1 = yaw r /\ pitch r1 = pitch r /\ fov r1 = fov r).
Proof.
  split; [| split; [| split]].
  - intros H. unfold _onPointerMove. rewrite H. reflexivity.
  - unfold _onPointerMove, _onPointerUp. reflexivity.
  - reflexivity.
  - intros Hc. unfold _onPointerDown. rewrite Hc. cbn. repeat split.
Qed.

Lemma pointer_moves_need_a_drag_witness :
  _onPointerMove (new_Render 1280 720)
    {| clientX := JsNum.Num 10; clientY := JsNum.Num 10 |}
  = (new_Render 1280 720, false).
Proof.
  refine (proj1 (pointer_moves_need_a_drag (new_Render 1280 720)
                   {| clientX := JsNum.Num 10; clientY := JsNum.Num 10 |}
                   {| clientX := JsNum.Num 10; clientY := JsNum.Num 10 |}) _).
  reflexivity.
Defined.

End RenderExtras.

(* ===================================================================== *)
(** * Edge feather and sample positions of the fragment shaders *)
(* ===================================================================== *)

Section ShaderStageExtras.
Import Shaders ShaderStages.
Local Open Scope R_scope.

Lemma clamp_unit_range (x : R) : 0 <= clamp x 0 1 <= 1.
Proof. unfold clamp. split_Rle_dec; lra. Qed.

Lemma clamp_unit_low (x : R) : x <= 0 -> clamp x 0 1 = 0.
Proof. intros H. unfold clamp. split_Rle_dec; lra. Qed.

Lemma clamp_unit_high (x : R) : 1 <= x -> clamp x 0 1 = 1.
Proof. intros H. unfold clamp. split_Rle_dec; lra. Qed.

Lemma unit_product (a b : R) : 0 <= a <= 1 -> 0 <= b <= 1 -> 0 <= a * b <= 1.
Proof.
  intros Ha Hb. split; [apply Rmult_le_pos; lra|].
  assert (a * b <= 1 * 1) by (apply Rmult_le_compat; lra). lra.
Qed.

Lemma smoothstep_range (e0 e1 x : R) : 0 <= smoothstep e0 e1 x <= 1.
Proof.
  unfold smoothstep.
  pose proof (clamp_unit_range ((x - e0) / (e1 - e0))) as Ht.
  set (t := clamp ((x - e0) / (e1 - e0)) 0 1) in *.
  assert (H0 : 0 <= t * t) by (apply Rmult_le_pos; lra).
  assert (H1 : 0 <= (1 - t) * (1 - t)) by (apply Rmult_le_pos; lra).
  split.
  - apply Rmult_le_pos; lra.
  - assert (H2 : 0 <= (1 - t) * (1 - t) * (1 + 2 * t)) by (apply Rmult_le_pos; lra).
    replace (t * t * (3 - 2 * t)) with (1 - (1 - t) * (1 - t) * (1 + 2 * t)) by ring.
    lra.
Qed.

Lemma smoothstep_below (f x : R) : 0 < f -> x <= 0 -> smoothstep 0 f x = 0.
Proof.
  intros Hf Hx. unfold smoothstep.
  rewrite clamp_unit_low; [ring|].
  rewrite !Rminus_0_r. unfold Rdiv.
  assert (0 < / f) by (apply Rinv_0_lt_compat; exact Hf).
  assert (x * / f <= 0 * / f) by (apply Rmult_le_compat_r; lra).
  lra.
Qed.

Lemma smoothstep_above (f x : R) : 0 < f -> f <= x -> smoothstep 0 f x = 1.
Proof.
  intros Hf Hx. unfold smoothstep.
  rewrite clamp_unit_high; [ring|].
  rewrite !Rminus_0_r.
  apply (Rmult_le_reg_r f); [exact Hf|].
  unfold Rdiv. rewrite Rmult_assoc, Rinv_l by lra. lra.
Qed.

Lemma featherAxis_range (c f : R) : 0 <= featherAxis c f <= 1.
Proof.
  unfold featherAxis. destruct (Rle_dec f 0); [lra|].
  pose proof (smoothstep_range 0 f c). pose proof (smoothstep_range 0 f (1 - c)).
  apply unit_product; assumption.
Qed.

Lemma featherAxis_border (c f : R) :
  0 < f -> c <= 0 \/ 1 <= c -> featherAxis c f = 0.
Proof.
  intros Hf Hc. unfold featherAxis. destruct (Rle_dec f 0); [lra|].
  destruct Hc as [Hc|Hc].
  - rewrite (smoothstep_below f c) by lra. ring.
  - rewrite (smoothstep_below f (1 - c)) by lra. ring.
Qed.

Lemma featherAxis_interior (c f : R) :
  f <= 0 \/ (f <= c /\ c <= 1 - f) -> featherAxis c f = 1.
Proof.
  intros H. unfold featherAxis. destruct (Rle_dec f 0); [reflexivity|].
  destruct H as [H|[H1 H2]]; [lra|].
  rewrite (smoothstep_above f c), (smoothstep_above f (1 - c)) by lra. ring.
Qed.

(** X12: the edge fade is a factor between 0 and 1 for every position and
    every feather width; it is 0 on and beyond a feathered border of the
    frame, and 1 wherever each axis is either not feathered or at least
    its feather width away from both borders. *)
Theorem edgeFade_profile (uv feather : vec2) :
  0 <= edgeFade uv feather <= 1 /\
  (0 < vx feather -> vx uv <= 0 \/ 1 <= vx uv -> edgeFade uv feather = 0) /\
  (0 < vy feather -> vy uv <= 0 \/ 1 <= vy uv -> edgeFade uv feather = 0) /\
  ((vx feather <= 0 \/ (vx feather <= vx uv /\ vx uv <= 1 - vx feather)) ->
   (vy feather <= 0 \/ (vy feather <= vy uv /\ vy uv <= 1 - vy feather)) ->
   edgeFade uv feather = 1).
Proof.
  unfold edgeFade.
  pose proof (featherAxis_range (vx uv) (vx feather)) as Hx.
  pose proof (featherAxis_range (vy uv) (vy feather)) as Hy.
  split; [apply unit_product; assumption|].
  repeat split.
  - intros Hf Hc. rewrite (featherAxis_border _ _ Hf Hc). ring.
  - intros Hf Hc. rewrite (featherAxis_border _ _ Hf Hc). ring.
  - intros Hx1 Hy1.
    rewrite (featherAxis_interior _ _ Hx1), (featherAxis_interior _ _ Hy1). ring.
Qed.

(** X13: in the watch view both single-eye shaders sample inside the half
    of the frame that belongs to the selected eye: the left or top half
    for the left eye, the right or bottom half for the right eye, the
    other coordinate untouched; a half-resolution spherical frame is
    sampled in the middle half of that half only.  Outside the watch view
    the spherical shader samples the frame as it is, and in every case the
    colour is the texel scaled by the edge fade with its alpha kept. *)
Theorem watch_samples_stay_in_eye_half
  (map : vec2 -> vec4) (u : EquirectUniforms) (uv : vec2)
  (Hx : 0 <= vx uv <= 1) (Hy : 0 <= vy uv <= 1) :
  let s := equirect_sampleUv u uv in
  let w := watch_flat_uv (eq_uLayout u) (uLeftEye u) uv in
  let lo := if uLeftEye u then 0 else 1 / 2 in
  let inset := if eq_uHalfRes u then 1 / 8 else 0 in
  (uIsWatchView u = false -> s = uv) /\
  (uIsWatchView u = true ->
   if (eq_uLayout u =? 0)%Z
   then vy s = vy uv /\ lo + inset <= vx s <= lo + 1 / 2 - inset
   else vx s = vx uv /\ lo + inset <= vy s <= lo + 1 / 2 - inset) /\
  (if (eq_uLayout u =? 0)%Z
   then vy w = vy uv /\ lo <= vx w <= lo + 1 / 2
   else vx w = vx uv /\ lo <= vy w <= lo + 1 / 2) /\
  equirect_fragment map u uv =
    {| rgb := scale3 (rgb (map s)) (edgeFade uv (eq_uEdgeFeather u));
       alpha := alpha (map s) |}.
Proof.
  cbv zeta. unfold equirect_sampleUv, watch_flat_uv, equirect_fragment.
  split; [intros ->; reflexivity|].
  split; [intros ->|split; [|reflexivity]];
    destruct (eq_uLayout u =? 0)%Z, (uLeftEye u); try destruct (eq_uHalfRes u);
    cbn [vx vy]; split; try reflexivity; lra.
Qed.

Lemma watch_samples_stay_in_eye_half_witness :
  let u := {| eq_uLayout := 0; uIsWatchView := true; eq_uHalfRes := true;
              uLeftEye := false; eq_uEdgeFeather := {| vx := 0; vy := 0 |} |} in
  let uv := {| vx := 1; vy := 0 |} in
  vy (equirect_sampleUv u uv) = 0 /\
  1 / 2 + 1 / 8 <= vx (equirect_sampleUv u uv) <= 1 / 2 + 1 / 2 - 1 / 8.
Proof.
  intros u uv.
  assert (Hx : 0 <= vx uv <= 1) by (cbn; lra).
  assert (Hy : 0 <= vy uv <= 1) by (cbn; lra).
  pose proof (watch_samples_stay_in_eye_half
                (fun _ => {| rgb := black; alpha := 1 |}) u uv Hx Hy) as H.
  cbv zeta in H. destruct H as (_ & H & _).
  exact (H eq_refl).
Defined.

Lemma depth_off (d : R) : d <= 0 -> clamp d 0 1 * (1 / 10) = 0.
Proof. intros H. rewrite clamp_unit_low by exact H. ring. Qed.

(** The displacement that convergence [c] asks for. *)
Lemma shift_range (c : R) :
  - (1 / 100) <= MAX_SHIFT * ((clamp c 0 1 - 5 / 10) * 2) <= 1 / 100.
Proof.
  pose proof (clamp_unit_range c). unfold MAX_SHIFT. lra.
Qed.

(** X14: with depth compression off, the anaglyph shaders read the left
    eye at its half of the frame displaced by the convergence shift and
    the right eye at its half displaced the opposite way, each clamped to
    the frame; the shift is at most one hundredth of the frame, it is
    horizontal, and the spherical shader applies none to an over-under
    frame while the flat shader still does.  Swapping the eyes exchanges
    the two positions. *)
Theorem convergence_displaces_eyes_opposite
  (u : AnaglyphUniforms) (uv : vec2) (Hd : uDepth u <= 0) :
  let s := MAX_SHIFT * ((clamp (uConvergence u) 0 1 - 5 / 10) * 2) in
  let swap (p : vec2 * vec2) :=
    if (uSwapEyes u =? 1)%Z then (snd p, fst p) else p in
  - (1 / 100) <= s <= 1 / 100 /\
  anaglyph_uv u uv =
    (let '(baseL, baseR) := base_uv (an_uLayout u =? 1)%Z (an_uHalfRes u) uv in
     swap
       (if (an_uLayout u =? 1)%Z
        then ({| vx := vx baseL; vy := clamp (vy baseL) 0 1 |},
              {| vx := vx baseR; vy := clamp (vy baseR) 0 1 |})
        else ({| vx := clamp (vx baseL + s) 0 1; vy := vy baseL |},
              {| vx := clamp (vx baseR - s) 0 1; vy := vy baseR |}))) /\
  anaglyph_flat_uv u uv =
    (let '(baseL, baseR) := base_uv (negb (an_uLayout u =? 0)%Z) false uv in
     swap ({| vx := clamp (vx baseL + s) 0 1; vy := vy baseL |},
           {| vx := clamp (vx baseR - s) 0 1; vy := vy baseR |})).
Proof.
  cbv zeta. split; [apply shift_range|].
  unfold anaglyph_uv, anaglyph_flat_uv, base_uv.
  rewrite (depth_off _ Hd).
  unfold mix, SBS_LEFT_CENTER, SBS_RIGHT_CENTER, OU_TOP_CENTER, OU_BOTTOM_CENTER.
  split.
  - destruct (an_uLayout u =? 1)%Z, (an_uHalfRes u), (uSwapEyes u =? 1)%Z;
      cbn [negb fst snd vx vy]; rewrite ?Rplus_0_r, ?Rminus_0_r;
      f_equal; f_equal; field.
  - destruct (an_uLayout u =? 0)%Z, (uSwapEyes u =? 1)%Z;
      cbn [negb fst snd vx vy]; f_equal; f_equal; field.
Qed.

Lemma convergence_displaces_eyes_opposite_witness :
  let u := {| an_uLayout := 0; uSwapEyes := 0; an_uHalfRes := false;
              uConvergence := 1; uDepth := 0 |} in
  let uv := {| vx := 1 / 2; vy := 1 / 2 |} in
  uDepth u <= 0 /\
  anaglyph_flat_uv u uv =
    ({| vx := clamp (1 / 2 * (5 / 10) + MAX_SHIFT * ((clamp 1 0 1 - 5 / 10) * 2)) 0 1;
        vy := 1 / 2 |},
     {| vx := clamp (1 / 2 * (5 / 10) + 5 / 10
                     - MAX_SHIFT * ((clamp 1 0 1 - 5 / 10) * 2)) 0 1;
        vy := 1 / 2 |}).
Proof.
  intros u uv.
  assert (Hd : uDepth u <= 0) by (cbn; lra).
  split; [exact Hd|].
  pose proof (convergence_displaces_eyes_opposite u uv Hd) as H.
  cbv zeta in H. destruct H as (_ & _ & H).
  exact H.
Defined.

End ShaderStageExtras.

(* ===================================================================== *)
(** * File-name hints, resolution and projection steps of the detector *)
(* ===================================================================== *)

Section DetectorExtras.
Import JsString QNum Detector DetectorSteps.
Local Open Scope string_scope.

(** ** Substrings *)

Lemma startsWith_iff (n h : string) :
  startsWith n h = true <-> exists t, h = n ++ t.
Proof.
  revert h. induction n as [| a n IH]; intros h; cbn [startsWith].
  - split; [intros _; exists h; reflexivity | reflexivity].
  - destruct h as [| b h].
    + split; [discriminate | intros [t Ht]; rewrite append_cons in Ht; discriminate].
    + rewrite andb_true_iff, IH. split.
      * intros [Hab [t ->]]. apply Ascii.eqb_eq in Hab. subst b.
        exists t. reflexivity.
      * intros [t Ht]. rewrite append_cons in Ht. injection Ht as -> ->. split.
        -- apply Ascii.eqb_refl.
        -- exists t. reflexivity.
Qed.

Lemma includes_iff (n h : string) :
  includes n h = true <-> exists p t, h = p ++ n ++ t.
Proof.
  induction h as [| b h IH].
  - cbn [includes]. rewrite orb_false_r, startsWith_iff. split.
    + intros [t Ht]. exists "", t. exact Ht.
    + intros (p & t & Ht). destruct p.
      * exists t. exact Ht.
      * rewrite append_cons in Ht. discriminate.
  - cbn [includes]. rewrite orb_true_iff, startsWith_iff, IH. split.
    + intros [[t Ht] | (p & t & Ht)].
      * exists "", t. exact Ht.
      * exists (String b p), t. rewrite append_cons, Ht. reflexivity.
    + intros (p & t & Ht). destruct p as [| c p].
      * left. exists t. exact Ht.
      * right. rewrite append_cons in Ht. injection Ht as _ Ht.
        exists p, t. exact Ht.
Qed.

(** A text that contains [b] contains every part of [b]. *)
Lemma includes_sub (a b h : string) :
  includes a b = true -> includes b h = true -> includes a h = true.
Proof.
  rewrite !includes_iff.
  intros (p1 & t1 & ->) (p2 & t2 & ->).
  exists (p2 ++ p1), (t1 ++ t2).
  rewrite !append_assoc_s. reflexivity.
Qed.

Lemma includes_sub_false (a b h : string) :
  includes a b = true -> includes a h = false -> includes b h = false.
Proof.
  intros Hab Hah. destruct (includes b h) eqn:E; [| reflexivity].
  rewrite (includes_sub a b h Hab E) in Hah. discriminate.
Qed.

(** ** Letter case *)

Lemma upper_char_not_lower (c : ascii) : is_lower (upper_char c) = false.
Proof.
  destruct c as [[] [] [] [] [] [] [] []]; vm_compute; reflexivity.
Qed.

Lemma toUpperCase_no_lower (s : string) : has_lower (toUpperCase s) = false.
Proof.
  induction s as [| c s IH]; cbn; [reflexivity|].
  rewrite upper_char_not_lower. exact IH.
Qed.

Lemma has_lower_app (a b : string) :
  has_lower (a ++ b) = has_lower a || has_lower b.
Proof.
  induction a as [| c a IH]; [reflexivity|].
  rewrite append_cons. cbn [has_lower]. rewrite IH, orb_assoc. reflexivity.
Qed.

(** A keyword with a lower-case letter is never found in an upper-cased
    name. *)
Lemma lower_keyword_dead (kw n : string) :
  has_lower kw = true -> includes kw (toUpperCase n) = false.
Proof.
  intros Hkw. destruct (includes kw (toUpperCase n)) eqn:E; [| reflexivity].
  apply includes_iff in E. destruct E as (p & t & E).
  pose proof (toUpperCase_no_lower n) as H.
  rewrite E, !has_lower_app, Hkw, orb_true_r in H. discriminate.
Qed.

Lemma sbs_keywords_collapse (n : string) :
  some_included SBS_KEYWORDS (toUpperCase n) = includes "SBS" (toUpperCase n).
Proof.
  unfold some_included, SBS_KEYWORDS. cbn [existsb].
  rewrite (lower_keyword_dead "Half-SBS"), (lower_keyword_dead "Side-by-Side"),
          (lower_keyword_dead "sbs3d") by reflexivity.
  destruct (includes "SBS" (toUpperCase n)) eqn:E; [reflexivity|].
  rewrite (includes_sub_false "SBS" "HSBS"), (includes_sub_false "SBS" "FSBS"),
          (includes_sub_false "SBS" "3D.SBS"), (includes_sub_false "SBS" "3D-SBS"),
          (includes_sub_false "SBS" "SBS3D") by (reflexivity || exact E).
  reflexivity.
Qed.

Lemma ou_keywords_collapse (n : string) :
  some_included OU_KEYWORDS (toUpperCase n)
  = includes "OU" (toUpperCase n) || includes "TAB" (toUpperCase n)
    || includes "T-B" (toUpperCase n).
Proof.
  unfold some_included, OU_KEYWORDS. cbn [existsb].
  rewrite (lower_keyword_dead "Half-OU"), (lower_keyword_dead "Over-Under"),
          (lower_keyword_dead "Top-Bottom"), (lower_keyword_dead "TopBottom")
    by reflexivity.
  destruct (includes "OU" (toUpperCase n)) eqn:E1; [reflexivity|].
  rewrite (includes_sub_false "OU" "HOU"), (includes_sub_false "OU" "FOU")
    by (reflexivity || exact E1).
  destruct (includes "TAB" (toUpperCase n)) eqn:E2; [reflexivity|].
  rewrite (includes_sub_false "TAB" "HTAB") by (reflexivity || exact E2).
  cbn [orb]. rewrite orb_false_r. reflexivity.
Qed.

Lemma tokens_collapse (core : string) (tokens : list string) (h : string) :
  forallb (includes core) tokens = true ->
  In core tokens ->
  some_included tokens h = includes core h.
Proof.
  intros Hall Hin. unfold some_included.
  destruct (includes core h) eqn:E.
  - apply existsb_exists. exists core. split; [exact Hin | exact E].
  - destruct (existsb (fun k => includes k h) tokens) eqn:Ex; [| reflexivity].
    apply existsb_exists in Ex. destruct Ex as (k & Hk & Hkh).
    rewrite forallb_forall in Hall.
    rewrite (includes_sub core k h (Hall k Hk) Hkh) in E. discriminate.
Qed.

(** X15: among the file-name keywords of the layout step only three
    spellings matter.  With no stereo mode in the track metadata, the
    layout is sbs by file name exactly when the upper-cased name contains
    SBS, and otherwise ou by file name exactly when it contains OU, TAB or
    T-B; the keywords written with lower-case letters never match, and
    the remaining ones contain one of these. *)
Theorem layout_filename_hints (s : Snapshot)
    (Hmeta : layout_from_tracks (tracks_of s) = None) :
  let U := toUpperCase (name s) in
  let sbs := includes "SBS" U in
  let ou := includes "OU" U || includes "TAB" U || includes "T-B" U in
  (sbs = true ->
   detectLayout s = {| value := "sbs"; method := METHOD_FILENAME |}) /\
  (sbs = false -> ou = true ->
   detectLayout s = {| value := "ou"; method := METHOD_FILENAME |}) /\
  (sbs = false -> ou = false -> method (detectLayout s) <> METHOD_FILENAME).
Proof.
  cbv zeta. unfold detectLayout. cbv zeta. rewrite Hmeta.
  rewrite sbs_keywords_collapse, ou_keywords_collapse.
  split; [| split].
  - intros ->. reflexivity.
  - intros -> ->. reflexivity.
  - intros -> ->.
    destruct (qge _ _); [cbn; discriminate|].
    destruct (qle _ _); cbn; discriminate.
Qed.

Lemma layout_filename_hints_witness :
  detectLayout
    {| video := {| videoTracks := None; videoWidth := 1920; videoHeight := 1080 |};
       name := "YouTube clip.mp4"; layout := "sbs" |}
  = {| value := "ou"; method := METHOD_FILENAME |}.
Proof.
  refine (proj1 (proj2 (layout_filename_hints
    {| video := {| videoTracks := None; videoWidth := 1920; videoHeight := 1080 |};
       name := "YouTube clip.mp4"; layout := "sbs" |} _)) _ _);
    reflexivity.
Defined.

(** ** Resolution *)

Lemma threshold_le_ratio (w h : N) (p q : positive) :
  h <> 0%N ->
  Qle_bool (Zpos p # q) (inject_Z (Z.of_N w) / inject_Z (Z.of_N h))
  = (Zpos p * Z.of_N h <=? Z.of_N w * Zpos q)%Z.
Proof.
  intros Hh.
  assert (Hpos : (0 < Z.of_N h)%Z) by lia.
  destruct (Z.of_N h) as [| hp |] eqn:Eh; try lia.
  apply eq_true_iff_eq. rewrite Qle_bool_iff, Z.leb_le.
  unfold Qle, Qdiv, Qmult, Qinv, inject_Z. cbn. lia.
Qed.

(** X16: the resolution step always answers full or half with the
    method resolution.  For a frame w by h with h > 0, a side-by-side
    layout is full exactly when 10 w >= 33 h, and any other layout is
    full exactly when w < h.  A frame without height is full only for a
    side-by-side layout of positive width; a frame without any size is
    half. *)
Theorem detectResolution_thresholds (s : Snapshot) (layout0 : string) :
  let w := videoWidth (video s) in
  let h := videoHeight (video s) in
  let r := detectResolution s layout0 in
  method r = METHOD_RESOLUTION /\
  (value r = "full" \/ value r = "half") /\
  (h <> 0%N -> layout0 = "sbs" ->
   (value r = "full" <-> (33 * h <= 10 * w)%N)) /\
  (h <> 0%N -> layout0 <> "sbs" ->
   (value r = "full" <-> (w < h)%N)) /\
  (h = 0%N -> (value r = "full" <-> layout0 = "sbs" /\ w <> 0%N)).
Proof.
  cbv zeta. unfold detectResolution. cbv zeta.
  destruct (String.eqb_spec layout0 "sbs") as [Hl | Hl].
  - split; [reflexivity|]. split; [destruct (qge _ _); cbn; auto|].
    split; [| split].
    + intros Hh _. rewrite (aspectRatio_QNum _ Hh). unfold qge, qle.
      rewrite (threshold_le_ratio _ _ 33 10 Hh).
      destruct (Z.leb_spec (33 * Z.of_N (videoHeight (video s)))
                           (Z.of_N (videoWidth (video s)) * 10)) as [H | H];
        cbn [value]; split; intros H'; try reflexivity; try lia; try discriminate.
    + intros _ Hn. contradiction.
    + intros Hh. unfold aspectRatio, of_N. rewrite Hh.
      destruct (videoWidth (video s)) as [| p] eqn:Ew; cbn.
      * split; [discriminate | intros [_ H]; contradiction].
      * split; [intros _; split; [exact Hl | discriminate] | reflexivity].
  - split; [reflexivity|]. split; [destruct (qlt _ _); cbn; auto|].
    split; [| split].
    + intros _ Hn. contradiction.
    + intros Hh _. rewrite (aspectRatio_QNum _ Hh). unfold qlt.
      change 1%Q with (1 # 1).
      rewrite (threshold_le_ratio _ _ 1 1 Hh).
      destruct (Z.leb_spec (1 * Z.of_N (videoHeight (video s)))
                           (Z.of_N (videoWidth (video s)) * 1)) as [H | H];
        cbn [value negb]; split; intros H'; try reflexivity; try lia; try discriminate.
    + intros Hh. unfold aspectRatio, of_N. rewrite Hh.
      destruct (videoWidth (video s)) as [| p] eqn:Ew; cbn.
      * split; [discriminate | intros [H _]; contradiction].
      * split; [discriminate | intros [H _]; contradiction].
Qed.

(** ** Projection *)

(** X17: a truthy answer of the metadata step is the projection, with
    method metadata.  When that step gives nothing or fails, the name
    decides, and of the listed tokens only two matter: a lower-cased name
    that contains 360 gives vr360, otherwise one that contains 180 gives
    vr180, both with method filename; any other name keeps the current
    projection with method default. *)
Theorem detectProjection_tiers (meta : Mkv.outcome (option string))
    (name0 projection : string) :
  let lower := toLowerCase name0 in
  detectProjection meta name0 projection =
  match meta with
  | Mkv.Returned (Some (String c t)) =>
      {| value := String c t; method := METHOD_METADATA |}
  | _ =>
      if includes "360" lower then {| value := "vr360"; method := METHOD_FILENAME |}
      else if includes "180" lower then {| value := "vr180"; method := METHOD_FILENAME |}
      else {| value := projection; method := METHOD_DEFAULT |}
  end.
Proof.
  cbv zeta. unfold detectProjection, projection_from_name. cbv zeta.
  rewrite (tokens_collapse "360" VR360_TOKENS),
          (tokens_collapse "180" VR180_TOKENS)
    by (reflexivity || (cbn; tauto)).
  destruct meta as [[[| c t] |] |]; reflexivity.
Qed.

End DetectorExtras.

(* ===================================================================== *)
(** * The container text and the XMP packet *)
(* ===================================================================== *)

Section ContainerExtras.
Import JsString Mkv Container.
Local Open Scope string_scope.

Lemma append_nil_r (a : string) : a ++ "" = a.
Proof.
  induction a as [| x a IH]; [reflexivity|].
  rewrite append_cons, IH. reflexivity.
Qed.

Lemma length_append (a b : string) :
  String.length (a ++ b) = (String.length a + String.length b)%nat.
Proof.
  induction a as [| x a IH]; [reflexivity|].
  rewrite append_cons. cbn [String.length]. rewrite IH. reflexivity.
Qed.

(** ** [_asciiFromBytes] *)

Lemma asciiFromBytes_from (bytes : list Byte.byte) (acc : string) :
  fold_left (fun s c => s ++ ascii_piece c) bytes acc
  = acc ++ _asciiFromBytes bytes.
Proof.
  unfold _asciiFromBytes. revert acc.
  induction bytes as [| b bytes IH]; intros acc; cbn [fold_left].
  - rewrite append_nil_r. reflexivity.
  - rewrite IH, (IH ("" ++ ascii_piece b)), append_nil_l, append_assoc_s.
    reflexivity.
Qed.

Lemma asciiFromBytes_cons (b : Byte.byte) (bytes : list Byte.byte) :
  _asciiFromBytes (b :: bytes) = ascii_piece b ++ _asciiFromBytes bytes.
Proof.
  unfold _asciiFromBytes at 1. cbn [fold_left].
  rewrite asciiFromBytes_from, append_nil_l. reflexivity.
Qed.

Lemma asciiFromBytes_app (a b : list Byte.byte) :
  _asciiFromBytes (a ++ b)%list = _asciiFromBytes a ++ _asciiFromBytes b.
Proof.
  induction a as [| x a IH]; [reflexivity|].
  rewrite <- app_comm_cons, !asciiFromBytes_cons, IH, append_assoc_s.
  reflexivity.
Qed.

Lemma all_text_app (a b : string) : all_text (a ++ b) = all_text a && all_text b.
Proof.
  induction a as [| x a IH]; [reflexivity|].
  rewrite append_cons. cbn [all_text]. rewrite IH, andb_assoc. reflexivity.
Qed.

Lemma ascii_piece_text (b : Byte.byte) : all_text (ascii_piece b) = true.
Proof. destruct b; vm_compute; reflexivity. Qed.

Lemma ascii_piece_length (b : Byte.byte) :
  String.length (ascii_piece b) = if is_text_byte b then 1%nat else 6%nat.
Proof. unfold ascii_piece. destruct (is_text_byte b); reflexivity. Qed.

(** X18: the text made from the bytes of a file keeps every byte that is
    printable ASCII, a tab, a line feed or a carriage return as the
    character of that code, and writes every other byte as the six
    characters backslash u 0 0 0 0.  So the text of two byte runs is the
    text of the first followed by the text of the second, it never holds
    a character outside that set, a run of text bytes comes out as it
    went in, and each other byte moves what follows by six places instead
    of one. *)
Theorem asciiFromBytes_text (a b : list Byte.byte) :
  _asciiFromBytes (a ++ b)%list = _asciiFromBytes a ++ _asciiFromBytes b /\
  all_text (_asciiFromBytes a) = true /\
  (forallb is_text_byte a = true ->
   _asciiFromBytes a = string_of_list_byte a) /\
  String.length (_asciiFromBytes a)
  = (List.length (List.filter is_text_byte a)
     + 6 * List.length (List.filter (fun c => negb (is_text_byte c)) a))%nat.
Proof.
  split; [apply asciiFromBytes_app|].
  split; [| split].
  - induction a as [| x a IH]; [reflexivity|].
    rewrite asciiFromBytes_cons, all_text_app, ascii_piece_text, IH. reflexivity.
  - induction a as [| x a IH]; [reflexivity|].
    cbn [forallb]. rewrite andb_true_iff. intros [Hx Ha].
    rewrite asciiFromBytes_cons, (IH Ha). unfold ascii_piece. rewrite Hx.
    reflexivity.
  - induction a as [| x a IH]; [reflexivity|].
    rewrite asciiFromBytes_cons, length_append, ascii_piece_length, IH.
    cbn [List.filter]. destruct (is_text_byte x); cbn [negb List.length]; lia.
Qed.

(** ** Positions in a string *)

Lemma indexOf_Some (n h : string) :
  n <> "" ->
  forall from i,
    indexOf n h from = Some i ->
    (from <= i)%nat /\ exists pre post, h = pre ++ n ++ post /\ String.length pre = i.
Proof.
  intros Hn. induction h as [| c h IH]; intros from i H.
  - destruct from; cbn [indexOf] in H.
    + destruct (startsWith n "") eqn:E; [| discriminate].
      injection H as <-. split; [lia|].
      apply startsWith_iff in E. destruct E as [t Ht].
      exists "", t. split; [exact Ht | reflexivity].
    + destruct n; [contradiction | cbn in H; discriminate].
  - destruct from; cbn [indexOf] in H.
    + destruct (startsWith n (String c h)) eqn:E.
      * injection H as <-. split; [lia|].
        apply startsWith_iff in E. destruct E as [t Ht].
        exists "", t. split; [exact Ht | reflexivity].
      * destruct (indexOf n h 0) as [i' |] eqn:E'; [| discriminate].
        injection H as <-. destruct (IH 0%nat i' E') as (_ & pre & post & -> & Hl).
        split; [lia|]. exists (String c pre), post.
        split; [reflexivity | cbn; lia].
    + destruct (indexOf n h from) as [i' |] eqn:E'; [| discriminate].
      injection H as <-. destruct (IH from i' E') as (Hle & pre & post & -> & Hl).
      split; [lia|]. exists (String c pre), post.
      split; [reflexivity | cbn; lia].
Qed.

Lemma indexOf_includes (n h : string) :
  indexOf n h 0 = None <-> includes n h = false.
Proof.
  induction h as [| c h IH]; cbn [indexOf includes].
  - destruct (startsWith n ""); cbn; split; congruence.
  - destruct (startsWith n (String c h)); cbn [orb].
    + split; discriminate.
    + rewrite <- IH. destruct (indexOf n h 0); cbn; split; congruence.
Qed.

Lemma indexOf_from (n h : string) (from : nat) :
  (from <= String.length h)%nat ->
  indexOf n h from = option_map (Nat.add from) (indexOf n (str_drop from h) 0).
Proof.
  revert from. induction h as [| c h IH]; intros from Hle.
  - cbn in Hle. assert (from = 0%nat) as -> by lia.
    cbn. destruct (startsWith n ""); reflexivity.
  - destruct from as [| k].
    + cbn [str_drop]. destruct (indexOf n (String c h) 0); reflexivity.
    + cbn [indexOf str_drop]. cbn in Hle. rewrite (IH k) by lia.
      destruct (indexOf n (str_drop k h) 0); reflexivity.
Qed.

Lemma str_drop_all (pre rest : string) :
  str_drop (String.length pre) (pre ++ rest) = rest.
Proof.
  induction pre as [| c pre IH]; [destruct rest; reflexivity|].
  rewrite append_cons. cbn [String.length str_drop]. exact IH.
Qed.

Lemma str_take_app (a b : string) (k : nat) :
  k = String.length a -> str_take k (a ++ b) = a.
Proof.
  intros ->. induction a as [| c a IH]; [destruct b; reflexivity|].
  rewrite append_cons. cbn [String.length str_take]. rewrite IH. reflexivity.
Qed.

(** [indexOf] gives the first occurrence. *)
Lemma indexOf_least (n h : string) :
  forall k, indexOf n h 0 = Some k ->
  forall p t, h = p ++ n ++ t -> (k <= String.length p)%nat.
Proof.
  induction h as [| c h IH]; intros k Hk p t Hh; cbn [indexOf] in Hk.
  - destruct (startsWith n ""); [| discriminate]. injection Hk as <-. lia.
  - destruct (startsWith n (String c h)) eqn:E.
    + injection Hk as <-. lia.
    + destruct (indexOf n h 0) as [k' |] eqn:E'; [| discriminate].
      injection Hk as <-. destruct p as [| d p].
      * exfalso. rewrite append_nil_l in Hh.
        assert (startsWith n (String c h) = true)
          by (apply startsWith_iff; exists t; exact Hh).
        congruence.
      * rewrite append_cons in Hh. injection Hh as _ Hh.
        specialize (IH k' eq_refl p t Hh). cbn [String.length]. lia.
Qed.

(** An end tag cannot begin inside the start marker. *)
Lemma start_before_end (mid rest : string) :
  startsWith XMP_START (mid ++ XMP_END ++ rest) = true ->
  exists body, mid = XMP_START ++ body.
Proof.
  unfold XMP_START, XMP_END.
  destruct mid as [| c0 [| c1 [| c2 [| c3 [| c4 [| c5 [| c6 [| c7 [| c8 [| c9 body]]]]]]]]]];
    cbv [append startsWith]; intros H;
    repeat (apply andb_prop in H; destruct H as [?H H]);
    repeat match goal with
    | E : Ascii.eqb _ _ = true |- _ => apply Ascii.eqb_eq in E; try discriminate E
    end.
  subst. exists body. reflexivity.
Qed.

(** X19: from a readable source the packet reader looks at the text of
    the first 16 MiB only.  It gives nothing exactly when that text has
    no start marker or no end tag from the first start marker on; what it
    gives is a piece of the text that begins with the first start marker
    and ends with the first end tag after it, both included. *)
Theorem extractXmp_first_packet (f : FileRef) (bytes : list Byte.byte)
    (Hread : _readBytes f 0 XMP_CHUNK = Returned (Some bytes)) :
  let text := _asciiFromBytes bytes in
  (_extractXmpFromMp4 f = Returned None <->
   includes XMP_START text = false \/
   exists i, indexOf XMP_START text 0 = Some i
             /\ includes XMP_END (str_drop i text) = false) /\
  (forall xmp, _extractXmpFromMp4 f = Returned (Some xmp) ->
   exists before body after,
     text = before ++ xmp ++ after
     /\ xmp = XMP_START ++ body ++ XMP_END
     /\ indexOf XMP_START text 0 = Some (String.length before)
     /\ includes XMP_END (XMP_START ++ body) = false) /\
  _extractXmpFromMp4 f <> Thrown.
Proof.
  cbv zeta. unfold _extractXmpFromMp4. rewrite Hread. cbv zeta.
  set (text := _asciiFromBytes bytes).
  destruct (indexOf XMP_START text 0) as [i |] eqn:Ei.
  - assert (Hi := indexOf_Some XMP_START text ltac:(discriminate) _ _ Ei).
    destruct Hi as (_ & pre & post1 & Htext & Hpre).
    assert (Hlen : (i <= String.length text)%nat).
    { rewrite Htext, length_append. lia. }
    rewrite (indexOf_from XMP_END text i Hlen).
    assert (Hinc : includes XMP_START text = true).
    { destruct (includes XMP_START text) eqn:E; [reflexivity|].
      apply indexOf_includes in E. congruence. }
    destruct (indexOf XMP_END (str_drop i text) 0) as [k |] eqn:Ek; cbn [option_map].
    + split; [| split; [| discriminate]].
      * split; [discriminate|].
        intros [H | (i' & Hi' & H)]; [congruence|].
        injection Hi' as <-. apply indexOf_includes in H. congruence.
      * intros xmp Hx. injection Hx as <-.
        assert (Hk := indexOf_Some XMP_END _ ltac:(discriminate) _ _ Ek).
        destruct Hk as (_ & mid & post2 & Hdrop & Hmid).
        assert (Hrest : str_drop i text = XMP_START ++ post1).
        { rewrite Htext, <- Hpre. apply str_drop_all. }
        assert (Hstart : startsWith XMP_START (mid ++ XMP_END ++ post2) = true).
        { rewrite <- Hdrop, Hrest. apply startsWith_iff. exists post1. reflexivity. }
        destruct (start_before_end _ _ Hstart) as [body Hbody].
        assert (Hslice : slice text i (i + k + String.length XMP_END)
                         = mid ++ XMP_END).
        { unfold slice. rewrite Hdrop, <- append_assoc_s.
          apply str_take_app. rewrite length_append. lia. }
        change (String.length XMP_END) with 12%nat in Hslice.
        exists pre, body, post2. rewrite Hslice, Hbody.
        split; [| split; [| split]].
        -- rewrite Htext. f_equal.
           rewrite <- Hrest, Hdrop, Hbody, !append_assoc_s. reflexivity.
        -- rewrite append_assoc_s. reflexivity.
        -- rewrite Hpre. reflexivity.
        -- destruct (includes XMP_END (XMP_START ++ body)) eqn:E; [| reflexivity].
           exfalso. rewrite <- Hbody in E.
           apply includes_iff in E. destruct E as (p & t & Hp).
           assert (Hle : (k <= String.length p)%nat).
           { apply (indexOf_least XMP_END _ k Ek p (t ++ XMP_END ++ post2)).
             rewrite Hdrop, Hp, !append_assoc_s. reflexivity. }
           rewrite Hp, !length_append in Hmid.
           change (String.length XMP_END) with 12%nat in Hmid. lia.
    + split; [| split; [| discriminate]].
      * split; [| reflexivity].
        intros _. right. exists i. split; [reflexivity|].
        apply indexOf_includes. exact Ek.
      * intros xmp Hx. discriminate.
  - split; [| split; [| discriminate]].
    + split; [| reflexivity].
      intros _. left. apply indexOf_includes. exact Ei.
    + intros xmp Hx. discriminate.
Qed.

Lemma extractXmp_first_packet_witness :
  let data := (Byte.x00 :: list_byte_of_string "ftyp<x:xmpmeta a=1>x</x:xmpmeta>mdat")%list in
  exists before body after,
    _asciiFromBytes data = before ++ "<x:xmpmeta a=1>x</x:xmpmeta>" ++ after
    /\ "<x:xmpmeta a=1>x</x:xmpmeta>" = XMP_START ++ body ++ XMP_END
    /\ indexOf XMP_START (_asciiFromBytes data) 0 = Some (String.length before)
    /\ includes XMP_END (XMP_START ++ body) = false.
Proof.
  intros data.
  assert (Hread : _readBytes (FileBlob data) 0 XMP_CHUNK = Returned (Some data))
    by (vm_compute; reflexivity).
  apply (proj1 (proj2 (extractXmp_first_packet (FileBlob data) data Hread))).
  vm_compute. reflexivity.
Defined.

End ContainerExtras.

(* ===================================================================== *)
(** * Resizing and the setters of the renderer *)
(* ===================================================================== *)

Section ViewportExtras.
Import JsNum Viewport.
Local Open Scope R_scope.






(** ** Setters *)

Lemma resize_perspective (v : View) (s : Render.State) :
  Render.camera (render v) = Render.PerspectiveCamera ->
  render (resize v s) = render v
  \/ render (resize v s) = Render._applyPanAndZoomClamps (render v).
Proof.
  intros Hcam. unfold resize. destruct (_ || _)%bool; [left; reflexivity|].
  rewrite Hcam. right. reflexivity.
Qed.

Lemma updateMaterial_view (r : Render.Render) (s : Render.State) :
  Render.camera (Render.updateMaterial r s) = Render.camera r
  /\ Render.fov (Render.updateMaterial r s) = Render.fov r
  /\ Render.yaw (Render.updateMaterial r s) = Render.yaw r
  /\ Render.pitch (Render.updateMaterial r s) = Render.pitch r
  /\ Render.rotation (Render.updateMaterial r s) = Render.rotation r
  /\ Render._projHFovDeg (Render.updateMaterial r s) = Render._projHFovDeg r
  /\ Render._projVFovDeg (Render.updateMaterial r s) = Render._projVFovDeg r
  /\ Render.clientWidth (Render.updateMaterial r s) = Render.clientWidth r
  /\ Render.clientHeight (Render.updateMaterial r s) = Render.clientHeight r.
Proof.
  unfold Render.updateMaterial. destruct (Render.mesh r); [| repeat split].
  destruct (Render.type_differs _ _); repeat split.
Qed.

(** X21: [setView] and [setProjection] under a spherical projection make
    the perspective camera current and recentre it: yaw, pitch and the
    camera rotation are zero afterwards, whatever they were and whether
    or not the projection changed; the material bound afterwards is the
    one [updateMaterial] binds for the snapshot. *)
Theorem setView_recentres_spherical_camera (v : View) (s : Render.State)
    (Hp : Render.projection s = "vr180"%string \/ Render.projection s = "vr360"%string) :
  setProjection v s = setView v s /\
  let r' := render (setView v s) in
  Render.camera r' = Render.PerspectiveCamera
  /\ Render.yaw r' = Num 0 /\ Render.pitch r' = Num 0
  /\ Render.rotation r' = (Num 0, Num 0)
  /\ Render.mesh r'
     = Render.mesh (Render.updateMaterial
                      (Render._applyProjectionAndViewGeometry (render v)
                         (Render.projection s)) s).
Proof.
  split; [reflexivity|]. cbv zeta. unfold setView. cbv zeta. unfold with_render.
  cbn [render videoWidth videoHeight ortho aspect].
  set (r1 := Render._applyProjectionAndViewGeometry (render v) (Render.projection s)).
  destruct (projection_geometry_state (render v) _ Hp)
    as (Hs & _ & Hcam & Hy & Hpt & Hrot & Hb & _).
  fold r1 in Hs, Hcam, Hy, Hpt, Hrot, Hb.
  set (r2 := Render.updateMaterial r1 s).
  destruct (updateMaterial_view r1 s)
    as (Ec & Ef & Ey & Ep & Er & EH & EV & Ecw & Ech).
  fold r2 in Ec, Ef, Ey, Ep, Er, EH, EV, Ecw, Ech.
  assert (Hcam2 : Render.camera r2 = Render.PerspectiveCamera) by congruence.
  destruct (resize_perspective
              {| render := r2; videoWidth := videoWidth v; videoHeight := videoHeight v;
                 ortho := ortho v; aspect := aspect v |} s Hcam2) as [-> | ->];
    cbn [render].
  - repeat split; congruence.
  - assert (Hs2 : CameraState.spherical r2).
    { destruct Hs as (H1 & H2 & H3). unfold CameraState.spherical.
      rewrite Ec, EV, EH. repeat split; assumption. }
    destruct Hb as (f & y & p & hf & Hf & _).
    destruct (clamp_pass_values r2 f 0 0 Hs2) as
      (f' & hf' & y' & p' & -> & _ & _ & _ & _ & _ & _ & _ & Hy0 & Hp0);
      try congruence.
    rewrite (Hy0 eq_refl), (Hp0 eq_refl).
    cbn [Render.with_view Render.camera Render.yaw Render.pitch Render.rotation
         Render.mesh].
    repeat split; try reflexivity. exact Hcam2.
Qed.

Lemma setView_recentres_spherical_camera_witness :
  let v := new_View 1280 720 3840 1920 in
  let s := Render.anaglyph_vr_state (Num 0) in
  Render.yaw (render (setView v s)) = Num 0.
Proof.
  intros v s.
  assert (Hp : Render.projection s = "vr180"%string \/ Render.projection s = "vr360"%string)
    by (left; reflexivity).
  exact (proj1 (proj2 (proj2 (setView_recentres_spherical_camera v s Hp)))).
Defined.

End ViewportExtras.

(* ===================================================================== *)
(** * The value clamp of the debug panel and the frame-rate estimate *)
(* ===================================================================== *)

Section DebugExtras.
Import JsNum.
Local Open Scope R_scope.

(** X22: the clamp of the debug panel always gives a number between 0
    and 1, NaN and the infinities included: NaN becomes 0, a number in
    [0, 1] is kept, everything below becomes 0 and everything above 1;
    clamping twice changes nothing more. *)
Theorem debug_clamp_unit_interval (value : jsnum) :
  (exists x, Debug.clamp value = Num x /\ 0 <= x <= 1) /\
  Debug.clamp NaN = Num 0 /\
  (forall x, 0 <= x <= 1 -> Debug.clamp (Num x) = Num x) /\
  (forall x, x <= 0 -> Debug.clamp (Num x) = Num 0) /\
  (forall x, 1 <= x -> Debug.clamp (Num x) = Num 1) /\
  Debug.clamp NegInf = Num 0 /\ Debug.clamp PosInf = Num 1 /\
  Debug.clamp (Debug.clamp value) = Debug.clamp value.
Proof.
  assert (Hnum : forall x, Debug.clamp (Num x) = Num (Rmin 1 (Rmax 0 x)))
    by reflexivity.
  split; [| split; [reflexivity | split; [| split; [| split; [| split; [| split]]]]]].
  - destruct value as [| | x |]; cbn.
    + exists 0. split; [reflexivity | lra].
    + exists (Rmin 1 0). split; [reflexivity|]. split_Rle_dec; lra.
    + exists (Rmin 1 (Rmax 0 x)). split; [reflexivity|]. split_Rle_dec; lra.
    + exists 1. split; [reflexivity | lra].
  - intros x Hx. rewrite Hnum. f_equal. split_Rle_dec; lra.
  - intros x Hx. rewrite Hnum. f_equal. split_Rle_dec; lra.
  - intros x Hx. rewrite Hnum. f_equal. split_Rle_dec; lra.
  - cbn. f_equal. split_Rle_dec; lra.
  - reflexivity.
  - destruct value as [| | x |]; cbn; f_equal; split_Rle_dec; lra.
Qed.

End DebugExtras.

Section PipelineExtras.
Import Sorted Qabs QNum Pipeline.
Local Open Scope Q_scope.

(** ** Sorting *)

Lemma Qle_bool_false (x y : Q) : Qle_bool x y = false -> y <= x.
Proof.
  intros H. apply Qlt_le_weak. apply Qnot_le_lt. intros Hle.
  apply Qle_bool_iff in Hle. congruence.
Qed.

Lemma insert_length (x : Q) (l : list Q) :
  List.length (insert x l) = S (List.length l).
Proof.
  induction l as [| y l IH]; [reflexivity|].
  cbn [insert]. destruct (Qle_bool x y); cbn [List.length]; [reflexivity|].
  rewrite IH. reflexivity.
Qed.

Lemma sort_length (l : list Q) : List.length (sort l) = List.length l.
Proof.
  induction l as [| x l IH]; [reflexivity|].
  cbn [sort fold_right]. fold (sort l). rewrite insert_length, IH. reflexivity.
Qed.

Lemma insert_Forall (P : Q -> Prop) (x : Q) (l : list Q) :
  P x -> Forall P l -> Forall P (insert x l).
Proof.
  intros Hx Hl. induction Hl as [| y l Hy Hl IH]; cbn [insert].
  - constructor; [exact Hx | constructor].
  - destruct (Qle_bool x y).
    + constructor; [exact Hx|]. constructor; assumption.
    + constructor; assumption.
Qed.

Lemma sort_Forall (P : Q -> Prop) (l : list Q) : Forall P l -> Forall P (sort l).
Proof.
  intros Hl. induction Hl as [| x l Hx Hl IH]; [constructor|].
  cbn [sort fold_right]. fold (sort l). apply insert_Forall; assumption.
Qed.

Lemma insert_Permutation (x : Q) (l : list Q) : Permutation (insert x l) (x :: l).
Proof.
  induction l as [| y l IH]; [reflexivity|].
  cbn [insert]. destruct (Qle_bool x y); [reflexivity|].
  rewrite IH. apply perm_swap.
Qed.

Lemma sort_Permutation (l : list Q) : Permutation (sort l) l.
Proof.
  induction l as [| x l IH]; [reflexivity|].
  cbn [sort fold_right]. fold (sort l).
  rewrite insert_Permutation, IH. reflexivity.
Qed.

Lemma insert_sorted (x : Q) (l : list Q) :
  StronglySorted Qle l -> StronglySorted Qle (insert x l).
Proof.
  intros Hl. induction Hl as [| y l Hl IH Hy]; cbn [insert].
  - constructor; constructor.
  - destruct (Qle_bool x y) eqn:E.
    + apply Qle_bool_iff in E. constructor.
      * constructor; assumption.
      * constructor; [exact E|].
        eapply List.Forall_impl; [| exact Hy].
        intros z Hz. cbn. eapply Qle_trans; eassumption.
    + apply Qle_bool_false in E. constructor; [exact IH|].
      apply insert_Forall; assumption.
Qed.

Lemma sort_sorted (l : list Q) : StronglySorted Qle (sort l).
Proof.
  induction l as [| x l IH]; [constructor|].
  cbn [sort fold_right]. fold (sort l). apply insert_sorted. exact IH.
Qed.

(** ** The nearest rate *)

Lemma closer_finite (q best rate : Q) :
  let b := closer (QNum q) best rate in
  (b = best \/ b = rate)
  /\ Qabs (b - q) <= Qabs (best - q)
  /\ Qabs (b - q) <= Qabs (rate - q).
Proof.
  cbv zeta. unfold closer. cbn [qsub qneg qadd qabs qlt].
  destruct (Qle_bool (Qabs (best + - q)) (Qabs (rate + - q))) eqn:E; cbn [negb].
  - apply Qle_bool_iff in E. split; [left; reflexivity|].
    split; [apply Qle_refl | exact E].
  - apply Qle_bool_false in E. split; [right; reflexivity|].
    split; [exact E | apply Qle_refl].
Qed.

Lemma closer_not_finite (raw : qnum) (best rate : Q) :
  isFinite raw = false -> closer raw best rate = best.
Proof. destruct raw; [reflexivity | reflexivity | discriminate | reflexivity]. Qed.

Lemma nearest_fold (q : Q) (l : list Q) :
  forall b0,
    let b := fold_left (closer (QNum q)) l b0 in
    (b = b0 \/ In b l)
    /\ Qabs (b - q) <= Qabs (b0 - q)
    /\ (forall r, In r l -> Qabs (b - q) <= Qabs (r - q)).
Proof.
  induction l as [| x l IH]; intros b0; cbn [fold_left].
  - split; [left; reflexivity|]. split; [apply Qle_refl|]. intros r [].
  - destruct (closer_finite q b0 x) as (Hc & H0 & Hx).
    destruct (IH (closer (QNum q) b0 x)) as (Hin & Hle & Hall).
    split; [| split].
    + destruct Hin as [-> | Hin]; [| right; right; exact Hin].
      destruct Hc as [-> | ->]; [left; reflexivity | right; left; reflexivity].
    + eapply Qle_trans; eassumption.
    + intros r [<- | Hr]; [eapply Qle_trans; eassumption | apply Hall; exact Hr].
Qed.

Lemma best_rate_nearest (q : Q) :
  In (best_rate (QNum q)) rates
  /\ forall r, In r rates -> Qabs (best_rate (QNum q) - q) <= Qabs (r - q).
Proof.
  unfold best_rate.
  destruct (nearest_fold q (tl rates) (hd 0 rates)) as (Hin & Hle & Hall).
  split.
  - destruct Hin as [-> | Hin]; [left; reflexivity | right; exact Hin].
  - intros r [<- | Hr]; [exact Hle | apply Hall; exact Hr].
Qed.

Lemma best_rate_not_finite (raw : qnum) :
  isFinite raw = false -> best_rate raw = 23976 # 1000.
Proof.
  intros H. unfold best_rate.
  assert (Hfold : forall l b, fold_left (closer raw) l b = b).
  { induction l as [| x l IH]; intros b; [reflexivity|].
    cbn [fold_left]. rewrite closer_not_finite by exact H. apply IH. }
  apply Hfold.
Qed.

Lemma best_rate_listed (raw : qnum) : In (best_rate raw) rates.
Proof.
  destruct raw as [| | q |];
    try (rewrite best_rate_not_finite by reflexivity; left; reflexivity).
  apply best_rate_nearest.
Qed.

Lemma raw_rate_few (deltas : list Q) :
  (List.length deltas < 2)%nat -> raw_rate deltas = QNaN.
Proof.
  intros H. unfold raw_rate. rewrite sort_length.
  destruct deltas as [| a [| b l]]; [reflexivity | reflexivity | cbn in H; lia].
Qed.

(** X23: the frame rate stored is always one of the listed rates.  It is
    a listed rate nearest to the raw rate, the reciprocal of the mean of
    the two middle deltas of the ascending rearrangement (of at least one
    microsecond); with fewer than two deltas, as when the video has ended
    at the first callback, no raw rate exists and 23.976 is stored. *)
Theorem getFps_nearest_listed_rate (deltas : list Q) :
  let best := best_rate (raw_rate deltas) in
  In best rates /\
  (forall q, raw_rate deltas = QNum q ->
     forall r, In r rates -> Qabs (best - q) <= Qabs (r - q)) /\
  ((List.length deltas < 2)%nat -> best = 23976 # 1000) /\
  (Permutation (sort deltas) deltas /\ StronglySorted Qle (sort deltas)) /\
  (forall frames b, getFps frames = Some b -> In b rates) /\
  (forall t rest, getFps ((t, true) :: rest) = Some (23976 # 1000)).
Proof.
  cbv zeta. split; [apply best_rate_listed|]. split; [| split; [| split; [| split]]].
  - intros q Hq r Hr. rewrite Hq. apply best_rate_nearest. exact Hr.
  - intros H. rewrite (raw_rate_few _ H). reflexivity.
  - split; [apply sort_Permutation | apply sort_sorted].
  - unfold getFps. generalize (@nil Q) as deltas0, (@None Q) as prev.
    intros deltas0 prev frames. revert deltas0 prev.
    induction frames as [| [t e] frames IH]; intros deltas0 prev b; cbn [tick].
    + discriminate.
    + destruct (_ && _)%bool.
      * apply IH.
      * intros H. injection H as <-. apply best_rate_listed.
  - intros t rest. reflexivity.
Qed.

(** ** A steady stream *)

Lemma nth_error_Forall (d : Q) (l : list Q) (i : nat) :
  Forall (Qeq d) l -> (i < List.length l)%nat ->
  exists x, nth_error l i = Some x /\ x == d.
Proof.
  intros Hl Hi. destruct (nth_error l i) as [x |] eqn:E.
  - exists x. split; [reflexivity|].
    apply nth_error_In in E. rewrite List.Forall_forall in Hl.
    symmetry. apply Hl. exact E.
  - apply nth_error_None in E. lia.
Qed.

(** Twelve equal deltas give the reciprocal of the delta as raw rate. *)
Lemma raw_rate_equal_deltas (d : Q) (deltas : list Q) :
  1 # 1000000 <= d ->
  Forall (Qeq d) deltas -> List.length deltas = 12%nat ->
  exists q, raw_rate deltas = QNum q /\ q == 1 / d.
Proof.
  intros Hd Hall Hlen.
  assert (Hpos : 0 < d) by (eapply Qlt_le_trans; [| exact Hd]; reflexivity).
  unfold raw_rate. rewrite sort_length, Hlen.
  change (Z.shiftr (Z.of_nat 12) 1) with 6%Z.
  pose proof (sort_Forall _ _ Hall) as Hs.
  destruct (nth_error_Forall d (sort deltas) 5 Hs) as (x5 & E5 & H5);
    [rewrite sort_length; lia|].
  destruct (nth_error_Forall d (sort deltas) 6 Hs) as (x6 & E6 & H6);
    [rewrite sort_length; lia|].
  unfold at_index.
  change (6 - 1 <? 0)%Z with false. change (6 <? 0)%Z with false.
  change (Z.to_nat (6 - 1)) with 5%nat. change (Z.to_nat 6) with 6%nat.
  rewrite E5, E6. cbn [qadd qmul qmax].
  set (m := (x5 + x6) * (5 # 10)).
  assert (Hm : m == d).
  { unfold m. rewrite H5, H6. field. }
  assert (Hle : Qle_bool (1 # 1000000) m = true).
  { apply Qle_bool_iff. rewrite Hm. exact Hd. }
  rewrite Hle. unfold qdiv.
  assert (Hne : Qeq_bool m 0 = false).
  { destruct (Qeq_bool m 0) eqn:E; [| reflexivity].
    apply Qeq_bool_iff in E. rewrite Hm in E. rewrite E in Hpos.
    exfalso. exact (Qlt_irrefl _ Hpos). }
  rewrite Hne. exists (1 / m). split; [reflexivity|].
  rewrite Hm. reflexivity.
Qed.

Lemma tick_steady (d : Q) (n : nat) :
  0 < d ->
  forall t p deltas,
    Forall (Qeq d) deltas -> t - p == d ->
    (List.length deltas < 12)%nat -> (12 <= List.length deltas + n)%nat ->
    exists deltas',
      tick (steady t d n) deltas (Some p) = Some (best_rate (raw_rate deltas'))
      /\ Forall (Qeq d) deltas' /\ List.length deltas' = 12%nat.
Proof.
  intros Hd. induction n as [| n IH]; intros t p deltas Hall Htp Hlt Hge.
  - lia.
  - cbn [steady tick].
    assert (Hstep : Qle_bool (t - p) 0 = false).
    { destruct (Qle_bool (t - p) 0) eqn:E; [| reflexivity].
      apply Qle_bool_iff in E. rewrite Htp in E.
      exfalso. exact (Qlt_not_le _ _ Hd E). }
    rewrite Hstep. cbn [negb].
    assert (Hall' : Forall (Qeq d) (deltas ++ [t - p])%list).
    { apply Forall_app. split; [exact Hall|].
      constructor; [symmetry; exact Htp | constructor]. }
    assert (Hlen' : List.length (deltas ++ [t - p])%list = S (List.length deltas)).
    { rewrite List.length_app. cbn. lia. }
    rewrite Hlen', andb_true_r. unfold samples.
    destruct (Nat.ltb_spec (S (List.length deltas)) 12) as [H | H].
    + apply IH; try assumption; try lia. unfold Qminus. field.
    + exists (deltas ++ [t - p])%list. split; [reflexivity|].
      split; [exact Hall' | lia].
Qed.

(** X24: frames presented at a steady interval d of at least one
    microsecond, thirteen or more of them before the video ends, get a
    frame rate stored, and it is a listed rate nearest to 1/d. *)
Theorem getFps_steady_stream (t0 d : Q) (n : nat)
    (Hd : 1 # 1000000 <= d) (Hn : (13 <= n)%nat) :
  exists b,
    getFps (steady t0 d n) = Some b
    /\ In b rates
    /\ forall r, In r rates -> Qabs (b - 1 / d) <= Qabs (r - 1 / d).
Proof.
  assert (Hpos : 0 < d) by (eapply Qlt_le_trans; [| exact Hd]; reflexivity).
  destruct n as [| n]; [lia|].
  unfold getFps. cbn [steady tick List.length]. unfold samples.
  change ((0 <? 12)%nat && negb false)%bool with true. cbv iota.
  destruct (tick_steady d n Hpos (t0 + d) t0 []) as (deltas & -> & Hall & Hlen).
  - constructor.
  - unfold Qminus. field.
  - cbn. lia.
  - cbn. lia.
  - destruct (raw_rate_equal_deltas d deltas Hd Hall Hlen) as (q & -> & Hq).
    exists (best_rate (QNum q)). split; [reflexivity|].
    destruct (best_rate_nearest q) as (Hin & Hnear).
    split; [exact Hin|].
    intros r Hr. rewrite <- Hq. apply Hnear. exact Hr.
Qed.

Lemma getFps_steady_stream_witness :
  exists b,
    getFps (steady 0 (1 # 30) 13) = Some b
    /\ In b rates
    /\ forall r, In r rates -> Qabs (b - 1 / (1 # 30)) <= Qabs (r - 1 / (1 # 30)).
Proof.
  apply getFps_steady_stream.
  - unfold Qle. cbn. lia.
  - lia.
Defined.

End PipelineExtras.

(* ===================================================================== *)
(** * The time code *)
(* ===================================================================== *)

Section TextExtras.
Import Qround UtilsText.
Local Open Scope Q_scope.

Lemma Qfloor_div_pos (x : Q) (n : positive) :
  Qfloor (x / inject_Z (Zpos n)) = (Qfloor x / Zpos n)%Z.
Proof.
  destruct x as [a b]. unfold Qdiv, Qmult, Qinv, inject_Z, Qfloor.
  cbn [Qnum Qden]. rewrite Z.mul_1_r, Pos2Z.inj_mul.
  rewrite Z.div_div by lia. reflexivity.
Qed.

Lemma Qfloor_sub_int (x : Q) (k : Z) :
  Qfloor (x - inject_Z k) = (Qfloor x - k)%Z.
Proof.
  destruct x as [a b]. unfold Qminus, Qplus, Qopp, inject_Z, Qfloor.
  cbn [Qnum Qden]. rewrite Pos.mul_1_r, Z.mul_1_r.
  replace (a + - k * Zpos b)%Z with (a + (- k) * Zpos b)%Z by ring.
  rewrite Z.div_add by lia. ring.
Qed.

Lemma qtrunc_nonneg (x : Q) (n : positive) :
  0 <= x -> qtrunc (x / inject_Z (Zpos n)) = (Qfloor x / Zpos n)%Z.
Proof.
  intros Hx. unfold qtrunc.
  assert (H : Qle_bool 0 (x / inject_Z (Zpos n)) = true).
  { apply Qle_bool_iff. apply Qle_shift_div_l; [reflexivity|].
    rewrite Qmult_0_l. exact Hx. }
  rewrite H. apply Qfloor_div_pos.
Qed.

Lemma rem_nonneg (x : Q) (n : positive) :
  0 <= x ->
  rem x (inject_Z (Zpos n)) == x - inject_Z (Zpos n * (Qfloor x / Zpos n)).
Proof.
  intros Hx. unfold rem. rewrite (qtrunc_nonneg x n Hx).
  rewrite inject_Z_mult. reflexivity.
Qed.

Lemma pad_two_digits (n : Z) : (0 <= n < 60)%Z -> String.length (pad n) = 2%nat.
Proof.
  intros Hn. replace n with (Z.of_nat (Z.to_nat n)) by lia.
  assert (Hk : (Z.to_nat n < 60)%nat) by lia.
  revert Hk. generalize (Z.to_nat n) as k. intros k Hk.
  do 60 (destruct k as [| k]; [reflexivity|]). lia.
Qed.

(** X25: for a time that is not negative, the fields of the time code
    are the hours, minutes and seconds of the whole seconds elapsed:
    with T the floor of the time, the hours are T div 3600, the minutes
    (T mod 3600) div 60 and the seconds T mod 60, so that
    3600 h + 60 m + s = T.  Minutes after an hour field and seconds are
    written with two digits; the leading field is written as it is,
    without padding; the hour field is shown when T or the duration
    reaches one hour. *)
Theorem timecode_fields (time duration : Q) (Htime : 0 <= time) :
  let T := Qfloor time in
  let h := (T / 3600)%Z in
  let m := ((T mod 3600) / 60)%Z in
  let s := (T mod 60)%Z in
  timecode time duration
  = (if ((0 <? h)%Z || (0 <? Qfloor duration / 3600)%Z)%bool
     then toString h ++ ":" ++ pad m ++ ":" ++ pad s
     else toString m ++ ":" ++ pad s)%string
  /\ (3600 * h + 60 * m + s = T)%Z
  /\ (0 <= m < 60)%Z /\ (0 <= s < 60)%Z /\ (0 <= h)%Z
  /\ String.length (pad m) = 2%nat /\ String.length (pad s) = 2%nat.
Proof.
  cbv zeta.
  assert (HT : (0 <= Qfloor time)%Z).
  { change 0%Z with (Qfloor 0). apply Qfloor_resp_le. exact Htime. }
  set (T := Qfloor time) in *.
  assert (Hm : (0 <= (T mod 3600) / 60 < 60)%Z).
  { pose proof (Z.mod_pos_bound T 3600 ltac:(lia)).
    split; [apply Z.div_pos; lia | apply Z.div_lt_upper_bound; lia]. }
  assert (Hs : (0 <= T mod 60 < 60)%Z) by (apply Z.mod_pos_bound; lia).
  assert (Hh : (0 <= T / 3600)%Z) by (apply Z.div_pos; lia).
  split; [| split; [| split; [exact Hm | split; [exact Hs | split; [exact Hh|]]]]].
  - unfold timecode. cbv zeta.
    change 3600 with (inject_Z (Zpos 3600)). change 60 with (inject_Z (Zpos 60)).
    rewrite !Qfloor_div_pos.
    rewrite (Qfloor_comp _ _ (rem_nonneg time 3600 Htime)).
    rewrite (Qfloor_comp _ _ (rem_nonneg time 60 Htime)).
    rewrite !Qfloor_sub_int. fold T.
    replace (T - 3600 * (T / 3600))%Z with (T mod 3600)%Z
      by (rewrite Z.mod_eq by lia; reflexivity).
    replace (T - 60 * (T / 60))%Z with (T mod 60)%Z
      by (rewrite Z.mod_eq by lia; reflexivity).
    reflexivity.
  - clear Hm Hs Hh. Z.div_mod_to_equations. lia.
  - split; apply pad_two_digits; assumption.
Qed.

Lemma timecode_fields_witness : timecode 3665 0 = "1:01:05"%string.
Proof.
  assert (H : 0 <= 3665) by (unfold Qle; cbn; lia).
  exact (proj1 (timecode_fields 3665 0 H)).
Defined.

End TextExtras.

(* ===================================================================== *)
(** * The EBML walker and the metadata step *)
(* ===================================================================== *)

Section WalkerExtras.
Import JsString Mkv Container MkvWalker.
Local Open Scope Z_scope.

(** ** Elements that are passed over *)

Lemma top_absent (dv : list Byte.byte) (o : Z) :
  Absent dv ID_TRACKS (byteLength dv) o ->
  exists n, forall fuel, (n <= fuel)%nat ->
    top_loop fuel dv o None = Some (Returned None).
Proof.
  induction 1 as [p Hend | p Hid | p id Hid Hsz | p id sz Hid Hsz Hne _ [n IH]].
  - exists 1%nat. intros [| fuel] Hf; [lia|]. cbn [top_loop].
    rewrite (proj2 (Z.ltb_ge p (byteLength dv)) Hend). reflexivity.
  - exists 1%nat. intros [| fuel] Hf; [lia|]. cbn [top_loop].
    rewrite Hid. destruct (_ && _)%bool; reflexivity.
  - exists 1%nat. intros [| fuel] Hf; [lia|]. cbn [top_loop].
    rewrite Hid, Hsz. destruct (_ && _)%bool; reflexivity.
  - exists (S n). intros [| fuel] Hf; [lia|]. cbn [top_loop].
    rewrite Hid, Hsz. apply Z.eqb_neq in Hne. rewrite Hne.
    destruct (_ && _)%bool; [| reflexivity].
    apply IH. lia.
Qed.

(** X26: a buffer whose top level shows no [Tracks] element, up to its
    end or up to a byte that starts no integer, gives null, whatever the
    elements passed over contain.  A file laid out as Matroska
    prescribes, with the [Tracks] element inside the [Segment], is such a
    buffer. *)
Theorem walker_reads_top_level_only (f : FileRef) (dv : list Byte.byte)
    (Hread : _readBytes f 0 MKV_CHUNK = Returned (Some dv))
    (Habsent : Absent dv ID_TRACKS (byteLength dv) 0) :
  exists n, forall fuel, (n <= fuel)%nat ->
    _readMkvProjectionType fuel f = Some (Returned None).
Proof.
  destruct (top_absent dv 0 Habsent) as [n Hn].
  exists n. intros fuel Hf. unfold _readMkvProjectionType.
  rewrite Hread. apply Hn. exact Hf.
Qed.

Lemma walker_reads_top_level_only_witness :
  exists fuel,
    _readMkvProjectionType fuel (FileBlob (matroska_file Byte.x01))
    = Some (Returned None).
Proof.
  assert (Hread : _readBytes (FileBlob (matroska_file Byte.x01)) 0 MKV_CHUNK
                  = Returned (Some (matroska_file Byte.x01)))
    by (vm_compute; reflexivity).
  assert (Habsent : Absent (matroska_file Byte.x01) ID_TRACKS
                      (byteLength (matroska_file Byte.x01)) 0).
  { eapply (absent_skip _ _ _ 0 {| value := 0x1A45DFA3; width := 4 |}
                        {| value := 0; width := 1 |});
      [vm_compute; reflexivity | vm_compute; reflexivity | vm_compute; discriminate |].
    eapply (absent_skip _ _ _ _ {| value := 0x18538067; width := 4 |}
                        {| value := 13; width := 1 |});
      [vm_compute; reflexivity | vm_compute; reflexivity | vm_compute; discriminate |].
    apply absent_end. vm_compute. discriminate. }
  destruct (walker_reads_top_level_only _ _ Hread Habsent) as [n Hn].
  exists n. apply Hn. apply Nat.le_refl.
Defined.

(** ** Elements that are entered *)

Lemma seek_reach (dv : list Byte.byte) (target end_ : Z) (P : Z -> Z -> Prop)
    (v : Z) (p : Z) :
  Reach dv target end_ P p ->
  exists n start size,
    P start size
    /\ forall fuel onEnter, (n <= fuel)%nat ->
         onEnter start size None = found_value v ->
         seek_loop fuel dv target onEnter p end_ None = found_value v.
Proof.
  induction 1 as [p id sz Hlt Hid Hsz Ht HP
                 | p id sz Hlt Hid Hsz Hne _ (n & start & size & HP & IH)].
  - exists 2%nat, (p + width id + width sz), (value sz). split; [exact HP|].
    intros [| [| fuel]] onEnter Hf Henter; try lia.
    cbn [seek_loop]. rewrite (proj2 (Z.ltb_lt p end_) Hlt). cbn [andb is_null].
    rewrite Hid, Hsz, (proj2 (Z.eqb_eq _ _) Ht). cbn [andb].
    rewrite Henter. unfold found_value. cbn [is_null].
    rewrite andb_false_r. reflexivity.
  - exists (S n), start, size. split; [exact HP|].
    intros [| fuel] onEnter Hf Henter; [lia|].
    cbn [seek_loop]. rewrite (proj2 (Z.ltb_lt p end_) Hlt). cbn [andb is_null].
    rewrite Hid, Hsz, (proj2 (Z.eqb_neq _ _) Hne). cbn [andb].
    apply IH; [lia | exact Henter].
Qed.

Lemma uint_content_read (dv : list Byte.byte) (v start size : Z) :
  uint_content dv v start size ->
  read_tail dv start (Z.to_nat size) 0 0 = Some v.
Proof.
  intros (Hs & Hn & Hlen & ->).
  rewrite (read_tail_no_overflow dv start (Z.to_nat size) 0 0); try lia.
  - rewrite Z.add_0_r. reflexivity.
  - rewrite Z2Nat.id by lia.
    assert (256 ^ size <= 256 ^ 3) by (apply Z.pow_le_mono_r; lia).
    change (256 ^ 3) with 16777216 in *. change (2 ^ 31) with 2147483648. lia.
Qed.

Lemma video_reach (dv : list Byte.byte) (end_ v p : Z) :
  Reach dv ID_PROJECTION_TYPE end_ (uint_content dv v) p ->
  exists n, forall fuel, (n <= fuel)%nat ->
    video_loop fuel dv p end_ None = found_value v.
Proof.
  induction 1 as [p id sz Hlt Hid Hsz Ht HP | p id sz Hlt Hid Hsz Hne _ (n & IH)].
  - exists 2%nat. intros [| [| fuel]] Hf; try lia.
    cbn [video_loop]. rewrite (proj2 (Z.ltb_lt p end_) Hlt). cbn [andb is_null].
    rewrite Hid, Hsz, (proj2 (Z.eqb_eq _ _) Ht).
    rewrite (uint_content_read _ _ _ _ HP). cbn [is_null].
    rewrite andb_false_r. reflexivity.
  - exists (S n). intros [| fuel] Hf; [lia|].
    cbn [video_loop]. rewrite (proj2 (Z.ltb_lt p end_) Hlt). cbn [andb is_null].
    rewrite Hid, Hsz, (proj2 (Z.eqb_neq _ _) Hne).
    apply IH. lia.
Qed.

Lemma tracks_reach (dv : list Byte.byte) (v p1 s1 : Z) :
  Reach dv ID_TRACK_ENTRY (p1 + s1)
    (fun p2 s2 =>
       Reach dv ID_VIDEO (p2 + s2)
         (fun p3 s3 =>
            Reach dv ID_PROJECTION_TYPE (p3 + s3) (uint_content dv v) p3)
         p2)
    p1 ->
  exists n, forall fuel, (n <= fuel)%nat ->
    enter_tracks fuel dv p1 s1 None = found_value v.
Proof.
  intros H.
  destruct (seek_reach _ _ _ _ v _ H) as (n2 & p2 & s2 & H2 & Hseek2).
  destruct (seek_reach _ _ _ _ v _ H2) as (n3 & p3 & s3 & H3 & Hseek3).
  destruct (video_reach _ _ _ _ H3) as (n4 & Hvideo).
  exists (n2 + n3 + n4)%nat. intros fuel Hf.
  unfold enter_tracks, seekWithin.
  apply Hseek2; [lia|].
  apply Hseek3; [lia|].
  apply Hvideo. lia.
Qed.

Lemma top_reach (dv : list Byte.byte) (v o : Z) :
  Reach dv ID_TRACKS (byteLength dv)
    (fun p1 s1 =>
       Reach dv ID_TRACK_ENTRY (p1 + s1)
         (fun p2 s2 =>
            Reach dv ID_VIDEO (p2 + s2)
              (fun p3 s3 =>
                 Reach dv ID_PROJECTION_TYPE (p3 + s3) (uint_content dv v) p3)
              p2)
         p1)
    o ->
  exists n, forall fuel, (n <= fuel)%nat ->
    top_loop fuel dv o None = found_value v.
Proof.
  induction 1 as [p id sz Hlt Hid Hsz Ht HP | p id sz Hlt Hid Hsz Hne _ (n & IH)].
  - destruct (tracks_reach _ _ _ _ HP) as (m & Hm).
    exists (S (S m)). intros [| [| fuel]] Hf; try lia.
    cbn [top_loop]. rewrite (proj2 (Z.ltb_lt p _) Hlt). cbn [andb is_null].
    rewrite Hid, Hsz, (proj2 (Z.eqb_eq _ _) Ht).
    rewrite Hm by lia. unfold found_value. cbn [is_null].
    rewrite andb_false_r. reflexivity.
  - exists (S n). intros [| fuel] Hf; [lia|].
    cbn [top_loop]. rewrite (proj2 (Z.ltb_lt p _) Hlt). cbn [andb is_null].
    rewrite Hid, Hsz, (proj2 (Z.eqb_neq _ _) Hne).
    apply IH. lia.
Qed.

(** X27: when the buffer has a [Tracks] element at the top level, in it
    a [TrackEntry], in that a [Video] element and in that a
    [ProjectionType] of at most three bytes, each possibly after other
    elements of its level, the walker returns the value of that
    [ProjectionType]; the metadata step then answers vr360 for the value
    1 and nothing for any other value. *)
Theorem walker_finds_projection_type (f : FileRef) (dv : list Byte.byte) (v : Z)
    (Hread : _readBytes f 0 MKV_CHUNK = Returned (Some dv))
    (Hpath : projection_type_at dv v) :
  exists n, forall fuel, (n <= fuel)%nat ->
    _readMkvProjectionType fuel f = Some (Returned (Some v))
    /\ forall lowerName,
         endsWith ".mkv" lowerName = true \/ endsWith ".webm" lowerName = true ->
         endsWith ".mp4" lowerName = false -> endsWith ".mov" lowerName = false ->
         _detectProjectionFromMetadata fuel f lowerName
         = Some (Returned (if v =? 1 then Some "vr360"%string else None)).
Proof.
  destruct (top_reach dv v 0 Hpath) as [n Hn].
  exists n. intros fuel Hf.
  assert (Hres : _readMkvProjectionType fuel f = Some (Returned (Some v))).
  { unfold _readMkvProjectionType. rewrite Hread. apply Hn. exact Hf. }
  split; [exact Hres|].
  intros lowerName Hext Hmp4 Hmov. unfold _detectProjectionFromMetadata.
  rewrite Hmp4, Hmov. cbn [orb].
  assert (Hc : (endsWith ".mkv" lowerName || endsWith ".webm" lowerName)%bool = true)
    by (destruct Hext as [-> | ->]; [reflexivity | apply orb_true_r]).
  rewrite Hc, Hres.
  destruct v as [| [q | q |] |]; reflexivity.
Qed.

Lemma walker_finds_projection_type_witness :
  exists fuel,
    _readMkvProjectionType fuel (FileBlob (flat_file Byte.x01))
    = Some (Returned (Some 1)).
Proof.
  assert (Hread : _readBytes (FileBlob (flat_file Byte.x01)) 0 MKV_CHUNK
                  = Returned (Some (flat_file Byte.x01)))
    by (vm_compute; reflexivity).
  assert (Hpath : projection_type_at (flat_file Byte.x01) 1).
  { unfold projection_type_at.
    eapply (reach_skip _ _ _ _ 0 {| value := 0x1A45DFA3; width := 4 |}
                       {| value := 0; width := 1 |});
      [vm_compute; reflexivity | vm_compute; reflexivity | vm_compute; reflexivity
       | vm_compute; discriminate |].
    eapply (reach_hit _ _ _ _ _ {| value := ID_TRACKS; width := 4 |}
                      {| value := 15; width := 1 |});
      [vm_compute; reflexivity | vm_compute; reflexivity | vm_compute; reflexivity
       | reflexivity |].
    eapply (reach_hit _ _ _ _ _ {| value := ID_TRACK_ENTRY; width := 1 |}
                      {| value := 13; width := 1 |});
      [vm_compute; reflexivity | vm_compute; reflexivity | vm_compute; reflexivity
       | reflexivity |].
    eapply (reach_skip _ _ _ _ _ {| value := 0xD7; width := 1 |}
                       {| value := 1; width := 1 |});
      [vm_compute; reflexivity | vm_compute; reflexivity | vm_compute; reflexivity
       | vm_compute; discriminate |].
    eapply (reach_hit _ _ _ _ _ {| value := ID_VIDEO; width := 1 |}
                      {| value := 8; width := 1 |});
      [vm_compute; reflexivity | vm_compute; reflexivity | vm_compute; reflexivity
       | reflexivity |].
    eapply (reach_skip _ _ _ _ _ {| value := 0xB0; width := 1 |}
                       {| value := 2; width := 1 |});
      [vm_compute; reflexivity | vm_compute; reflexivity | vm_compute; reflexivity
       | vm_compute; discriminate |].
    eapply (reach_hit _ _ _ _ _ {| value := ID_PROJECTION_TYPE; width := 2 |}
                      {| value := 1; width := 1 |});
      [vm_compute; reflexivity | vm_compute; reflexivity | vm_compute; reflexivity
       | reflexivity |].
    unfold uint_content. vm_compute.
    repeat split; congruence. }
  destruct (walker_finds_projection_type _ _ 1 Hread Hpath) as [n Hn].
  exists n. apply (proj1 (Hn n (Nat.le_refl n))).
Defined.

(** ** An element that moves the scan back *)

(** X28: when the first element of the buffer is not [Tracks] and its
    size field decodes to the negative of the length of its header,
    which an eight-byte size field can do because the value is kept in
    32 bits, the scan of the top level returns to the same offset: the
    walker gives no result with any amount of fuel. *)
Theorem walker_spins_on_rewinding_size (f : FileRef) (dv : list Byte.byte)
    (id sz : Vint)
    (Hread : _readBytes f 0 MKV_CHUNK = Returned (Some dv))
    (Hid : readVint dv 0 true = Returned (Some id))
    (Hne : value id <> ID_TRACKS)
    (Hsz : readVint dv (0 + width id) false = Returned (Some sz))
    (Hback : 0 + width id + width sz + value sz = 0) :
  forall fuel, _readMkvProjectionType fuel f = None.
Proof.
  intros fuel. unfold _readMkvProjectionType. rewrite Hread.
  assert (Hlen : 0 < byteLength dv).
  { destruct (Z_lt_ge_dec 0 (byteLength dv)) as [H | H]; [exact H|].
    rewrite (readVint_past_end dv 0 true) in Hid by lia. discriminate. }
  induction fuel as [| fuel IH]; [reflexivity|].
  cbn [top_loop]. rewrite (proj2 (Z.ltb_lt 0 _) Hlen). cbn [andb is_null].
  rewrite Hid, Hsz, (proj2 (Z.eqb_neq _ _) Hne), Hback. exact IH.
Qed.

Lemma walker_spins_on_rewinding_size_witness :
  _readMkvProjectionType 64 (FileBlob rewinding_file) = None.
Proof.
  apply (walker_spins_on_rewinding_size _ rewinding_file
           {| value := 0xEC; width := 1 |} {| value := -9; width := 8 |});
    [vm_compute; reflexivity | vm_compute; reflexivity | vm_compute; discriminate
     | vm_compute; reflexivity | reflexivity].
Defined.

(** ** A source that cannot be read *)

(** X29: the projection step never fails or hangs on a source it cannot
    read.  With no file, with a string that is not a blob URL (which is
    not fetched), or with a blob URL whose fetch rejects (the exception
    is caught), the result is the one of the file name alone, for every
    name, with or without a container extension. *)
Theorem unreadable_source_falls_back_to_name (fuel : nat) (f : FileRef)
    (name0 projection : string)
    (Hf : f = NoFile
          \/ exists url fetched,
               f = UrlString url fetched
               /\ (startsWith "blob:" url = false \/ fetched = None)) :
  detectProjection fuel f name0 projection
  = Some (DetectorSteps.projection_from_name (toLowerCase name0) projection).
Proof.
  unfold detectProjection, _detectProjectionFromMetadata,
         _readMkvProjectionType, _extractXmpFromMp4.
  cbv zeta.
  assert (Hrb : forall n,
             _readBytes f 0 n = Returned None \/ _readBytes f 0 n = Thrown).
  { intros n. destruct Hf as [-> | (url & fetched & -> & [Hu | ->])].
    - left. reflexivity.
    - left. unfold _readBytes. rewrite Hu. reflexivity.
    - unfold _readBytes. destruct (negb _); [left | right]; reflexivity. }
  destruct (_ || _)%bool.
  - destruct (Hrb XMP_CHUNK) as [-> | ->]; reflexivity.
  - destruct (_ || _)%bool; [| reflexivity].
    destruct (Hrb MKV_CHUNK) as [-> | ->]; reflexivity.
Qed.

Lemma unreadable_source_falls_back_to_name_witness :
  detectProjection 0 (UrlString "blob:1f0c" None) "Beach VR180.mkv" "flat"
  = Some {| Detector.value := "vr180"; Detector.method := Detector.METHOD_FILENAME |}.
Proof.
  refine (unreadable_source_falls_back_to_name 0 (UrlString "blob:1f0c" None)
            "Beach VR180.mkv" "flat" _).
  right. exists "blob:1f0c"%string, None. split; [reflexivity|]. right. reflexivity.
Defined.

(** ** Integers inside the buffer *)

(** X30: at a position inside the buffer [readVint] never throws; it
    gives null exactly when the leading byte is zero or the integer
    would pass the end of the buffer.  Otherwise the width is 8 minus
    the position of the highest set bit of the leading byte, and an
    integer of at most four bytes has the big-endian value of its bytes,
    the leading byte whole for an ID and without its marker bit for a
    size. *)
Theorem readVint_decodes_narrow_integers (dv : list Byte.byte) (pos : Z)
    (forId : bool) (b : Byte.byte)
    (Hpos : 0 <= pos < byteLength dv)
    (Hb : nth_error dv (Z.to_nat pos) = Some b) :
  readVint dv pos forId <> Thrown
  /\ (readVint dv pos forId = Returned None
      <-> byte_value b = 0 \/ byteLength dv < pos + (8 - Z.log2 (byte_value b)))
  /\ forall r, readVint dv pos forId = Returned (Some r) ->
       width r = 8 - Z.log2 (byte_value b)
       /\ 1 <= width r <= 8
       /\ (width r <= 4 ->
           value r = big_endian_from (leading (byte_value b) (width r) forId)
                       (continuation dv pos (width r))).
Proof.
  destruct (readVint_null_iff dv pos forId b Hpos Hb) as [Hthrow Hnull].
  split; [exact Hthrow|]. split; [exact Hnull|].
  intros r Hr. exact (readVint_width_and_narrow_value dv pos forId b r Hpos Hb Hr).
Qed.

Lemma readVint_decodes_narrow_integers_witness :
  readVint (flat_file Byte.x01) 5 true <> Thrown.
Proof.
  refine (proj1 (readVint_decodes_narrow_integers (flat_file Byte.x01) 5 true
                   Byte.x16 _ _)).
  - vm_compute. split; [discriminate | reflexivity].
  - reflexivity.
Defined.

End WalkerExtras.
